(** * CEEMS collector and API server: a shallow embedding and its properties

    The development follows the Go sources:
    - [pkg/collector/helpers.go]  ([SanitizeMetricName], [cgroupProcFilterer]),
    - [pkg/collector/perf.go]     (the perf collector: [scaleCounter],
      [aggHardwareCounters], [updateHardwareCounters], [openProfilers],
      [closeProfilers]),
    - [pkg/collector/ipmi.go]     ([getValue], [parseIPMIOutput], [Update]),
    - [pkg/api/http/server.go]    ([getQueryWindow], [unitsQuerier],
      [verifyUnitsOwnership]),
    - [pkg/lb/backend]            (the retention cache, known from its tests).

    Part I holds the definitions, Part II the lemmas and theorems. *)

From Stdlib Require Import ZArith Bool List Ascii String Lia.
From Stdlib Require Import Floats.SpecFloat.
From stdpp Require Import base option list gmap strings.

Import ListNotations.
Local Open Scope Z_scope.

(* ===================================================================== *)
(** * Part I: definitions                                                 *)
(* ===================================================================== *)

(** ** Go strings as byte lists *)

Module Bytes.

(** A Go [string] is a byte sequence; text-processing code below works on
    [list ascii] and converts at the boundary. *)
Definition bytes_of (s : string) : list ascii := list_ascii_of_string s.
Definition string_of (l : list ascii) : string := string_of_list_ascii l.

Definition in_range (lo hi c : ascii) : bool :=
  (nat_of_ascii lo <=? nat_of_ascii c)%nat && (nat_of_ascii c <=? nat_of_ascii hi)%nat.

Definition is_digit (c : ascii) : bool := in_range "0" "9" c.
Definition is_upper (c : ascii) : bool := in_range "A" "Z" c.
Definition is_lower (c : ascii) : bool := in_range "a" "z" c.
Definition is_alnum (c : ascii) : bool := is_digit c || is_upper c || is_lower c.
Definition is_char (x c : ascii) : bool := Ascii.eqb x c.

(** [\s] of Go's regexp (RE2 syntax): [\t\n\f\r ]. *)
Definition is_space (c : ascii) : bool :=
  let n := nat_of_ascii c in
  ((n =? 9) || (n =? 10) || (n =? 12) || (n =? 13) || (n =? 32))%nat.

(** [strings.HasPrefix(s, p)]. *)
Fixpoint has_prefix (s p : list ascii) : bool :=
  match p, s with
  | [], _ => true
  | _ :: _, [] => false
  | a :: p', b :: s' => Ascii.eqb a b && has_prefix s' p'
  end.

(** The longest prefix of bytes of a class, and what follows it. *)
Fixpoint take_while (c : ascii -> bool) (s : list ascii) : list ascii :=
  match s with
  | x :: s' => if c x then x :: take_while c s' else []
  | [] => []
  end.

Fixpoint drop_while (c : ascii -> bool) (s : list ascii) : list ascii :=
  match s with
  | x :: s' => if c x then drop_while c s' else s
  | [] => []
  end.

(** [strings.Split(s, sep)] for a one-byte separator: the pieces between
    the separators, empty pieces kept. *)
Fixpoint split_on (sep : ascii) (s : list ascii) : list (list ascii) :=
  match s with
  | [] => [[]]
  | c :: s' =>
      if Ascii.eqb c sep then [] :: split_on sep s'
      else match split_on sep s' with
           | [] => [[c]]
           | l :: ls => (c :: l) :: ls
           end
  end.

End Bytes.

(** ** The fragment of Go's [regexp] the repository uses

    Go picks, among the matches that start leftmost, "the one that a
    backtracking search would have found first".  [run] is that search:
    it lists the ways a pattern matches a prefix of the input, in the
    order a backtracking matcher tries them, each with what is left of
    the input and the text of the capture group, if it took part. *)

Module Regexp.
Import Bytes.

Inductive re : Type :=
| Eps                          (* the empty pattern *)
| Class (c : ascii -> bool)    (* one byte of a class: [x], [[...]], [\s], [.] *)
| Seq (r1 r2 : re)             (* r1 r2 *)
| Alt (r1 r2 : re)             (* r1|r2, r1 preferred *)
| Star (c : ascii -> bool)     (* c*, greedy *)
| Plus (c : ascii -> bool)     (* c+, greedy *)
| Group (r : re).              (* the capture group (?P<value>r) *)

(** A literal text, one [Class] per byte. *)
Fixpoint Lit (l : list ascii) : re :=
  match l with
  | [] => Eps
  | c :: l' => Seq (Class (is_char c)) (Lit l')
  end.

(** The suffixes left by [c*]: the longest run first. *)
Fixpoint star_rests (c : ascii -> bool) (s : list ascii) : list (list ascii) :=
  match s with
  | x :: s' => if c x then star_rests c s' ++ [s] else [s]
  | [] => [[]]
  end.

(** The text consumed between [s] and its suffix [rest]. *)
Definition consumed (s rest : list ascii) : list ascii :=
  firstn (length s - length rest)%nat s.

Definition first_some {A} (a b : option A) : option A :=
  match a with Some _ => a | None => b end.

Fixpoint run (r : re) (s : list ascii) : list (option (list ascii) * list ascii) :=
  match r with
  | Eps => [(None, s)]
  | Class c =>
      match s with
      | x :: s' => if c x then [(None, s')] else []
      | [] => []
      end
  | Seq r1 r2 =>
      flat_map (fun '(g1, s1) =>
                  map (fun '(g2, s2) => (first_some g2 g1, s2)) (run r2 s1))
               (run r1 s)
  | Alt r1 r2 => run r1 s ++ run r2 s
  | Star c => map (fun s' => (None, s')) (star_rests c s)
  | Plus c =>
      match s with
      | x :: s' => if c x then map (fun s'' => (None, s'')) (star_rests c s') else []
      | [] => []
      end
  | Group r' => map (fun '(_, s') => (Some (consumed s s'), s')) (run r' s)
  end.

(** The preferred match of [r] at the very start of [s]. *)
Definition match_here (r : re) (s : list ascii) : option (option (list ascii) * list ascii) :=
  head (run r s).

(** [regexp.ReplaceAllString] for a pattern without [^]: scan from the
    left; where the pattern matches a non-empty text, emit [repl] and go
    on after the match, else copy one byte.  [skip] counts the bytes of
    the current match still to be dropped.  (The patterns of this
    repository never match the empty text, so Go's extra rule for empty
    matches does not arise.) *)
Fixpoint replace_from (r : re) (repl : list ascii) (skip : nat) (s : list ascii)
  : list ascii :=
  match s with
  | [] => []
  | c :: s' =>
      match skip with
      | S k => replace_from r repl k s'
      | O =>
          match match_here r s with
          | Some (_, rest) =>
              match (length s - length rest)%nat with
              | O => c :: replace_from r repl O s'
              | S k => repl ++ replace_from r repl k s'
              end
          | None => c :: replace_from r repl O s'
          end
      end
  end.

Definition ReplaceAll (r : re) (repl s : list ascii) : list ascii :=
  replace_from r repl O s.

(** [regex.FindStringSubmatch(line)] followed by the lookup of the group
    named [value], for a pattern anchored with [^]. *)
Definition find_value (r : re) (line : list ascii) : option (list ascii) :=
  match match_here r line with
  | Some (Some v, _) => Some v
  | Some (None, _) => Some []
  | None => None
  end.

End Regexp.

(** ** [pkg/collector/helpers.go]: metric names *)

Module Helpers.
Import Bytes Regexp.

Definition underscore : ascii := "_"%char.

(** A byte of [[0-9A-Za-z_]]. *)
Definition is_word (c : ascii) : bool := is_alnum c || is_char underscore c.

(** [metricNameRegex]: any underscores, one or more bytes outside
    [[0-9A-Za-z_]], any underscores.  The
    pattern is matched over bytes: every byte of a multi-byte rune is
    outside [[0-9A-Za-z_]], so runs of bytes and runs of runes outside the
    class cover the same text. *)
Definition metricNameRegex : re :=
  Seq (Star (is_char underscore))
      (Seq (Plus (fun c => negb (is_word c)))
           (Star (is_char underscore))).

Definition sanitize (s : list ascii) : list ascii :=
  ReplaceAll metricNameRegex [underscore] s.

(** [SanitizeMetricName]. *)
Definition SanitizeMetricName (metricName : string) : string :=
  string_of (sanitize (bytes_of metricName)).

(** The reading "each maximal run of bytes outside [[A-Za-z0-9_]] becomes
    one underscore, every byte inside the class stays": used to compare
    with [SanitizeMetricName]. *)
Fixpoint collapse_runs (in_run : bool) (s : list ascii) : list ascii :=
  match s with
  | [] => []
  | c :: s' =>
      if is_word c then c :: collapse_runs false s'
      else if in_run then collapse_runs true s'
      else underscore :: collapse_runs true s'
  end.

Definition sanitize_by_runs (metricName : string) : string :=
  string_of (collapse_runs false (bytes_of metricName)).

Definition is_underscore (c : ascii) : bool := is_char underscore c.
Definition is_other (c : ascii) : bool := negb (is_word c).

(** [starts_with P s]: [s] is not empty and its first byte satisfies [P]. *)
Definition starts_with (P : ascii -> bool) (s : list ascii) : bool :=
  match s with
  | c :: _ => P c
  | [] => false
  end.

(** A match of [metricNameRegex] begins at the start of [s]: underscores
    followed by a byte outside the class. *)
Definition block_at (s : list ascii) : bool :=
  starts_with is_other (drop_while is_underscore s).

(** What sanitizing does, as a relation between the name and the result.
    Reading from the left, either a block begins here (underscores
    [us], a non-empty longest run [other] of bytes outside
    [[0-9A-Za-z_]], then the underscores [us'] that follow it) and the
    whole block becomes one underscore; or no block begins here and the
    byte, a letter, a digit or an underscore, is kept. *)
Inductive sanitized : list ascii -> list ascii -> Prop :=
| sanitized_nil : sanitized [] []
| sanitized_keep (c : ascii) (s t : list ascii) :
    block_at (c :: s) = false ->
    sanitized s t ->
    sanitized (c :: s) (c :: t)
| sanitized_block (us other us' s t : list ascii) :
    forallb is_underscore us = true ->
    other <> [] ->
    forallb is_other other = true ->
    forallb is_underscore us' = true ->
    starts_with is_underscore s = false ->
    (us' = [] -> starts_with is_other s = false) ->
    sanitized s t ->
    sanitized (us ++ other ++ us' ++ s) (underscore :: t).

End Helpers.

(** ** [pkg/collector/helpers.go]: the env-var filter of cgroups *)

Module Cgroups.

(** A [procfs.Proc]: its PID and what [proc.CmdLine()] and
    [proc.Environ()] return when the filter reads them; [None] stands for
    a read that returns an error (the process is gone, or [/proc] may not
    be read). *)
Record Proc : Type := {
  PID : Z;
  CmdLine : option (list string);
  Environ : option (list string)
}.

(** The [cgroup] struct: [{id, path, uuid, procs}]. *)
Record cgroup : Type := {
  id : string;
  path : string;
  uuid : string;
  procs : list Proc
}.

Definition with_procs (cgrp : cgroup) (ps : list Proc) : cgroup :=
  {| id := id cgrp; path := path cgrp; uuid := uuid cgrp; procs := ps |}.

(** The two nested loops over [environ] and [targetEnvVars] with
    [strings.HasPrefix(env, targetEnvVar)]. *)
Definition env_has_target (targetEnvVars environ : list string) : bool :=
  existsb (fun env => existsb (fun targetEnvVar => String.prefix targetEnvVar env)
                              targetEnvVars)
          environ.

(** One turn of the loop over [cgrp.procs]: [true] when the process
    reaches the label [add_proc]. *)
Definition proc_selected (targetEnvVars : list string)
    (procFilter : option (string -> bool)) (proc : Proc) : bool :=
  let by_env :=
    match Environ proc with
    | None => false
    | Some environ => env_has_target targetEnvVars environ
    end in
  match procFilter with
  | Some ignore =>
      match CmdLine proc with
      | None => false
      | Some [] => false
      | Some procCmdLine =>
          if ignore (String.concat " " procCmdLine) then false else by_env
      end
  | None => by_env
  end.

(** [cgroupProcFilterer]. *)
Definition cgroupProcFilterer (cgroups : list cgroup) (targetEnvVars : list string)
    (procFilter : option (string -> bool)) : list cgroup :=
  match targetEnvVars with
  | [] => cgroups
  | _ :: _ =>
      flat_map (fun cgrp =>
                  match List.filter (proc_selected targetEnvVars procFilter) (procs cgrp) with
                  | [] => []
                  | filteredProcs => [with_procs cgrp filteredProcs]
                  end)
               cgroups
  end.

(** The reading of the filter by its description: a cgroup is kept when
    one of its processes has an environment entry with one of the targets
    as a prefix. *)
Definition has_target_env (targetEnvVars : list string) (cgrp : cgroup) : bool :=
  existsb (fun proc =>
             match Environ proc with
             | None => false
             | Some environ => env_has_target targetEnvVars environ
             end)
          (procs cgrp).

End Cgroups.

(** ** IEEE 754 binary64, Go's [float64]

    [spec_float] with [prec = 53] and [emax = 1024] is the Standard
    Library's executable specification of binary64 arithmetic with
    round-to-nearest-even, which is what Go's [+], [*], [/] and
    conversions on [float64] compute. *)

Module Float64.

Abbreviation float64 := spec_float.

Definition prec : Z := 53.
Definition emax : Z := 1024.

Definition fzero : float64 := S754_zero false.
Definition fadd : float64 -> float64 -> float64 := SFadd prec emax.
Definition fmul : float64 -> float64 -> float64 := SFmul prec emax.
Definition fdiv : float64 -> float64 -> float64 := SFdiv prec emax.

(** [x > y], [x >= y] on [float64]: false when either is NaN. *)
Definition fgt (x y : float64) : bool := SFltb y x.
Definition fge (x y : float64) : bool := SFleb y x.

(** [float64(n)]: the conversion of an integer, rounded to nearest even. *)
Definition of_Z (n : Z) : float64 := binary_normalize prec emax n 0 false.

(** [math.Round]: the nearest integer, halves away from zero;
    [Round(+-0) = +-0], [Round(+-Inf) = +-Inf], [Round(NaN) = NaN]. *)
Definition Round (x : float64) : float64 :=
  match x with
  | S754_finite s m e =>
      if 0 <=? e then x
      else
        let k := - e in
        let q := Z.shiftr (Zpos m) k in
        let r := Zpos m - Z.shiftl q k in
        let n := if Z.shiftl 1 (k - 1) <=? r then q + 1 else q in
        if n =? 0 then S754_zero s
        else binary_normalize prec emax (cond_Zopp s n) 0 s
  | _ => x
  end.

(** The value of a decimal digit string, most significant digit first. *)
Definition digits_value (ds : list ascii) : Z :=
  fold_left (fun acc d => 10 * acc + (Z.of_nat (nat_of_ascii d) - 48)) ds 0.

(** [strconv.ParseFloat(s, 64)] on the texts the IPMI patterns capture,
    [[0-9.]*]: digits with at most one point and at least one digit; the
    nearest [float64] of the decimal number; an error ([None]) for any
    other text and for a number too large for a [float64]. *)
Definition ParseFloat (s : list ascii) : option float64 :=
  let point := "."%char in
  let ip := Bytes.take_while (fun c => negb (Ascii.eqb c point)) s in
  let rest := Bytes.drop_while (fun c => negb (Ascii.eqb c point)) s in
  let fp := match rest with [] => [] | _ :: fp => fp end in
  if negb (forallb Bytes.is_digit ip && forallb Bytes.is_digit fp) then None
  else if (length ip + length fp =? 0)%nat then None
  else
    let m := digits_value (ip ++ fp) in
    match m with
    | Zpos mp =>
        match SFdiv prec emax (S754_finite false mp 0)
                (S754_finite false (Z.to_pos (10 ^ Z.of_nat (length fp))) 0) with
        | S754_infinity _ | S754_nan => None
        | v => Some v
        end
    | _ => Some fzero
    end.

(** The number 1. *)
Definition fone : float64 := S754_finite false 4503599627370496 (-52).

(** *** Notions the lemmas on [float64] are stated with *)

(** The exponent of the canonical [float64] whose digits and exponent
    add up to [e]. *)
Definition fexp64 (e : Z) : Z := fexp prec emax e.

(** The mantissa and the exponent [shr_fexp] leaves. *)
Definition shift_m (m e : Z) : Z := m / 2 ^ Z.max 0 (fexp64 (Zdigits2 m + e) - e).

Definition shift_e (m e : Z) : Z := Z.max e (fexp64 (Zdigits2 m + e)).

(** What [binary_round_aux] makes of a mantissa and an exponent. *)
Definition pack (sx : bool) (m e : Z) : float64 :=
  match m with
  | Z0 => S754_zero sx
  | Zpos p => if e <=? emax - prec then S754_finite sx p e else S754_infinity sx
  | Zneg _ => S754_nan
  end.

(** What is known of a float rounded from a mantissa [m] whose digits
    and exponent add up to [g]. *)
Definition shape (m g : Z) (r : float64) : Prop :=
  match r with
  | S754_zero false => m = 0 \/ g <= -1074
  | S754_finite false m3 e3 =>
      bounded prec emax m3 e3 = true /\
      g <= Zpos (digits2_pos m3) + e3 <= Z.max (g + 1) (-1073)
  | S754_infinity false => 1024 <= g
  | _ => False
  end.

(** A [float64] a counter can hold: [+0], a positive number in
    canonical form, or [+Inf]; never a negative number, never NaN. *)
Definition good (x : float64) : bool :=
  match x with
  | S754_zero false | S754_infinity false => true
  | S754_finite false m e => bounded prec emax m e
  | _ => false
  end.

(** [+0] or a positive number in canonical form below [2 ^ hi]. *)
Definition within (hi : Z) (x : float64) : Prop :=
  match x with
  | S754_zero false => True
  | S754_finite false m e =>
      bounded prec emax m e = true /\ Zpos (digits2_pos m) + e <= hi
  | _ => False
  end.

(** The order of the [good] floats is the order of these pairs:
    exponent first, then mantissa. *)
Definition key (x : float64) : Z * Z :=
  match x with
  | S754_zero _ => (-2000, 0)
  | S754_finite _ m e => (e, Zpos m)
  | S754_infinity _ => (2000, 0)
  | S754_nan => (0, 0)
  end.

Definition key_le (a b : Z * Z) : Prop :=
  fst a < fst b \/ (fst a = fst b /\ snd a <= snd b).

End Float64.

(** ** Prometheus samples sent on the collectors' channel *)

Module Prom.
Import Float64.

(** What [prometheus.MustNewConstMetric(desc, CounterValue, value,
    labelValues...)] carries: the fully qualified name of [desc], the
    value and the label values. *)
Record Metric : Type := {
  fqName : string;
  value : float64;
  labelValues : list string
}.

(** Modelled from the spec: the constant [Namespace] is declared in a
    file that is not among the sources; the spec names the metrics
    [ceems_perf_...] and [ceems_ipmi_dcmi_...]. *)
Definition Namespace : string := "ceems".

(** [prometheus.BuildFQName] for three non-empty parts. *)
Definition BuildFQName (namespace subsystem name : string) : string :=
  String.concat "_" [namespace; subsystem; name].

End Prom.

(** ** [pkg/collector/ipmi.go]: the power collector *)

Module IPMI.
Import Bytes Regexp Float64 Prom.

Definition ipmiCollectorSubsystem : string := "ipmi_dcmi".

Definition newline : ascii := ascii_of_nat 10.

(** [.] of Go's regexp: any byte but a newline. *)
Definition dot (c : ascii) : bool := negb (Ascii.eqb c newline).

Definition lit (s : string) : re := Lit (bytes_of s).

(** [ipmiDCMIPowerMeasurementRegex]: anchored at the start of the line,
    the text [Power Measurement], blanks, a colon, blanks, the group
    [value] (either [Active], or [Not], one blank, [Available]), then
    anything. *)
Definition ipmiDCMIPowerMeasurementRegex : re :=
  Seq (lit "Power Measurement")
  (Seq (Star is_space)
  (Seq (lit ":")
  (Seq (Star is_space)
  (Seq (Group (Alt (lit "Active")
                   (Seq (lit "Not") (Seq (Class is_space) (lit "Available")))))
       (Star dot))))).

(** The three patterns of [ipmiDCMIPowerReadingRegexMap]: anchored at
    the start of the line, the label, blanks, a colon, blanks, the group
    [value] (the longest run of digits and points), blanks, one of the
    bytes [w], [|], [W], the text [atts], then anything. *)
Definition power_reading_regex (label : string) : re :=
  Seq (lit label)
  (Seq (Star is_space)
  (Seq (lit ":")
  (Seq (Star is_space)
  (Seq (Group (Star (fun c => is_digit c || is_char "."%char c)))
  (Seq (Star is_space)
  (Seq (Class (fun c => is_char "w"%char c || is_char "|"%char c || is_char "W"%char c))
  (Seq (lit "atts")
       (Star dot)))))))).

(** [ipmiDCMIPowerReadingRegexMap], as the list of its entries. *)
Definition ipmiDCMIPowerReadingRegexMap : list (string * re) :=
  [ ("current", power_reading_regex "Current Power");
    ("min", power_reading_regex "Minimum Power over sampling duration");
    ("max", power_reading_regex "Maximum Power over sampling duration") ].

(** [metricDesc], built in [NewIPMICollector]. *)
Definition metricDesc (rType : string) : string :=
  BuildFQName Namespace ipmiCollectorSubsystem (rType +:+ "_watts_total").

Record impiCollector : Type := {
  hostname : string;
  execMode : string;
  cachedMetric : gmap string float64
}.

Definition with_cached (c : impiCollector) (m : gmap string float64) : impiCollector :=
  {| hostname := hostname c; execMode := execMode c; cachedMetric := m |}.

(** [getValue]: the group [value] of the first line the pattern matches;
    [None] for the error "could not find value in output". *)
Fixpoint first_value (regex : re) (lines : list (list ascii)) : option (list ascii) :=
  match lines with
  | [] => None
  | line :: rest =>
      match find_value regex line with
      | Some v => Some v
      | None => first_value regex rest
      end
  end.

Definition getValue (ipmiOutput : list ascii) (regex : re) : option (list ascii) :=
  first_value regex (split_on newline ipmiOutput).

(** [parseIPMIOutput]; [None] is an error return. *)
Definition parseIPMIOutput (stdOut : list ascii) : option (gmap string float64) :=
  match getValue stdOut ipmiDCMIPowerMeasurementRegex with
  | None => None
  | Some v =>
      if String.eqb (string_of v) "Active" then
        Some (fold_left
                (fun powerReadings '(rType, regex) =>
                   match getValue stdOut regex with
                   | Some reading =>
                       match ParseFloat reading with
                       | Some readingValue => <[rType := readingValue]> powerReadings
                       | None => powerReadings
                       end
                   | None => powerReadings
                   end)
                ipmiDCMIPowerReadingRegexMap ∅)
      else None
  end.

(** [executeIPMICmd]: [tool] is what running the command gives in this
    scrape ([None]: the execution failed); without an execution mode the
    command is not run. *)
Definition executeIPMICmd (c : impiCollector) (tool : option (list ascii))
  : option (list ascii) :=
  if String.eqb (execMode c) "cap" || String.eqb (execMode c) "sudo"
     || String.eqb (execMode c) "native"
  then tool else None.

(** [getPowerReadings]. *)
Definition getPowerReadings (c : impiCollector) (tool : option (list ascii))
  : option (gmap string float64) :=
  match executeIPMICmd c tool with
  | None => None
  | Some ipmiOutput => parseIPMIOutput ipmiOutput
  end.

(** The sample sent for one reading. *)
Definition power_sample (c : impiCollector) (rType : string) (rValue : float64) : Metric :=
  {| fqName := metricDesc rType; value := rValue; labelValues := [hostname c] |}.

(** The samples for the readings above zero of [readings]. *)
Definition samples_of (c : impiCollector) (readings : gmap string float64) : list Metric :=
  map (fun kv => power_sample c kv.1 kv.2)
      (List.filter (fun kv => fgt kv.2 fzero) (map_to_list readings)).

(** [Update]: returns the collector with its cache after the scrape and
    the samples sent on [ch]. *)
Definition Update (c : impiCollector) (tool : option (list ascii))
  : impiCollector * list Metric :=
  let powerReadings :=
    match getPowerReadings c tool with
    | Some readings => readings
    | None => cachedMetric c
    end in
  fold_left
    (fun '(c', ch) '(rType, rValue) =>
       if fgt rValue fzero then
         (with_cached c' (<[rType := rValue]> (cachedMetric c')),
          ch ++ [power_sample c rType rValue])
       else (c', ch))
    (map_to_list powerReadings) (c, []).

(** What running the command gives when the collector is created, by
    way of execution: whether [osexec.Execute], [osexec.ExecuteWithTimeout]
    through [sudo] and [osexec.ExecuteAs] root return no error. *)
Record Exec : Type := {
  native_ok : bool;
  sudo_ok : bool;
  cap_ok : bool
}.

(** [NewIPMICollector] for the command line [ipmiDcmiCmd] on the host
    [host]: the execution mode is the first way that works, [sudo] being
    tried only when the command does not start with it; the cache is
    empty. *)
Definition NewIPMICollector (ipmiDcmiCmd host : string) (e : Exec) : impiCollector :=
  let cmdSlice := split_on " "%char (bytes_of ipmiDcmiCmd) in
  let execMode :=
    if native_ok e then "native"
    else if negb (String.eqb (string_of (hd [] cmdSlice)) "sudo") && sudo_ok e then "sudo"
    else if cap_ok e then "cap"
    else "" in
  {| hostname := host; execMode := execMode; cachedMetric := ∅ |}.

(** A sequence of scrapes: the collector after them and what each of
    them sent. *)
Fixpoint scrapes (c : impiCollector) (tools : list (option (list ascii)))
  : impiCollector * list (list Metric) :=
  match tools with
  | [] => (c, [])
  | tool :: rest =>
      let '(c1, ch) := Update c tool in
      let '(c2, chs) := scrapes c1 rest in
      (c2, ch :: chs)
  end.

(** The types of reading the collector knows. *)
Definition reading_types : list string := map fst ipmiDCMIPowerReadingRegexMap.

End IPMI.

(** ** [pkg/api/http/server.go]: the units handlers *)

Module API.
Import Bytes.

(** *** What the handlers use of Go's libraries *)

(** [strconv.Atoi]: an optional sign and decimal digits, within [int]
    (64 bits); [None] for an error. *)
Definition Atoi (s : string) : option Z :=
  let b := bytes_of s in
  let '(neg, ds) :=
    match b with
    | c :: ds =>
        if Ascii.eqb c "-"%char then (true, ds)
        else if Ascii.eqb c "+"%char then (false, ds)
        else (false, b)
    | [] => (false, b)
    end in
  match ds with
  | [] => None
  | _ :: _ =>
      if forallb is_digit ds then
        let v := if neg : bool then - Float64.digits_value ds else Float64.digits_value ds in
        if (- 2 ^ 63 <=? v) && (v <=? 2 ^ 63 - 1) then Some v else None
      else None
  end.

(** [time.Time] as nanoseconds since the Unix epoch, [time.Duration] as
    nanoseconds. *)
Definition Second : Z := 1000000000.
Definition Hour : Z := 3600 * Second.

(** [int64] arithmetic wraps around. *)
Definition int64 (z : Z) : Z := (z + 2 ^ 63) mod 2 ^ 64 - 2 ^ 63.

(** [unixToInternal] of package [time]: the seconds from January 1 of
    year 1 to the Unix epoch. *)
Definition unixToInternal : Z := 62135596800.

(** [time.Unix(sec, 0)]: the time keeps [sec + unixToInternal], the
    seconds since January 1 of year 1, in an [int64]; the sum wraps
    around for a [sec] of [2^63 - unixToInternal] or more, which gives a
    time before year 1. *)
Definition time_Unix (sec : Z) : Z :=
  (int64 (sec + unixToInternal) - unixToInternal) * Second.

Definition time_Add (t d : Z) : Z := t + d.

(** [t.Sub(u)]: "if the result exceeds the maximum (or minimum) value
    that can be stored in a Duration, the maximum (or minimum) duration
    will be returned". *)
Definition time_Sub (t u : Z) : Z :=
  Z.max (- 2 ^ 63) (Z.min (2 ^ 63 - 1) (t - u)).

(** [url.Values]: [vals[key]] and [vals.Get(key)]. *)
Abbreviation Values := (gmap string (list string)).

Definition values_of (vals : Values) (key : string) : list string :=
  default [] (vals !! key).

Definition values_Get (vals : Values) (key : string) : string :=
  match values_of vals key with
  | v :: _ => v
  | [] => ""
  end.

(** *** The server *)

(** The request as the handlers read it: the two identity headers and
    the query of the URL. *)
Record Request : Type := {
  loggedUser : string;      (* r.Header.Get(loggedUserHeader) *)
  dashboardUser : string;   (* r.Header.Get(dashboardUserHeader) *)
  query : Values            (* r.URL.Query() *)
}.

(** [models.Unit], with the fields the tests fill. *)
Record Unit : Type := {
  UUID : string;
  ClusterID : string;
  ResourceManager : string;
  User : string
}.

(** [models.Ownership]. *)
Record Ownership : Type := {
  own_User : string;
  own_UUIDS : list string;
  own_Owner : bool
}.

(** The [Query] builder is declared in a file that is not among the
    sources; a query is kept as the sequence of the calls [q.query(s)]
    and [q.param(values)] that built it. *)
Inductive QueryPart : Type :=
| QText (s : string)
| QParam (values : list string).

Definition Query := list QueryPart.
Definition q_query (q : Query) (s : string) : Query := q ++ [QText s].
Definition q_param (q : Query) (values : list string) : Query := q ++ [QParam values].

(** What [s.Querier(s.db, q, resource, s.logger)] returns. *)
Inductive QueryResult : Type :=
| Rows (units : list Unit)
| QueryError (err : string).

(** The ownership oracle behind [VerifyOwnership]: whether a user is the
    direct owner of a unit, and whether the user shares a
    project/account with it. *)
Record OwnershipDB : Type := {
  owns : string -> string -> bool;
  shares_project : string -> string -> bool
}.

(** [CEEMSServer], with what the handlers read from package [base]:
    [base.UnitsDBTableColNames], [base.UnitsDBTableName] and the
    formatting of a time with [base.DatetimeLayout]. *)
Record CEEMSServer : Type := {
  maxQueryPeriod : Z;
  Querier : Query -> string -> QueryResult;
  db : OwnershipDB;
  UnitsDBTableColNames : list string;
  UnitsDBTableName : string;
  format_time : Z -> string
}.

(** The two readings of [time.Now()] in [getQueryWindow]: the one the
    default [from] is taken from, and the one used as default [to]. *)
Record Clock : Type := {
  now_from : Z;
  now_to : Z
}.

Inductive errorType : Type :=
| errorBadData
| errorInternal
| errorForbidden.

(** [Response[T]] together with the status code written on [w]. *)
Record Response (T : Type) : Type := {
  code : Z;
  Status : string;
  Data : list T;
  ErrorType : option errorType;
  Error : string
}.
Arguments code {T}.
Arguments Status {T}.
Arguments Data {T}.
Arguments ErrorType {T}.
Arguments Error {T}.

(** Modelled from the spec: [errorResponse] and the error types are
    declared in a file that is not among the sources.  The spec gives a
    400-class response to a caller error (malformed or too large time
    window) and 403 to a failed ownership check; the handlers' own
    annotations list 500 for an internal failure. *)
Definition status_of_error (typ : errorType) : Z :=
  match typ with
  | errorBadData => 400
  | errorInternal => 500
  | errorForbidden => 403
  end.

Definition errorResponse {T : Type} (typ : errorType) (err : string) : Response T :=
  {| code := status_of_error typ; Status := "error"; Data := [];
     ErrorType := Some typ; Error := err |}.

Definition successResponse {T : Type} (data : list T) : Response T :=
  {| code := 200; Status := "success"; Data := data;
     ErrorType := None; Error := "" |}.

Definition unitsResourceName : string := "units".
Definition defaultQueryWindow : Z := 24 * Hour.

(** [getCommonQueryParams]. *)
Definition getCommonQueryParams (q : Query) (URLValues : Values) : Query :=
  let q :=
    match values_of URLValues "project" with
    | [] => q
    | projects => q_param (q_query q " AND project IN ") projects
    end in
  match URLValues !! "running" with
  | Some _ => q_param (q_query q " OR ended_at_ts IN ") ["0"]
  | None => q
  end.

(** [getQueriedFields]. *)
Definition getQueriedFields (URLValues : Values) (validFieldNames : list string)
  : list string :=
  match values_of URLValues "field" with
  | [] => validFieldNames
  | fields => List.filter (fun f => bool_decide (f ∈ validFieldNames)) fields
  end.

(** [getQueryWindow]: the formatted [from] and [to], or the error. *)
Definition getQueryWindow (s : CEEMSServer) (clock : Clock) (r : Request)
  : (string * string) + string :=
  let f := values_Get (query r) "from" in
  let t := values_Get (query r) "to" in
  let from :=
    if String.eqb f "" then inl (time_Add (now_from clock) (- defaultQueryWindow))
    else match Atoi f with
         | None => inr "malformed 'from' timestamp"
         | Some ts => inl (time_Unix ts)
         end in
  match from with
  | inr err => inr err
  | inl fromTime =>
      let to :=
        if String.eqb t "" then inl (now_to clock)
        else match Atoi t with
             | None => inr "malformed 'to' timestamp"
             | Some ts => inl (time_Unix ts)
             end in
      match to with
      | inr err => inr err
      | inl toTime =>
          if (0 <? maxQueryPeriod s) && (maxQueryPeriod s <? time_Sub toTime fromTime)
          then inr "maximum query window exceeded"
          else inl (format_time s fromTime, format_time s toTime)
      end
  end.

(** [unitsQuerier]. *)
Definition unitsQuerier (s : CEEMSServer) (clock : Clock)
    (queriedUsers : list string) (r : Request) : Response Unit :=
  let queriedFields := getQueriedFields (query r) (UnitsDBTableColNames s) in
  let q : Query := [] in
  let q := q_query q ("SELECT " +:+ String.concat "," queriedFields +:+ " FROM "
                        +:+ UnitsDBTableName s) in
  let q := q_query q " WHERE ignore = 0 " in
  let q :=
    match queriedUsers with
    | [] => q
    | _ :: _ => q_param (q_query q " AND usr IN ") queriedUsers
    end in
  let q := getCommonQueryParams q (query r) in
  let queryUnits (q : Query) : Response Unit :=
    match Querier s q unitsResourceName with
    | QueryError err => errorResponse errorInternal err
    | Rows units => successResponse units
    end in
  match values_of (query r) "uuid" with
  | (_ :: _) as uuids =>
      (* checkQueryWindow = false: goto queryUnits *)
      queryUnits (q_param (q_query q " AND uuid IN ") uuids)
  | [] =>
      match getQueryWindow s clock r with
      | inr err => errorResponse errorBadData err
      | inl (from, to) =>
          let q := q_param (q_query q " AND ended_at BETWEEN ") [from] in
          let q := q_param (q_query q " AND ") [to] in
          queryUnits q
      end
  end.

(** The request [r] with another query. *)
Definition with_query (r : Request) (q : Values) : Request :=
  {| loggedUser := loggedUser r; dashboardUser := dashboardUser r; query := q |}.

(** What [queryUnits:] answers for the query [q]. *)
Definition query_response (s : CEEMSServer) (q : Query) : Response Unit :=
  match Querier s q unitsResourceName with
  | QueryError err => errorResponse errorInternal err
  | Rows units => successResponse units
  end.

(** [units]: [GET /units]. *)
Definition units (s : CEEMSServer) (clock : Clock) (r : Request) : Response Unit :=
  unitsQuerier s clock [dashboardUser r] r.

(** [unitsAdmin]: [GET /units/admin]. *)
Definition unitsAdmin (s : CEEMSServer) (clock : Clock) (r : Request) : Response Unit :=
  unitsQuerier s clock (values_of (query r) "user") r.

(** Modelled from the spec: [VerifyOwnership] is declared in a file that
    is not among the sources.  "Passes if, for every uuid, the user is
    the direct owner OR shares a project/account with the unit.  Checks
    are ALL-quantified: one failing uuid fails the entire request." *)
Definition VerifyOwnership (user : string) (uuids : list string) (d : OwnershipDB)
  : bool :=
  forallb (fun uuid => owns d user uuid || shares_project d user uuid) uuids.

(** [verifyUnitsOwnership]: [GET /units/verify]. *)
Definition verifyUnitsOwnership (s : CEEMSServer) (r : Request) : Response Ownership :=
  let dashboardUser := dashboardUser r in
  let uuids := values_of (query r) "uuid" in
  if VerifyOwnership dashboardUser uuids (db s) then
    successResponse [ {| own_User := dashboardUser; own_UUIDS := uuids;
                         own_Owner := true |} ]
  else errorResponse errorForbidden "user do not have permissions on uuids".

End API.

(** ** [pkg/api/http/server.go]: the usage handlers *)

Module Usage.
Import API.
Local Open Scope string_scope.

(** What the handlers read from the packages [base] and [db], which are
    not among the sources: the columns and the name of the usage table,
    and the text [%s] prints for [db.Weights[col]]. *)
Record Tables : Type := {
  UsageDBTableColNames : list string;
  UsageDBTableName : string;
  weight : string -> string
}.

(** The entry [init] writes in [aggUsageDBCols] for the column [col]. *)
Definition agg_col (b : Tables) (col : string) : string :=
  if String.prefix "avg" col then
    "SUM(" +:+ col +:+ " * " +:+ weight b col +:+ ") / SUM(" +:+ weight b col
      +:+ ") AS " +:+ col
  else if String.prefix "total" col then "SUM(" +:+ col +:+ ") AS " +:+ col
  else if String.prefix "num" col then "COUNT(id) AS num_units"
  else col.

(** [aggUsageDBCols] after [init]. *)
Definition aggUsageDBCols (b : Tables) : gmap string string :=
  fold_left (fun m col => <[col := agg_col b col]> m)
            (UsageDBTableColNames b) (<["id" := "id"]> ∅).

(** A usage query, as the sequence of the calls [q.query(s)],
    [q.param(values)] and [q.subQuery(qSub)] that built it. *)
Inductive UsagePart : Type :=
| UText (s : string)
| UParam (values : list string)
| USubQuery (q : Query).

Definition UQuery := list UsagePart.

(** What [s.Querier] returns for the usage resource; [U] is
    [models.Usage]. *)
Inductive UsageResult (U : Type) : Type :=
| UsageRows (rows : list U)
| UsageError (err : string).
Arguments UsageRows {U}.
Arguments UsageError {U}.

(** The server as the usage handlers read it; [errInvalidRequest] is
    the text of the error of that name. *)
Record UsageServer (U : Type) : Type := {
  server : CEEMSServer;
  tables : Tables;
  UsageQuerier : UQuery -> string -> UsageResult U;
  errInvalidRequest : string
}.
Arguments server {U}.
Arguments tables {U}.
Arguments UsageQuerier {U}.
Arguments errInvalidRequest {U}.

Definition usageResourceName : string := "usage".

(** [projectsSubQuery]. *)
Definition projectsSubQuery (b : Tables) (users : list string) : Query :=
  let qSub := q_query [] ("SELECT DISTINCT project FROM " +:+ UsageDBTableName b) in
  match users with
  | [] => qSub
  | _ :: _ => q_param (q_query qSub " WHERE usr IN ") users
  end.

(** What the handlers answer for the query [q]. *)
Definition usage_response {U : Type} (s : UsageServer U) (q : UQuery) : Response U :=
  match UsageQuerier s q usageResourceName with
  | UsageError err => errorResponse errorInternal err
  | UsageRows rows => successResponse rows
  end.

(** [currentUsage]. *)
Definition currentUsage {U : Type} (s : UsageServer U) (clock : Clock)
    (users fields : list string) (r : Request) : Response U :=
  let qSub := projectsSubQuery (tables s) users in
  let queriedFields :=
    map (fun field => default "" (aggUsageDBCols (tables s) !! field))
        (List.filter (fun field => negb (String.eqb field "last_updated_at")) fields) in
  let q : UQuery :=
    [ UText ("SELECT " +:+ String.concat "," queriedFields +:+ " FROM "
               +:+ UnitsDBTableName (server s));
      UText " WHERE project IN ";
      USubQuery qSub ] in
  let q :=
    match values_of (query r) "project" with
    | [] => q
    | projects => (q ++ [UText " AND project IN "; UParam projects])%list
    end in
  match getQueryWindow (server s) clock r with
  | inr err => errorResponse errorBadData err
  | inl (from, to) =>
      let q := (q ++ [UText " AND ended_at BETWEEN "; UParam [from];
                      UText " AND "; UParam [to]])%list in
      let q :=
        match values_of (query r) "groupby" with
        | [] => q
        | groupby => (q ++ [UText (" GROUP BY " +:+ String.concat "," groupby)])%list
        end in
      usage_response s q
  end.

(** [globalUsage]. *)
Definition globalUsage {U : Type} (s : UsageServer U)
    (users queriedFields : list string) (r : Request) : Response U :=
  let qSub := projectsSubQuery (tables s) users in
  let q : UQuery :=
    [ UText ("SELECT " +:+ String.concat "," queriedFields +:+ " FROM "
               +:+ UsageDBTableName (tables s));
      UText " WHERE project IN ";
      USubQuery qSub ] in
  let q :=
    match values_of (query r) "project" with
    | [] => q
    | projects => (q ++ [UText " AND project IN "; UParam projects])%list
    end in
  usage_response s q.

(** The body shared by [usage] and [usageAdmin], for the users
    [users]; [mode] is [mux.Vars(r)["mode"]], [None] when the variable
    is missing.  The result is [None] when nothing is written: a mode
    that is neither [current] nor [global]. *)
Definition usage_of {U : Type} (s : UsageServer U) (clock : Clock)
    (users : list string) (mode : option string) (r : Request) : option (Response U) :=
  match mode with
  | None => Some (errorResponse errorBadData (errInvalidRequest s))
  | Some mode =>
      let queriedFields :=
        getQueriedFields (query r) (UsageDBTableColNames (tables s)) in
      if String.eqb mode "current"
      then Some (currentUsage s clock users queriedFields r)
      else if String.eqb mode "global"
      then Some (globalUsage s users queriedFields r)
      else None
  end.

(** [usage]: [GET /usage/{mode}]. *)
Definition usage {U : Type} (s : UsageServer U) (clock : Clock)
    (mode : option string) (r : Request) : option (Response U) :=
  usage_of s clock [dashboardUser r] mode r.

(** [usageAdmin]: [GET /usage/{mode}/admin]. *)
Definition usageAdmin {U : Type} (s : UsageServer U) (clock : Clock)
    (mode : option string) (r : Request) : option (Response U) :=
  usage_of s clock (values_of (query r) "user") mode r.

End Usage.

(** ** [pkg/lb/backend]: the retention period of a TSDB backend *)

Module Backend.
Import Bytes.

(** A [time.Duration], in nanoseconds. *)
Definition Millisecond : Z := 1000000.
Definition Hour : Z := 3600 * 1000 * Millisecond.

(** Modelled from the spec: the backend ([New], [RetentionPeriod] and
    the refresh from the status endpoint) is not among the sources, only
    its tests are.  The spec: "each backend exposes a status endpoint
    yielding retention either as a duration (e.g. 30d) or a combined
    string (30d or 10GiB); only the duration component is used.  The
    cache keeps the last parsed value forever; a failed refresh never
    clears it."  A duration is taken to be decimal digits followed by one
    of the units ms, s, m, h, d, w, y. *)
Definition unit_duration (u : string) : option Z :=
  if String.eqb u "ms" then Some Millisecond
  else if String.eqb u "s" then Some (1000 * Millisecond)
  else if String.eqb u "m" then Some (60 * 1000 * Millisecond)
  else if String.eqb u "h" then Some Hour
  else if String.eqb u "d" then Some (24 * Hour)
  else if String.eqb u "w" then Some (7 * 24 * Hour)
  else if String.eqb u "y" then Some (365 * 24 * Hour)
  else None.

Definition ParseDuration (s : list ascii) : option Z :=
  let ds := take_while is_digit s in
  let u := drop_while is_digit s in
  match ds with
  | [] => None
  | _ :: _ =>
      match unit_duration (string_of u) with
      | Some d => Some (Float64.digits_value ds * d)
      | None => None
      end
  end.

(** The components of a retention string: its words other than [or]. *)
Definition components (s : list ascii) : list (list ascii) :=
  List.filter (fun w => negb (String.eqb (string_of w) "or") && negb (String.eqb (string_of w) ""))
              (split_on " "%char s).

(** The duration component of a retention string: the first component
    that is a duration. *)
Fixpoint first_duration (ws : list (list ascii)) : option Z :=
  match ws with
  | [] => None
  | w :: rest =>
      match ParseDuration w with
      | Some d => Some d
      | None => first_duration rest
      end
  end.

Definition parseRetention (storageRetention : string) : option Z :=
  first_duration (components (bytes_of storageRetention)).

(** What a request to the status endpoint gives: no answer (the backend
    is unreachable), an answer that is not the expected document, or the
    document's [storageRetention]. *)
Inductive StatusReply : Type :=
| Unreachable
| Malformed
| Retention (storageRetention : string).

(** [{url, alive, active_connections, retention_period}]. *)
Record backend : Type := {
  url : string;
  alive : bool;
  active_connections : Z;
  retention_period : Z
}.

Definition New (u : string) : backend :=
  {| url := u; alive := true; active_connections := 0; retention_period := 0 |}.

(** One refresh of the retention cache. *)
Definition refresh (b : backend) (reply : StatusReply) : backend :=
  match reply with
  | Retention s =>
      match parseRetention s with
      | Some d =>
          {| url := url b; alive := alive b;
             active_connections := active_connections b; retention_period := d |}
      | None => b
      end
  | _ => b
  end.

Definition RetentionPeriod (b : backend) : Z := retention_period b.

(** A reply that does not refresh the cache. *)
Definition unparsed (reply : StatusReply) : Prop :=
  match reply with
  | Retention s => parseRetention s = None
  | _ => True
  end.

End Backend.

(** ** [pkg/collector/perf.go]: the perf collector *)

Module Perf.
Import Float64 Prom Cgroups.

Definition perfCollectorSubsystem : string := "perf".

(** Security context names. *)
Definition perfProcFilterCtx : string := "perf_proc_filter".
Definition perfOpenProfilersCtx : string := "perf_open_profilers".
Definition perfCloseProfilersCtx : string := "perf_close_profilers".

(** *** Counter values and their scaling *)

(** [perf.ProfileValue] of the perf-utils library: the counter and the
    times it was enabled and running, each a [uint64]. *)
Record ProfileValue : Type := {
  Value : Z;
  TimeEnabled : Z;
  TimeRunning : Z
}.

(** The zero value, which reading a missing map entry gives. *)
Definition zeroProfileValue : ProfileValue :=
  {| Value := 0; TimeEnabled := 0; TimeRunning := 0 |}.

(** [uint64] arithmetic wraps around. *)
Definition uint64 (z : Z) : Z := z mod 2 ^ 64.

(** [scaleCounter]. *)
Definition scaleCounter (lastProfileValue currentProfileValue : ProfileValue) : float64 :=
  let deltaEnabled := uint64 (TimeEnabled currentProfileValue - TimeEnabled lastProfileValue) in
  let deltaRunning := uint64 (TimeRunning currentProfileValue - TimeRunning lastProfileValue) in
  let deltaCounter := uint64 (Value currentProfileValue - Value lastProfileValue) in
  if 0 <? deltaRunning then
    Round (fmul (fdiv (of_Z deltaEnabled) (of_Z deltaRunning)) (of_Z deltaCounter))
  else of_Z deltaCounter.

(** *** Profiles: what [Profile()] fills in for one process *)

Record HardwareProfile : Type := {
  CPUCycles : option ProfileValue;
  Instructions : option ProfileValue;
  BranchInstr : option ProfileValue;
  BranchMisses : option ProfileValue;
  CacheRefs : option ProfileValue;
  CacheMisses : option ProfileValue;
  RefCPUCycles : option ProfileValue
}.

Record SoftwareProfile : Type := {
  PageFaults : option ProfileValue;
  ContextSwitches : option ProfileValue;
  CPUMigrations : option ProfileValue;
  MinorPageFaults : option ProfileValue;
  MajorPageFaults : option ProfileValue
}.

Record CacheProfile : Type := {
  L1DataReadHit : option ProfileValue;
  L1DataReadMiss : option ProfileValue;
  L1DataWriteHit : option ProfileValue;
  L1InstrReadMiss : option ProfileValue;
  InstrTLBReadHit : option ProfileValue;
  InstrTLBReadMiss : option ProfileValue;
  LastLevelReadHit : option ProfileValue;
  LastLevelReadMiss : option ProfileValue;
  LastLevelWriteHit : option ProfileValue;
  LastLevelWriteMiss : option ProfileValue;
  BPUReadHit : option ProfileValue;
  BPUReadMiss : option ProfileValue
}.

(** The [if profile.X != nil] blocks of the three aggregation functions,
    in the order of the source: the metric name and the field read. *)
Definition hw_counters (p : HardwareProfile) : list (string * option ProfileValue) :=
  [ ("cpucycles_total", CPUCycles p);
    ("instructions_total", Instructions p);
    ("branch_instructions_total", BranchInstr p);
    ("branch_misses_total", BranchMisses p);
    ("cache_refs_total", CacheRefs p);
    ("cache_misses_total", CacheMisses p);
    ("ref_cpucycles_total", RefCPUCycles p) ].

Definition sw_counters (p : SoftwareProfile) : list (string * option ProfileValue) :=
  [ ("page_faults_total", PageFaults p);
    ("context_switches_total", ContextSwitches p);
    ("cpu_migrations_total", CPUMigrations p);
    ("minor_faults_total", MinorPageFaults p);
    ("major_faults_total", MajorPageFaults p) ].

Definition cache_counters (p : CacheProfile) : list (string * option ProfileValue) :=
  [ ("cache_l1d_read_hits_total", L1DataReadHit p);
    ("cache_l1d_read_misses_total", L1DataReadMiss p);
    ("cache_l1d_write_hits_total", L1DataWriteHit p);
    ("cache_l1_instr_read_misses_total", L1InstrReadMiss p);
    ("cache_tlb_instr_read_hits_total", InstrTLBReadHit p);
    ("cache_tlb_instr_read_misses_total", InstrTLBReadMiss p);
    ("cache_ll_read_hits_total", LastLevelReadHit p);
    ("cache_ll_read_misses_total", LastLevelReadMiss p);
    ("cache_ll_write_hits_total", LastLevelWriteHit p);
    ("cache_ll_write_misses_total", LastLevelWriteMiss p);
    ("cache_bpu_read_hits_total", BPUReadHit p);
    ("cache_bpu_read_misses_total", BPUReadMiss p) ].

(** *** The per-PID snapshot tables *)

Abbreviation RawTable := (gmap Z (gmap string ProfileValue)).
Abbreviation ScaledTable := (gmap Z (gmap string float64)).

(** [t[pid][metricName]]: the zero value when an entry is missing. *)
Definition raw_get (t : RawTable) (pid : Z) (metricName : string) : ProfileValue :=
  default zeroProfileValue (default ∅ (t !! pid) !! metricName).

Definition scaled_get (t : ScaledTable) (pid : Z) (metricName : string) : float64 :=
  default fzero (default ∅ (t !! pid) !! metricName).

(** [t[pid][metricName] = v].  (In Go the write needs the inner map
    [t[pid]] to exist; the update functions create it for every PID
    before they aggregate.) *)
Definition table_set {V : Type} (t : gmap Z (gmap string V)) (pid : Z)
    (metricName : string) (v : V) : gmap Z (gmap string V) :=
  <[pid := <[metricName := v]> (default ∅ (t !! pid))]> t.

(** [if t[pid] == nil { t[pid] = make(map...) }]. *)
Definition table_touch {V : Type} (t : gmap Z (gmap string V)) (pid : Z)
  : gmap Z (gmap string V) :=
  match t !! pid with
  | Some _ => t
  | None => <[pid := ∅]> t
  end.

(** [slices.Contains(activePIDs, pid)]. *)
Definition contains (activePIDs : list Z) (pid : Z) : bool :=
  existsb (Z.eqb pid) activePIDs.

(** The loop [for pid := range t { if !slices.Contains(activePIDs, pid)
    { delete(t, pid) } }]. *)
Definition evict {V : Type} (activePIDs : list Z) (t : gmap Z V) : gmap Z V :=
  filter (fun kv => contains activePIDs kv.1 = true) t.

(** One [if profile.X != nil] block of [aggHardwareCounters] and
    [aggCacheCounters]. *)
Definition agg_counter (pid : Z) (metricName : string) (profileValue : ProfileValue)
    (st : RawTable * ScaledTable * gmap string float64)
  : RawTable * ScaledTable * gmap string float64 :=
  let '(lastRaw, lastScaled, cgroupCounters) := st in
  let scaledCounter :=
    fadd (scaled_get lastScaled pid metricName)
         (scaleCounter (raw_get lastRaw pid metricName) profileValue) in
  (table_set lastRaw pid metricName profileValue,
   table_set lastScaled pid metricName scaledCounter,
   <[metricName := fadd (default fzero (cgroupCounters !! metricName)) scaledCounter]>
     cgroupCounters).

(** The body of the loop over the profiles, for one PID. *)
Definition agg_profile (pid : Z) (fields : list (string * option ProfileValue))
    (st : RawTable * ScaledTable * gmap string float64)
  : RawTable * ScaledTable * gmap string float64 :=
  fold_left (fun st '(metricName, field) =>
               match field with
               | Some profileValue => agg_counter pid metricName profileValue st
               | None => st
               end)
            fields st.

(** The loop [for pid, profile := range profiles] of
    [aggHardwareCounters] and [aggCacheCounters]. *)
Definition agg_profiles {P : Type} (counters : P -> list (string * option ProfileValue))
    (profiles : list (Z * P)) (st : RawTable * ScaledTable * gmap string float64)
  : RawTable * ScaledTable * gmap string float64 :=
  fold_left (fun st '(pid, profile) => agg_profile pid (counters profile) st) profiles st.

(** [aggHardwareCounters] and [aggCacheCounters] over the profiles in
    the order the map is ranged over: the tables after the call and the
    counters of the cgroup. *)
Definition agg_scaled {P : Type} (counters : P -> list (string * option ProfileValue))
    (profiles : list (Z * P)) (lastRaw : RawTable) (lastScaled : ScaledTable)
  : RawTable * ScaledTable * gmap string float64 :=
  agg_profiles counters profiles (lastRaw, lastScaled, ∅).

(** [aggSoftwareCounters]: the sum of the raw values. *)
Definition aggSoftwareCounters (swProfiles : list (Z * SoftwareProfile))
  : gmap string float64 :=
  fold_left
    (fun cgroupCounters '(_, swProfile) =>
       fold_left (fun acc '(metricName, field) =>
                    match field with
                    | Some profileValue =>
                        <[metricName := fadd (default fzero (acc !! metricName))
                                             (of_Z (Value profileValue))]> acc
                    | None => acc
                    end)
                 (sw_counters swProfile) cgroupCounters)
    swProfiles ∅.

(** *** The collector *)

Inductive Kind : Type := Hw | Sw | Cache.

Record perfOpts : Type := {
  perfHwProfilersEnabled : bool;
  perfSwProfilersEnabled : bool;
  perfCacheProfilersEnabled : bool;
  targetEnvVars : list string
}.

(** A profiler handle held in a table, [*perf.HardwareProfiler] and the
    like: the process it was opened for. *)
Record Profiler : Type := { profiled : Z }.

Record perfCollector : Type := {
  hostname : string;
  manager : string;                          (* c.cgroupManager.manager *)
  ignoreProc : option (string -> bool);      (* c.cgroupManager.ignoreProc *)
  opts : perfOpts;
  perfHwProfilers : gmap Z Profiler;
  perfSwProfilers : gmap Z Profiler;
  perfCacheProfilers : gmap Z Profiler;
  lastRawHwCounters : RawTable;
  lastRawCacheCounters : RawTable;
  lastScaledHwCounters : ScaledTable;
  lastScaledCacheCounters : ScaledTable
}.

(** The kernel's side: the processes for which perf_event descriptors
    of each kind are open. *)
Record Kernel : Type := {
  hw_events : gset Z;
  sw_events : gset Z;
  cache_events : gset Z
}.

(** What the world answers during one scrape: whether a security
    context runs its function ([securityCtx.Exec] returns no error),
    whether [perf.NewHardwareProfiler] and the like open perf_event
    descriptors for a PID (no error, or an error with
    [HasProfilers()]), whether [Start()] of the profiler they give
    returns no error, whether a profiler can be stopped and closed, and
    what [Profile()] reads ([None]: an error). *)
Record World : Type := {
  exec_ok : string -> bool;
  new_ok : Kind -> Z -> bool;
  start_ok : Kind -> Z -> bool;
  close_ok : Kind -> Z -> bool;
  read_hw : Z -> option HardwareProfile;
  read_sw : Z -> option SoftwareProfile;
  read_cache : Z -> option CacheProfile
}.

Definition enabled (c : perfCollector) (k : Kind) : bool :=
  match k with
  | Hw => perfHwProfilersEnabled (opts c)
  | Sw => perfSwProfilersEnabled (opts c)
  | Cache => perfCacheProfilersEnabled (opts c)
  end.

Definition profilers (c : perfCollector) (k : Kind) : gmap Z Profiler :=
  match k with
  | Hw => perfHwProfilers c
  | Sw => perfSwProfilers c
  | Cache => perfCacheProfilers c
  end.

Definition events (kn : Kernel) (k : Kind) : gset Z :=
  match k with
  | Hw => hw_events kn
  | Sw => sw_events kn
  | Cache => cache_events kn
  end.

Definition set_profilers (c : perfCollector) (k : Kind) (t : gmap Z Profiler)
  : perfCollector :=
  {| hostname := hostname c; manager := manager c; ignoreProc := ignoreProc c;
     opts := opts c;
     perfHwProfilers := match k with Hw => t | _ => perfHwProfilers c end;
     perfSwProfilers := match k with Sw => t | _ => perfSwProfilers c end;
     perfCacheProfilers := match k with Cache => t | _ => perfCacheProfilers c end;
     lastRawHwCounters := lastRawHwCounters c;
     lastRawCacheCounters := lastRawCacheCounters c;
     lastScaledHwCounters := lastScaledHwCounters c;
     lastScaledCacheCounters := lastScaledCacheCounters c |}.

Definition set_events (kn : Kernel) (k : Kind) (e : gset Z) : Kernel :=
  {| hw_events := match k with Hw => e | _ => hw_events kn end;
     sw_events := match k with Sw => e | _ => sw_events kn end;
     cache_events := match k with Cache => e | _ => cache_events kn end |}.

Definition set_hw_counters (c : perfCollector) (raw : RawTable) (scaled : ScaledTable)
  : perfCollector :=
  {| hostname := hostname c; manager := manager c; ignoreProc := ignoreProc c;
     opts := opts c;
     perfHwProfilers := perfHwProfilers c;
     perfSwProfilers := perfSwProfilers c;
     perfCacheProfilers := perfCacheProfilers c;
     lastRawHwCounters := raw;
     lastRawCacheCounters := lastRawCacheCounters c;
     lastScaledHwCounters := scaled;
     lastScaledCacheCounters := lastScaledCacheCounters c |}.

Definition set_cache_counters (c : perfCollector) (raw : RawTable) (scaled : ScaledTable)
  : perfCollector :=
  {| hostname := hostname c; manager := manager c; ignoreProc := ignoreProc c;
     opts := opts c;
     perfHwProfilers := perfHwProfilers c;
     perfSwProfilers := perfSwProfilers c;
     perfCacheProfilers := perfCacheProfilers c;
     lastRawHwCounters := lastRawHwCounters c;
     lastRawCacheCounters := raw;
     lastScaledHwCounters := lastScaledHwCounters c;
     lastScaledCacheCounters := scaled |}.

(** [c.desc[counter]]. *)
Definition desc (counter : string) : string :=
  BuildFQName Namespace perfCollectorSubsystem counter.

(** The keys of [collector.desc], in the order [NewPerfCollector]
    writes them: the counters that have a descriptor. *)
Definition desc_names : list string :=
  [ "cpucycles_total"; "instructions_total"; "branch_instructions_total";
    "branch_misses_total"; "cache_refs_total"; "cache_misses_total";
    "ref_cpucycles_total";
    "page_faults_total"; "context_switches_total"; "cpu_migrations_total";
    "minor_faults_total"; "major_faults_total";
    "cache_l1d_read_hits_total"; "cache_l1d_read_misses_total";
    "cache_l1d_write_hits_total"; "cache_l1_instr_read_misses_total";
    "cache_tlb_instr_read_hits_total"; "cache_tlb_instr_read_misses_total";
    "cache_ll_read_hits_total"; "cache_ll_read_misses_total";
    "cache_ll_write_hits_total"; "cache_ll_write_misses_total";
    "cache_bpu_read_hits_total"; "cache_bpu_read_misses_total" ]%string.

(** The loop that sends the counters of one cgroup on [ch]: only values
    above zero are sent. *)
Definition emit (c : perfCollector) (cgroupID : string) (cgroupCounters : gmap string float64)
  : list Metric :=
  omap (fun '(counter, v) =>
          if fgt v fzero then
            Some {| fqName := desc counter; value := v;
                    labelValues := [manager c; hostname c; cgroupID] |}
          else None)
       (map_to_list cgroupCounters).

(** *** Opening and closing profilers *)

(** [newHwProfiler], [newSwProfiler] and [newCacheProfiler]: the
    profiler returned ([None]: an error) and the kernel's side after the
    call.  When [Start()] fails the error is returned and the profiler
    is not closed: its descriptors stay open. *)
Definition newProfiler (w : World) (k : Kind) (pid : Z) (kn : Kernel)
  : option Profiler * Kernel :=
  if new_ok w k pid then
    let kn := set_events kn k ({[pid]} ∪ events kn k) in
    if start_ok w k pid then (Some {| profiled := pid |}, kn)
    else (None, kn)
  else (None, kn).

(** Whether [newHwProfiler] and the like return a profiler for a PID. *)
Definition open_ok (w : World) (k : Kind) (pid : Z) : bool :=
  new_ok w k pid && start_ok w k pid.

(** The [if d.perf<Kind>ProfilersEnabled] block of [openProfilers] for
    one PID. *)
Definition open_one (w : World) (k : Kind) (pid : Z) (st : perfCollector * Kernel)
  : perfCollector * Kernel :=
  let '(c, kn) := st in
  if enabled c k then
    match profilers c k !! pid with
    | Some _ => st
    | None =>
        match newProfiler w k pid kn with
        | (Some profiler, kn) =>
            (set_profilers c k (<[pid := profiler]> (profilers c k)), kn)
        | (None, kn) => (c, kn)
        end
    end
  else st.

(** [openProfilers]: the state after the call and [d.activePIDs]. *)
Definition openProfilers (w : World) (cgroups : list cgroup) (st : perfCollector * Kernel)
  : perfCollector * Kernel * list Z :=
  fold_left
    (fun '(st, activePIDs) proc =>
       let pid := PID proc in
       (open_one w Cache pid (open_one w Sw pid (open_one w Hw pid st)),
        activePIDs ++ [pid]))
    (flat_map procs cgroups) (st, []).

(** [newProfilers]: [nil] when the security context returns an error. *)
Definition newProfilers (w : World) (cgroups : list cgroup) (st : perfCollector * Kernel)
  : perfCollector * Kernel * list Z :=
  if exec_ok w perfOpenProfilersCtx then openProfilers w cgroups st
  else (st, []).

(** The [if d.perf<Kind>ProfilersEnabled] block of [closeProfilers]: a
    profiler of a PID that is not active is stopped and closed, and its
    slot deleted when that succeeded. *)
Definition close_kind (w : World) (k : Kind) (activePIDs : list Z)
    (st : perfCollector * Kernel) : perfCollector * Kernel :=
  let '(c, kn) := st in
  if enabled c k then
    let gone (pid : Z) : Prop := contains activePIDs pid = false ∧ close_ok w k pid = true in
    (set_profilers c k (filter (fun kv => ¬ gone kv.1) (profilers c k)),
     set_events kn k (events kn k ∖ filter gone (dom (profilers c k))))
  else st.

(** The package-level [closeProfilers], run in the security context. *)
Definition closeProfilers_ctx (w : World) (activePIDs : list Z)
    (st : perfCollector * Kernel) : perfCollector * Kernel :=
  close_kind w Cache activePIDs (close_kind w Sw activePIDs (close_kind w Hw activePIDs st)).

(** The method [closeProfilers]; an error of the context is only logged
    by [Update]. *)
Definition closeProfilers (w : World) (activePIDs : list Z)
    (st : perfCollector * Kernel) : perfCollector * Kernel :=
  if exec_ok w perfCloseProfilersCtx then closeProfilers_ctx w activePIDs st
  else st.

(** *** Reading the counters of one cgroup *)

(** The profiles read in the loop over [procs]: a PID with a profiler
    whose [Profile()] succeeds. *)
Definition read_profiles {P : Type} (table : gmap Z Profiler) (read : Z -> option P)
    (procs : list Proc) : gmap Z P :=
  fold_left (fun profiles proc =>
               match table !! PID proc with
               | Some _ =>
                   match read (PID proc) with
                   | Some profile => <[PID proc := profile]> profiles
                   | None => profiles
                   end
               | None => profiles
               end)
            procs ∅.

Definition touch_all {V : Type} (procs : list Proc) (t : gmap Z (gmap string V))
  : gmap Z (gmap string V) :=
  fold_left (fun t proc => table_touch t (PID proc)) procs t.

(** [updateHardwareCounters]: the collector after the call and the
    samples sent.  The profiles are aggregated in the order
    [map_to_list] gives (Go ranges over a map in no fixed order). *)
Definition updateHardwareCounters (w : World) (c : perfCollector) (cgroupID : string)
    (procs : list Proc) : perfCollector * list Metric :=
  if negb (perfHwProfilersEnabled (opts c)) then (c, [])
  else
    let activePIDs := map PID procs in
    let lastRaw := touch_all procs (lastRawHwCounters c) in
    let lastScaled := touch_all procs (lastScaledHwCounters c) in
    let hwProfiles := read_profiles (perfHwProfilers c) (read_hw w) procs in
    let '(lastRaw, lastScaled, cgroupHwPerfCounters) :=
      agg_scaled hw_counters (map_to_list hwProfiles) lastRaw lastScaled in
    let c' := set_hw_counters c (evict activePIDs lastRaw) (evict activePIDs lastScaled) in
    (c', emit c cgroupID cgroupHwPerfCounters).

(** [updateSoftwareCounters]. *)
Definition updateSoftwareCounters (w : World) (c : perfCollector) (cgroupID : string)
    (procs : list Proc) : perfCollector * list Metric :=
  if negb (perfSwProfilersEnabled (opts c)) then (c, [])
  else
    let swProfiles := read_profiles (perfSwProfilers c) (read_sw w) procs in
    (c, emit c cgroupID (aggSoftwareCounters (map_to_list swProfiles))).

(** [updateCacheCounters]: here the tables are pruned before the
    aggregation. *)
Definition updateCacheCounters (w : World) (c : perfCollector) (cgroupID : string)
    (procs : list Proc) : perfCollector * list Metric :=
  if negb (perfCacheProfilersEnabled (opts c)) then (c, [])
  else
    let activePIDs := map PID procs in
    let lastRaw := touch_all procs (lastRawCacheCounters c) in
    let lastScaled := touch_all procs (lastScaledCacheCounters c) in
    let cacheProfiles := read_profiles (perfCacheProfilers c) (read_cache w) procs in
    let lastRaw := evict activePIDs lastRaw in
    let lastScaled := evict activePIDs lastScaled in
    let '(lastRaw, lastScaled, cgroupCachePerfCounters) :=
      agg_scaled cache_counters (map_to_list cacheProfiles) lastRaw lastScaled in
    (set_cache_counters c lastRaw lastScaled, emit c cgroupID cgroupCachePerfCounters).

(** The body of the goroutine [Update] starts for one cgroup. *)
Definition update_cgroup (w : World) (c : perfCollector) (cg : cgroup)
  : perfCollector * list Metric :=
  let '(c, m1) := updateHardwareCounters w c (uuid cg) (procs cg) in
  let '(c, m2) := updateSoftwareCounters w c (uuid cg) (procs cg) in
  let '(c, m3) := updateCacheCounters w c (uuid cg) (procs cg) in
  (c, m1 ++ m2 ++ m3).

(** [filterProcs]: [None] when the security context returns an error. *)
Definition filterProcs (w : World) (c : perfCollector) (cgroups : list cgroup)
  : option (list cgroup) :=
  if exec_ok w perfProcFilterCtx
  then Some (cgroupProcFilterer cgroups (targetEnvVars (opts c)) (ignoreProc c))
  else None.

(** The cgroups [Update] goes on with: all of them, or the filtered ones
    when target env vars are configured. *)
Definition discover (w : World) (c : perfCollector) (cgroups : list cgroup)
  : option (list cgroup) :=
  match targetEnvVars (opts c) with
  | [] => Some cgroups
  | _ :: _ => filterProcs w c cgroups
  end.

(** The PIDs of the processes of [cgroups], in order. *)
Definition pids_of (cgroups : list cgroup) : list Z :=
  map PID (flat_map procs cgroups).

(** The loop of [Update] over the cgroups. *)
Definition update_cgroups (w : World) (c : perfCollector) (cgroups : list cgroup)
  : perfCollector * list Metric :=
  fold_left (fun '(c, ch) cg =>
               let '(c, ms) := update_cgroup w c cg in (c, ch ++ ms))
            cgroups (c, []).

(** [Update]: one scrape.  The goroutines of the cgroups share the
    tables without a lock; they are run here one after the other, in
    the order of [cgroups].  [None] is the error return "failed to
    discover processes". *)
Definition Update (w : World) (st : perfCollector * Kernel) (cgroups : list cgroup)
  : option (perfCollector * Kernel * list Metric) :=
  match discover w st.1 cgroups with
  | None => None
  | Some cgroups =>
      let '(st, activePIDs) := newProfilers w cgroups st in
      let '(c, kn) := closeProfilers w activePIDs st in
      let '(c, ch) := update_cgroups w c cgroups in
      Some (c, kn, ch)
  end.

(** [Stop]: closes the profilers of all PIDs; an error of the context
    is only logged. *)
Definition Stop (w : World) (st : perfCollector * Kernel) : perfCollector * Kernel :=
  closeProfilers w [] st.

(** *** Notions the properties of the running sums are stated with *)

(** Every running sum a table holds is a [good] float. *)
Definition table_good (t : ScaledTable) : bool :=
  forallb (fun '(_, counters) => forallb (fun '(_, v) => good v) (map_to_list counters))
          (map_to_list t).

Definition tables_good (c : perfCollector) : bool :=
  table_good (lastScaledHwCounters c) && table_good (lastScaledCacheCounters c).

End Perf.

(** ** Inputs of the repository's tests and of the spec's scenarios *)

Module Fixtures.
Import Cgroups API.
Local Open Scope string_scope.

(** Processes of a SLURM job: an application with the target variable
    in its environment, and a process whose command line is empty. *)
Definition app_proc : Proc :=
  {| PID := 42; CmdLine := Some ["/usr/bin/app"]; Environ := Some ["FOO=1"; "HOME=/root"] |}.

Definition bare_proc : Proc :=
  {| PID := 43; CmdLine := Some []; Environ := Some ["FOO=1"] |}.

Definition job_cgroup (ps : list Proc) : cgroup :=
  {| id := "1481508"; path := "/slurm/uid_1000/job_1481508"; uuid := "1481508";
     procs := ps |}.

(** [mockServerUnits] and the server of [setupServer], whose querier
    returns them for every query; [maxQueryPeriod] is 168 hours. *)
Definition mockServerUnits : list Unit :=
  [ {| UUID := "1000"; ClusterID := "slurm-0"; ResourceManager := "slurm"; User := "foousr" |};
    {| UUID := "10001"; ClusterID := "os-0"; ResourceManager := "openstack"; User := "barusr" |} ].

(** An ownership oracle: [foousr] owns unit 1000 and shares the project
    of unit 1001. *)
Definition test_db : OwnershipDB :=
  {| owns := fun user uuid => String.eqb user "foousr" && String.eqb uuid "1000";
     shares_project := fun user uuid => String.eqb user "foousr" && String.eqb uuid "1001" |}.

Definition test_server : CEEMSServer :=
  {| maxQueryPeriod := 168 * Hour;
     Querier := fun _ _ => Rows mockServerUnits;
     db := test_db;
     UnitsDBTableColNames := ["uuid"; "usr"; "project"];
     UnitsDBTableName := "units";
     format_time := fun _ => "" |}.

Definition test_clock : Clock := {| now_from := 0; now_to := 0 |}.

(** The request of [TestUnitsHandlerWithQueryWindowExceeded]. *)
Definition window_request : Request :=
  {| loggedUser := "foo"; dashboardUser := "";
     query := <["from" := ["1672527600"]]> (<["to" := ["1685570400"]]> ∅) |}.

(** Requests to [/units/verify]. *)
Definition verify_request (user : string) (uuids : list string) : Request :=
  {| loggedUser := user; dashboardUser := user; query := <["uuid" := uuids]> ∅ |}.

(** The output of the DCMI tool given in [ipmi.go], and an output that
    reports no power measurement. *)
Definition dcmi_active : list ascii := Bytes.bytes_of
"Current Power                        : 164 Watts
Minimum Power over sampling duration : 48 watts
Maximum Power over sampling duration : 361 watts
Average Power over sampling duration : 157 watts
Time Stamp                           : 12/29/2023 - 08:58:00
Statistics reporting time period     : 1473439000 milliseconds
Power Measurement                    : Active".

Definition dcmi_not_available : list ascii := Bytes.bytes_of
"Current Power                        : 0 Watts
Power Measurement                    : Not Available".

Definition ipmi_fresh : IPMI.impiCollector :=
  {| IPMI.hostname := "node1"; IPMI.execMode := "native"; IPMI.cachedMetric := ∅ |}.

(** The collector after one successful scrape. *)
Definition ipmi_warm : IPMI.impiCollector := (IPMI.Update ipmi_fresh (Some dcmi_active)).1.

(** The perf collector with hardware profilers enabled and no tables
    yet, and the kernel with no descriptor open. *)
Definition perf_new : Perf.perfCollector :=
  {| Perf.hostname := "node1"; Perf.manager := "slurm"; Perf.ignoreProc := None;
     Perf.opts := {| Perf.perfHwProfilersEnabled := true;
                     Perf.perfSwProfilersEnabled := false;
                     Perf.perfCacheProfilersEnabled := false;
                     Perf.targetEnvVars := [] |};
     Perf.perfHwProfilers := ∅; Perf.perfSwProfilers := ∅; Perf.perfCacheProfilers := ∅;
     Perf.lastRawHwCounters := ∅; Perf.lastRawCacheCounters := ∅;
     Perf.lastScaledHwCounters := ∅; Perf.lastScaledCacheCounters := ∅ |}.

Definition kernel_new : Perf.Kernel :=
  {| Perf.hw_events := ∅; Perf.sw_events := ∅; Perf.cache_events := ∅ |}.

Definition proc_of (pid : Z) : Proc := {| PID := pid; CmdLine := None; Environ := None |}.

Definition unit_cgroup (u : string) (pids : list Z) : cgroup :=
  {| id := u; path := "/slurm/uid_1000/job_" +:+ u; uuid := u; procs := map proc_of pids |}.

(** A reading of the CPU cycles counter only. *)
Definition cycles (v enabled running : Z) : Perf.HardwareProfile :=
  {| Perf.CPUCycles := Some {| Perf.Value := v; Perf.TimeEnabled := enabled;
                               Perf.TimeRunning := running |};
     Perf.Instructions := None; Perf.BranchInstr := None; Perf.BranchMisses := None;
     Perf.CacheRefs := None; Perf.CacheMisses := None; Perf.RefCPUCycles := None |}.

(** A world where every privileged call succeeds and every process
    reads [profile]; [closes] tells whether profilers can be closed. *)
Definition world_reading (closes : bool) (profile : Perf.HardwareProfile) : Perf.World :=
  {| Perf.exec_ok := fun _ => true;
     Perf.new_ok := fun _ _ => true;
     Perf.start_ok := fun _ _ => true;
     Perf.close_ok := fun _ _ => closes;
     Perf.read_hw := fun _ => Some profile;
     Perf.read_sw := fun _ => None;
     Perf.read_cache := fun _ => None |}.

(** The same world, but the profilers opened for [pid] do not start. *)
Definition world_not_starting (pid : Z) (profile : Perf.HardwareProfile) : Perf.World :=
  {| Perf.exec_ok := fun _ => true;
     Perf.new_ok := fun _ _ => true;
     Perf.start_ok := fun _ p => negb (Z.eqb p pid);
     Perf.close_ok := fun _ _ => true;
     Perf.read_hw := fun _ => Some profile;
     Perf.read_sw := fun _ => None;
     Perf.read_cache := fun _ => None |}.

(** The state after a first scrape that saw the PIDs 100 and 101 of job
    1481508: the tables hold the slots of 100 and 101. *)
Definition perf_after_first : option (Perf.perfCollector * Perf.Kernel * list Prom.Metric) :=
  Perf.Update (world_reading true (cycles 100 10 10)) (perf_new, kernel_new)
              [unit_cgroup "1481508" [100; 101]].

Definition perf_tables_100_101 : Perf.perfCollector * Perf.Kernel :=
  match perf_after_first with
  | Some (c, kn, _) => (c, kn)
  | None => (perf_new, kernel_new)
  end.

(** What a scrape sent on the channel: name, labels and value of each
    sample, in order. *)
Definition samples_sent (r : option (Perf.perfCollector * Perf.Kernel * list Prom.Metric))
  : list (string * list string * Float64.float64) :=
  match r with
  | Some (_, _, ch) => map (fun m => (Prom.fqName m, Prom.labelValues m, Prom.value m)) ch
  | None => []
  end.

(** The scrape after [perf_after_first] when process 100 has left the
    job and process 101 has counted 150 cycles. *)
Definition perf_after_exit : option (Perf.perfCollector * Perf.Kernel * list Prom.Metric) :=
  Perf.Update (world_reading true (cycles 150 20 20)) perf_tables_100_101
              [unit_cgroup "1481508" [101]].

(** Two scrapes of the same cgroups: at the first every process has
    counted 100 cycles while its counter ran 1 ns of the 10 ns it was
    enabled, at the second 101 cycles with 11 ns of 20 ns. *)
Definition scrape_first (cgroups : list cgroup)
  : option (Perf.perfCollector * Perf.Kernel * list Prom.Metric) :=
  Perf.Update (world_reading true (cycles 100 10 1)) (perf_new, kernel_new) cgroups.

Definition scrape_second (cgroups : list cgroup)
  : option (Perf.perfCollector * Perf.Kernel * list Prom.Metric) :=
  match scrape_first cgroups with
  | Some (c, kn, _) => Perf.Update (world_reading true (cycles 101 20 11)) (c, kn) cgroups
  | None => None
  end.

(** One job of one process, and the same job next to a second one. *)
Definition one_unit : list cgroup := [unit_cgroup "1481508" [100]].
Definition two_units : list cgroup := [unit_cgroup "1481508" [100]; unit_cgroup "1481509" [200]].

End Fixtures.

(* ===================================================================== *)
(** * Part II: properties                                                 *)
(* ===================================================================== *)

(** ** Bytes and patterns *)

Section BytesFacts.
Import Bytes.

Lemma take_drop_while (c : ascii -> bool) (s : list ascii) :
  take_while c s ++ drop_while c s = s.
Proof.
  induction s as [|x s IH]; simpl; [reflexivity|].
  destruct (c x); simpl; [now rewrite IH | reflexivity].
Qed.

Lemma take_while_all (c : ascii -> bool) (s : list ascii) :
  forallb c (take_while c s) = true.
Proof.
  induction s as [|x s IH]; simpl; [reflexivity|].
  destruct (c x) eqn:E; simpl; [now rewrite E | reflexivity].
Qed.

Lemma drop_while_app_all (c : ascii -> bool) (l s : list ascii) :
  forallb c l = true -> drop_while c (l ++ s) = drop_while c s.
Proof.
  induction l as [|x l IH]; simpl; [reflexivity|].
  intros H. apply andb_true_iff in H as [Hx Hl]. now rewrite Hx, IH.
Qed.

Lemma take_while_app_all (c : ascii -> bool) (l s : list ascii) :
  forallb c l = true -> take_while c (l ++ s) = l ++ take_while c s.
Proof.
  induction l as [|x l IH]; simpl; [reflexivity|].
  intros H. apply andb_true_iff in H as [Hx Hl]. now rewrite Hx, IH.
Qed.

Lemma drop_while_stop (c : ascii -> bool) (s : list ascii) :
  match s with x :: _ => c x = false | [] => True end ->
  drop_while c s = s.
Proof. destruct s as [|x s]; simpl; [reflexivity|]. now intros ->. Qed.

Lemma drop_while_head (c : ascii -> bool) (s : list ascii) :
  match drop_while c s with x :: _ => c x = false | [] => True end.
Proof.
  induction s as [|x s IH]; simpl; [exact I|].
  destruct (c x) eqn:E; [exact IH | exact E].
Qed.

Lemma drop_while_length (c : ascii -> bool) (s : list ascii) :
  (length (drop_while c s) <= length s)%nat.
Proof.
  induction s as [|x s IH]; simpl; [lia|]. destruct (c x); simpl; lia.
Qed.

End BytesFacts.

Section RegexpFacts.
Import Bytes Regexp.

(** The greedy star tries the longest run first; every other candidate
    still begins with a byte of the class. *)
Lemma star_rests_shape (c : ascii -> bool) (s : list ascii) :
  exists others,
    star_rests c s = drop_while c s :: others /\
    Forall (fun r => match r with x :: _ => c x = true | [] => False end) others.
Proof.
  induction s as [|x s (others & Heq & Hall)]; simpl.
  - exists []. split; [reflexivity | constructor].
  - destruct (c x) eqn:E.
    + exists (others ++ [x :: s]). split.
      * now rewrite Heq.
      * apply Forall_app. split; [exact Hall|]. constructor; [exact E | constructor].
    + exists []. split; [reflexivity | constructor].
Qed.

Lemma head_flat_map_cons {A B} (f : A -> list B) (a : A) (l : list A) :
  head (flat_map f (a :: l)) =
  match head (f a) with Some b => Some b | None => head (flat_map f l) end.
Proof. simpl. destruct (f a); reflexivity. Qed.

Lemma flat_map_all_nil {A B} (f : A -> list B) (l : list A) :
  Forall (fun a => f a = []) l -> flat_map f l = [].
Proof. induction 1 as [|a l Ha _ IH]; simpl; [reflexivity | now rewrite Ha, IH]. Qed.

(** Skipping [k] bytes of a match is dropping them. *)
Lemma replace_from_skip (r : re) (repl : list ascii) (k : nat) (s : list ascii) :
  replace_from r repl k s = replace_from r repl 0 (drop k s).
Proof.
  revert k. induction s as [|c s IH]; intros k.
  - now destruct k.
  - destruct k as [|k]; [reflexivity|]. simpl. apply IH.
Qed.

End RegexpFacts.

(** ** Metric names *)

Section SanitizeFacts.
Import Bytes Regexp Helpers.

Lemma underscore_is_word : is_word underscore = true.
Proof. reflexivity. Qed.

Lemma is_underscore_eq (c : ascii) : is_underscore c = true -> c = underscore.
Proof. unfold is_underscore, is_char. intros H. apply Ascii.eqb_eq in H. now subst. Qed.

Lemma underscore_not_other (c : ascii) : is_underscore c = true -> is_other c = false.
Proof. intros H. apply is_underscore_eq in H. now subst. Qed.

Lemma other_not_underscore (c : ascii) : is_other c = true -> is_underscore c = false.
Proof.
  intros H. destruct (is_underscore c) eqn:E; [|reflexivity].
  apply underscore_not_other in E. congruence.
Qed.

(** The preferred match of the pattern at the start of [s]: it exists
    when underscores are followed by a byte outside the class, and then
    takes the underscores, the longest run outside the class and the
    underscores after it. *)
Lemma run_Seq (r1 r2 : re) (s : list ascii) :
  run (Seq r1 r2) s =
  flat_map (fun '(g1, s1) => map (fun '(g2, s2) => (first_some g2 g1, s2)) (run r2 s1))
           (run r1 s).
Proof. reflexivity. Qed.

(** The tail of the pattern, [[^0-9A-Za-z_]+_*], at the start of [s]. *)
Lemma run_other_underscores (s : list ascii) :
  let tail_re := Seq (Plus is_other) (Star is_underscore) in
  (starts_with is_other s = false -> run tail_re s = []) /\
  (starts_with is_other s = true ->
   head (run tail_re s) =
   Some (None, drop_while is_underscore (drop_while is_other s))).
Proof.
  cbn zeta. rewrite run_Seq. split.
  - destruct s as [|x s]; cbn; [reflexivity|]. now intros ->.
  - destruct s as [|x s]; cbn [starts_with]; [discriminate|]. intros Hx.
    cbn [run drop_while]. rewrite Hx.
    destruct (star_rests_shape is_other s) as (o1 & -> & _).
    rewrite map_cons, head_flat_map_cons. cbn [run].
    destruct (star_rests_shape is_underscore (drop_while is_other s)) as (o2 & -> & _).
    reflexivity.
Qed.

Lemma match_here_metricNameRegex (s : list ascii) :
  match_here metricNameRegex s =
  if block_at s
  then Some (None,
             drop_while is_underscore (drop_while is_other (drop_while is_underscore s)))
  else None.
Proof.
  unfold match_here, metricNameRegex, block_at.
  change (fun c => negb (is_word c)) with is_other.
  change (is_char underscore) with is_underscore.
  rewrite run_Seq.
  set (tail_re := Seq (Plus is_other) (Star is_underscore)).
  change (run (Star is_underscore) s)
    with (map (fun s' => (@None (list ascii), s')) (star_rests is_underscore s)).
  destruct (star_rests_shape is_underscore s) as (others & -> & Hothers).
  rewrite map_cons, head_flat_map_cons.
  rewrite (flat_map_all_nil _ (map _ others)).
  2:{ rewrite Forall_map. eapply Forall_impl; [exact Hothers|].
      intros [|x r] Hx; [contradiction|]. cbn beta iota. unfold tail_re.
      rewrite (proj1 (run_other_underscores (x :: r))); [reflexivity|].
      cbn. now apply underscore_not_other. }
  destruct (run_other_underscores (drop_while is_underscore s)) as [Hno Hyes].
  fold tail_re in Hno, Hyes.
  destruct (starts_with is_other (drop_while is_underscore s)) eqn:E.
  - specialize (Hyes eq_refl).
    destruct (run tail_re (drop_while is_underscore s)) as [|[g r] l]; [discriminate|].
    cbn in Hyes. injection Hyes as -> ->. reflexivity.
  - now rewrite (Hno eq_refl).
Qed.

(** The scan, one step at a time. *)
Lemma sanitize_nil : sanitize [] = [].
Proof. reflexivity. Qed.

Lemma sanitize_keep (c : ascii) (s : list ascii) :
  block_at (c :: s) = false -> sanitize (c :: s) = c :: sanitize s.
Proof.
  intros H. unfold sanitize, ReplaceAll. cbn [replace_from].
  now rewrite match_here_metricNameRegex, H.
Qed.

Lemma sanitize_match (s : list ascii) :
  block_at s = true ->
  sanitize s =
  underscore ::
  sanitize (drop_while is_underscore (drop_while is_other (drop_while is_underscore s))).
Proof.
  intros H. unfold sanitize, ReplaceAll.
  remember (drop_while is_underscore (drop_while is_other (drop_while is_underscore s)))
    as rest eqn:Hrest.
  assert (Hs : exists c pre, s = c :: pre ++ rest).
  { remember (take_while is_underscore s
              ++ take_while is_other (drop_while is_underscore s)
              ++ take_while is_underscore (drop_while is_other (drop_while is_underscore s)))
      as pre0 eqn:Hpre0.
    assert (Hsplit : s = pre0 ++ rest).
    { subst pre0 rest. rewrite <- !app_assoc, !take_drop_while. reflexivity. }
    destruct pre0 as [|c pre].
    - exfalso. unfold block_at in H.
      destruct (drop_while is_underscore s) as [|x s1]; [discriminate|].
      cbn in H. cbn [take_while] in Hpre0. rewrite H in Hpre0.
      symmetry in Hpre0. apply app_eq_nil in Hpre0 as [_ Hnil]. discriminate.
    - exists c, pre. exact Hsplit. }
  destruct Hs as (c & pre & Hs).
  rewrite Hs at 1. cbn [replace_from]. rewrite <- Hs.
  rewrite match_here_metricNameRegex, H, <- Hrest.
  replace (length s - length rest)%nat with (S (length pre))
    by (rewrite Hs; cbn [length]; rewrite length_app; lia).
  rewrite replace_from_skip, drop_app_length. reflexivity.
Qed.

Lemma take_while_nil_drop (c : ascii -> bool) (s : list ascii) :
  take_while c s = [] -> drop_while c s = s.
Proof. intros H. rewrite <- (take_drop_while c s) at 2. now rewrite H. Qed.

Lemma starts_with_drop_while (c : ascii -> bool) (s : list ascii) :
  starts_with c (drop_while c s) = false.
Proof. pose proof (drop_while_head c s) as H. now destruct (drop_while c s). Qed.

(** The scan realises the relation ... *)
Lemma sanitize_sanitized (s : list ascii) : sanitized s (sanitize s).
Proof.
  remember (length s) as n eqn:Hn. revert s Hn.
  induction n as [n IH] using lt_wf_ind. intros s Hn.
  destruct (block_at s) eqn:Hb.
  - rewrite (sanitize_match s Hb).
    set (X1 := drop_while is_underscore s) in *.
    set (X2 := drop_while is_other X1) in *.
    set (X3 := drop_while is_underscore X2) in *.
    assert (Hs : s = take_while is_underscore s ++ take_while is_other X1
                     ++ take_while is_underscore X2 ++ X3).
    { unfold X3, X2, X1. now rewrite !take_drop_while. }
    assert (Hother : take_while is_other X1 <> []).
    { unfold block_at in Hb. fold X1 in Hb. destruct X1 as [|x X1']; [discriminate|].
      cbn in Hb. cbn. now rewrite Hb. }
    rewrite Hs at 1. apply sanitized_block.
    + apply take_while_all.
    + exact Hother.
    + apply take_while_all.
    + apply take_while_all.
    + apply starts_with_drop_while.
    + intros Hnil. unfold X3. rewrite (take_while_nil_drop _ _ Hnil).
      apply starts_with_drop_while.
    + apply (IH (length X3)); [|reflexivity].
      subst n. rewrite Hs at 1. rewrite !length_app.
      destruct (take_while is_other X1); [congruence | cbn [length]; lia].
  - destruct s as [|c s]; [apply sanitized_nil|].
    rewrite (sanitize_keep c s Hb). apply sanitized_keep; [exact Hb|].
    apply (IH (length s)); [subst n; cbn; lia | reflexivity].
Qed.

(** ... and the relation determines the result. *)
Lemma sanitized_sanitize (s t : list ascii) : sanitized s t -> t = sanitize s.
Proof.
  induction 1 as [|c s t Hb _ IH|us other us' s t Hus Hne Hother Hus' Hs1 Hs2 _ IH].
  - reflexivity.
  - now rewrite (sanitize_keep c s Hb), IH.
  - assert (Hhead : drop_while is_underscore (other ++ us' ++ s) = other ++ us' ++ s).
    { apply drop_while_stop. destruct other as [|x other]; [congruence|].
      cbn in Hother |- *. apply andb_true_iff in Hother as [Hx _].
      now apply other_not_underscore. }
    assert (Hmid : drop_while is_other (us' ++ s) = us' ++ s).
    { apply drop_while_stop. destruct us' as [|x us'].
      - specialize (Hs2 eq_refl). now destruct s.
      - cbn in Hus' |- *. apply andb_true_iff in Hus' as [Hx _].
        now apply underscore_not_other. }
    assert (Hend : drop_while is_underscore s = s).
    { apply drop_while_stop. now destruct s. }
    rewrite sanitize_match.
    + rewrite (drop_while_app_all _ us), Hhead by exact Hus.
      rewrite (drop_while_app_all _ other), Hmid by exact Hother.
      rewrite (drop_while_app_all _ us'), Hend by exact Hus'.
      now rewrite IH.
    + unfold block_at. rewrite (drop_while_app_all _ us), Hhead by exact Hus.
      destruct other as [|x other]; [congruence|].
      cbn in Hother |- *. now apply andb_true_iff in Hother as [Hx _].
Qed.

Lemma block_at_false_word (c : ascii) (s : list ascii) :
  block_at (c :: s) = false -> is_word c = true.
Proof.
  unfold block_at. cbn [drop_while]. destruct (is_underscore c) eqn:E.
  - intros _. apply is_underscore_eq in E. now subst.
  - cbn. unfold is_other. now destruct (is_word c).
Qed.

(** The result holds bytes of [[0-9A-Za-z_]] only. *)
Lemma sanitize_word (s : list ascii) : forallb is_word (sanitize s) = true.
Proof.
  induction (sanitize_sanitized s) as [|c s t Hb _ IH|us other us' s t _ _ _ _ _ _ _ IH].
  - reflexivity.
  - cbn. now rewrite (block_at_false_word c s Hb).
  - exact IH.
Qed.

Lemma block_at_word (s : list ascii) : forallb is_word s = true -> block_at s = false.
Proof.
  unfold block_at. induction s as [|c s IH]; [reflexivity|].
  cbn [forallb drop_while]. intros H. apply andb_true_iff in H as [Hc Hs].
  destruct (is_underscore c); [now apply IH|].
  cbn. unfold is_other. now rewrite Hc.
Qed.

(** A name made of such bytes only is left as it is. *)
Lemma sanitize_id (s : list ascii) : forallb is_word s = true -> sanitize s = s.
Proof.
  induction s as [|c s IH]; [reflexivity|].
  intros H. rewrite sanitize_keep by now apply block_at_word.
  cbn in H. apply andb_true_iff in H as [_ Hs]. now rewrite IH.
Qed.

(** C8 (as amended): sanitizing replaces, from left to right, each match
    of the pattern -- a longest run of bytes outside [[0-9A-Za-z_]]
    (colons included) together with every underscore directly before it
    and directly after it -- by exactly one underscore, and keeps every
    other byte: [y] is the sanitized [x] exactly when [sanitized] relates
    them. *)
Theorem SanitizeMetricName_blocks (x y : string) :
  SanitizeMetricName x = y <-> sanitized (bytes_of x) (bytes_of y).
Proof.
  unfold SanitizeMetricName, string_of, bytes_of. split.
  - intros <-. rewrite list_ascii_of_string_of_list_ascii. apply sanitize_sanitized.
  - intros H. apply sanitized_sanitize in H. rewrite <- H.
    apply string_of_list_ascii_of_string.
Qed.

(** C8 (as stated) fails: an underscore next to a run is not kept.  The
    name [a_-b] becomes [a_b], where keeping every byte of the class and
    replacing the run [-] would give [a__b]. *)
Lemma SanitizeMetricName_not_by_runs :
  exists x : string,
    SanitizeMetricName x = "a_b"%string /\
    sanitize_by_runs x = "a__b"%string /\
    SanitizeMetricName x <> sanitize_by_runs x.
Proof. exists "a_-b"%string. repeat split. vm_compute. discriminate. Qed.

(** C9: sanitizing is idempotent. *)
Theorem SanitizeMetricName_idempotent (x : string) :
  SanitizeMetricName (SanitizeMetricName x) = SanitizeMetricName x.
Proof.
  unfold SanitizeMetricName, string_of, bytes_of.
  rewrite list_ascii_of_string_of_list_ascii.
  now rewrite (sanitize_id _ (sanitize_word _)).
Qed.

End SanitizeFacts.

(** ** The env-var filter *)

Section FilterFacts.
Import Cgroups Fixtures.
Local Open Scope string_scope.

Lemma env_has_target_iff (targetEnvVars environ : list string) :
  env_has_target targetEnvVars environ = true <->
  exists env target,
    In env environ /\ In target targetEnvVars /\ String.prefix target env = true.
Proof.
  unfold env_has_target. rewrite existsb_exists. split.
  - intros (env & Henv & H). apply existsb_exists in H as (target & Ht & Hp).
    now exists env, target.
  - intros (env & target & Henv & Ht & Hp). exists env. split; [exact Henv|].
    apply existsb_exists. now exists target.
Qed.

(** When a process reaches [add_proc]. *)
Lemma proc_selected_iff (targetEnvVars : list string)
    (procFilter : option (string -> bool)) (proc : Proc) :
  proc_selected targetEnvVars procFilter proc = true <->
  (exists environ env target,
      Environ proc = Some environ /\ In env environ /\ In target targetEnvVars /\
      String.prefix target env = true) /\
  (forall ignore, procFilter = Some ignore ->
     exists procCmdLine,
       CmdLine proc = Some procCmdLine /\ procCmdLine <> [] /\
       ignore (String.concat " " procCmdLine) = false).
Proof.
  unfold proc_selected.
  assert (Henv : match Environ proc with
                 | Some environ => env_has_target targetEnvVars environ
                 | None => false
                 end = true <->
                 exists environ env target,
                   Environ proc = Some environ /\ In env environ /\
                   In target targetEnvVars /\ String.prefix target env = true).
  { destruct (Environ proc) as [environ|].
    - rewrite env_has_target_iff. split.
      + intros (env & target & H). now exists environ, env, target.
      + intros (environ' & env & target & [= <-] & H). now exists env, target.
    - split; [discriminate | now intros (? & ? & ? & ? & _)]. }
  destruct procFilter as [ignore|].
  - destruct (CmdLine proc) as [[|a cl]|] eqn:Ecl.
    + split; [discriminate|]. intros [_ H].
      destruct (H ignore eq_refl) as (cl' & [= <-] & Hne & _). now destruct Hne.
    + destruct (ignore (String.concat " " (a :: cl))) eqn:Eig.
      * split; [discriminate|]. intros [_ H].
        destruct (H ignore eq_refl) as (cl' & [= <-] & _ & Hfalse). congruence.
      * rewrite Henv. split.
        -- intros H. split; [exact H|]. intros ignore' [= <-].
           exists (a :: cl). now repeat split.
        -- now intros [H _].
    + split; [discriminate|]. intros [_ H].
      now destruct (H ignore eq_refl) as (cl' & ? & _).
  - rewrite Henv. split; [|now intros [H _]].
    intros H. split; [exact H | discriminate].
Qed.

Lemma filter_nil_existsb {A} (f : A -> bool) (l : list A) :
  List.filter f l = [] <-> existsb f l = false.
Proof.
  induction l as [|a l IH]; cbn; [tauto|].
  destruct (f a); cbn; [split; discriminate | exact IH].
Qed.

(** C5 (as amended): with a non-empty target list the filter keeps, in
    their order, exactly the cgroups with at least one selected process,
    each with its process list reduced to the selected ones.  A process
    is selected when its environment can be read and has an entry that
    starts with one of the targets and, if an ignore predicate is set,
    its command line can be read, is not empty and does not match the
    predicate; so a process that matches the ignore predicate is dropped
    whatever its environment holds. *)
Theorem cgroupProcFilterer_selected (cgroups : list cgroup)
    (targetEnvVars : list string) (procFilter : option (string -> bool)) :
  targetEnvVars <> [] ->
  let selected := proc_selected targetEnvVars procFilter in
  cgroupProcFilterer cgroups targetEnvVars procFilter =
    map (fun cgrp => with_procs cgrp (List.filter selected (procs cgrp)))
        (List.filter (fun cgrp => existsb selected (procs cgrp)) cgroups) /\
  (forall proc,
     selected proc = true <->
     (exists environ env target,
         Environ proc = Some environ /\ In env environ /\ In target targetEnvVars /\
         String.prefix target env = true) /\
     (forall ignore, procFilter = Some ignore ->
        exists procCmdLine,
          CmdLine proc = Some procCmdLine /\ procCmdLine <> [] /\
          ignore (String.concat " " procCmdLine) = false)) /\
  (forall ignore proc procCmdLine,
     procFilter = Some ignore -> CmdLine proc = Some procCmdLine ->
     ignore (String.concat " " procCmdLine) = true -> selected proc = false).
Proof.
  intros Hne selected. split; [|split].
  - unfold cgroupProcFilterer. destruct targetEnvVars as [|t ts]; [congruence|].
    fold selected. induction cgroups as [|cg cgs IH]; [reflexivity|].
    cbn [flat_map List.filter]. rewrite IH.
    destruct (existsb selected (procs cg)) eqn:E.
    + cbn [map]. destruct (List.filter selected (procs cg)) eqn:F; [|reflexivity].
      apply filter_nil_existsb in F. congruence.
    + apply filter_nil_existsb in E. now rewrite E.
  - intros proc. apply proc_selected_iff.
  - intros ignore proc cl -> Hcl Hig. unfold selected, proc_selected.
    rewrite Hcl. destruct cl; [reflexivity | now rewrite Hig].
Qed.

Lemma cgroupProcFilterer_selected_witness :
  cgroupProcFilterer [job_cgroup [app_proc; bare_proc]] ["FOO"] (Some (fun _ => false))
  = [job_cgroup [app_proc]].
Proof.
  destruct (cgroupProcFilterer_selected [job_cgroup [app_proc; bare_proc]] ["FOO"]
              (Some (fun _ => false)) ltac:(discriminate)) as [H _].
  rewrite H. reflexivity.
Defined.

(** C5 (as stated) fails: a cgroup whose only process has the target
    variable in its environment but an empty command line (a zombie or a
    kernel thread) is dropped when an ignore predicate is configured,
    even one that matches nothing. *)
Lemma cgroupProcFilterer_drops_bare_proc :
  has_target_env ["FOO"] (job_cgroup [bare_proc]) = true /\
  cgroupProcFilterer [job_cgroup [bare_proc]] ["FOO"] (Some (fun _ => false)) = [].
Proof. split; reflexivity. Qed.

End FilterFacts.

(** ** The units handlers *)

Section APIFacts.
Import API Fixtures.
Local Open Scope string_scope.





(** C3: for a non-empty list of queried UUIDs the answer is 200 exactly
    when the user owns, or shares a project with, every one of them; the
    answer is 403 otherwise, so one failing UUID fails the request. *)
Theorem verifyUnitsOwnership_all (s : CEEMSServer) (r : Request) :
  values_of (query r) "uuid" <> [] ->
  let user := dashboardUser r in
  let passes uuid := owns (db s) user uuid = true \/ shares_project (db s) user uuid = true in
  (code (verifyUnitsOwnership s r) = 200 <->
   forall uuid, In uuid (values_of (query r) "uuid") -> passes uuid) /\
  ((exists uuid, In uuid (values_of (query r) "uuid") /\ ~ passes uuid) ->
   code (verifyUnitsOwnership s r) = 403) /\
  (code (verifyUnitsOwnership s r) = 200 \/ code (verifyUnitsOwnership s r) = 403).
Proof.
  intros _ user passes. unfold verifyUnitsOwnership, VerifyOwnership. fold user.
  assert (Hall : forallb (fun uuid => owns (db s) user uuid || shares_project (db s) user uuid)
                   (values_of (query r) "uuid") = true <->
                 forall uuid, In uuid (values_of (query r) "uuid") -> passes uuid).
  { rewrite forallb_forall. unfold passes.
    split; intros H uuid Hin; specialize (H uuid Hin);
      [now apply orb_true_iff | now apply orb_true_iff]. }
  destruct (forallb _ _) eqn:E; cbn [code successResponse errorResponse status_of_error].
  - split; [|split].
    + split; [intros _; now apply Hall | reflexivity].
    + intros (uuid & Hin & Hno). exfalso. apply Hno. now apply (proj1 Hall).
    + now left.
  - split; [|split].
    + split; [discriminate|]. intros H. apply Hall in H. discriminate.
    + reflexivity.
    + now right.
Qed.

Lemma verifyUnitsOwnership_all_witness :
  code (verifyUnitsOwnership test_server (verify_request "foousr" ["1000"; "1001"])) = 200 /\
  code (verifyUnitsOwnership test_server (verify_request "foousr" ["1000"; "1234"])) = 403.
Proof.
  split.
  - apply (verifyUnitsOwnership_all test_server (verify_request "foousr" ["1000"; "1001"])).
    + vm_compute. discriminate.
    + intros uuid [<-|[<-|[]]]; [now left | now right].
  - apply (verifyUnitsOwnership_all test_server (verify_request "foousr" ["1000"; "1234"])).
    + vm_compute. discriminate.
    + exists "1234". split; [right; now left|]. intros [H|H]; vm_compute in H; discriminate.
Defined.

End APIFacts.

(** ** The retention cache *)

Section BackendFacts.
Import Backend.
Local Open Scope string_scope.

Lemma refresh_unparsed (b : backend) (reply : StatusReply) :
  unparsed reply -> refresh b reply = b.
Proof. destruct reply as [| |s]; cbn; try reflexivity. now intros ->. Qed.

Lemma refresh_all_unparsed (b : backend) (replies : list StatusReply) :
  Forall unparsed replies -> fold_left refresh replies b = b.
Proof.
  intros H. revert b. induction H as [|reply replies Hr _ IH]; intros b; [reflexivity|].
  cbn [fold_left]. now rewrite (refresh_unparsed b reply Hr).
Qed.

(** C7: the cached retention period is the duration of the last status
    reply that parsed, whatever came before it; replies that fail (the
    backend is unreachable, or answers something else) never clear it.
    Both [30d] and [30d or 10GiB] parse to 720 hours. *)
Theorem RetentionPeriod_last_parsed (b : backend) (earlier later : list StatusReply)
    (storageRetention : string) (d : Z) :
  parseRetention storageRetention = Some d ->
  Forall unparsed later ->
  RetentionPeriod (fold_left refresh (earlier ++ Retention storageRetention :: later) b) = d /\
  RetentionPeriod (fold_left refresh later b) = RetentionPeriod b /\
  parseRetention "30d" = Some (720 * Hour) /\
  parseRetention "30d or 10GiB" = Some (720 * Hour).
Proof.
  intros Hparse Hlater. split; [|split; [|split]].
  - rewrite fold_left_app. cbn [fold_left].
    rewrite (refresh_all_unparsed _ later Hlater).
    unfold refresh. now rewrite Hparse.
  - now rewrite (refresh_all_unparsed _ later Hlater).
  - reflexivity.
  - reflexivity.
Qed.

(** The two tests: the backend answers [30d], then is stopped; and the
    backend answers [30d or 10GiB]. *)
Lemma RetentionPeriod_last_parsed_witness :
  RetentionPeriod (fold_left refresh [Retention "30d"; Unreachable; Unreachable]
                     (New "http://localhost:3333")) = 30 * 24 * Hour /\
  RetentionPeriod (fold_left refresh [Retention "30d or 10GiB"]
                     (New "http://localhost:3333")) = 30 * 24 * Hour.
Proof.
  split.
  - apply (RetentionPeriod_last_parsed (New "http://localhost:3333") []
             [Unreachable; Unreachable] "30d" (30 * 24 * Hour)).
    + reflexivity.
    + repeat constructor.
  - apply (RetentionPeriod_last_parsed (New "http://localhost:3333") [] [] "30d or 10GiB"
             (30 * 24 * Hour)).
    + reflexivity.
    + constructor.
Defined.

End BackendFacts.

(** ** The power collector *)

Section IPMIFacts.
Import Bytes Regexp Float64 Prom IPMI Fixtures.

Lemma with_cached_same (c : impiCollector) : with_cached c (cachedMetric c) = c.
Proof. now destruct c. Qed.

(** The loop of [Update] over the readings [l], from the cache [m] and
    the samples [ch] already sent. *)
Lemma Update_loop (c c0 : impiCollector) (l : list (string * float64)) (ch0 : list Metric) :
  fold_left
    (fun '(c', ch) '(rType, rValue) =>
       if fgt rValue fzero then
         (with_cached c' (<[rType := rValue]> (cachedMetric c')),
          ch ++ [power_sample c rType rValue])
       else (c', ch))
    l (c0, ch0)
  = (with_cached c0
       (fold_left (fun m kv => if fgt kv.2 fzero then <[kv.1 := kv.2]> m else m)
                  l (cachedMetric c0)),
     ch0 ++ map (fun kv => power_sample c kv.1 kv.2)
                (List.filter (fun kv => fgt kv.2 fzero) l)).
Proof.
  revert c0 ch0. induction l as [|[k v] l IH]; intros c0 ch0.
  - cbn. now rewrite with_cached_same, app_nil_r.
  - cbn [fold_left List.filter fst snd]. destruct (fgt v fzero) eqn:E.
    + rewrite IH. cbn [cachedMetric with_cached map hostname execMode].
      rewrite <- app_assoc. reflexivity.
    + now rewrite IH.
Qed.

(** Writing back entries a map already has changes nothing. *)
Lemma write_back_same (m : gmap string float64) (l : list (string * float64)) :
  (forall k v, In (k, v) l -> m !! k = Some v) ->
  fold_left (fun m kv => if fgt kv.2 fzero then <[kv.1 := kv.2]> m else m) l m = m.
Proof.
  induction l as [|[k v] l IH]; intros H; [reflexivity|].
  cbn [fold_left fst snd].
  rewrite (insert_id m k v) by (apply H; now left).
  destruct (fgt v fzero); apply IH; intros k' v' Hin; apply H; now right.
Qed.

(** The cache after the positive readings of [l] are written. *)
Lemma write_readings_lookup (m : gmap string float64) (l : list (string * float64))
    (k : string) :
  NoDup (l.*1) ->
  fold_left (fun m kv => if fgt kv.2 fzero then <[kv.1 := kv.2]> m else m) l m !! k
  = match list_find (fun kv => kv.1 = k) l with
    | Some (_, (_, v)) => if fgt v fzero then Some v else m !! k
    | None => m !! k
    end.
Proof.
  revert m. induction l as [|[k' v'] l IH]; intros m Hnd; [reflexivity|].
  cbn [fmap list_fmap fst] in Hnd. apply NoDup_cons in Hnd as [Hnotin Hnd].
  cbn [fold_left fst snd list_find]. rewrite IH by exact Hnd.
  destruct (decide (k' = k)) as [->|Hne]; cbn.
  - assert (Hnone : list_find (fun kv : string * float64 => kv.1 = k) l = None).
    { apply list_find_None, Forall_forall. intros [k1 v1] Hin Heq. cbn in Heq. subst k1.
      apply Hnotin. apply list_elem_of_fmap. now exists (k, v1). }
    rewrite Hnone. destruct (fgt v' fzero); [apply lookup_insert_eq | reflexivity].
  - destruct (list_find (fun kv : string * float64 => kv.1 = k) l) as [[i [k1 v1]]|]; cbn.
    + destruct (fgt v1 fzero); [reflexivity|].
      destruct (fgt v' fzero); [now rewrite lookup_insert_ne | reflexivity].
    + destruct (fgt v' fzero); [now rewrite lookup_insert_ne | reflexivity].
Qed.

Lemma list_find_map_to_list (m : gmap string float64) (k : string) :
  (snd <$> (snd <$> list_find (fun kv : string * float64 => kv.1 = k) (map_to_list m)))
  = m !! k.
Proof.
  destruct (list_find _ _) as [[i [k1 v1]]|] eqn:E; cbn.
  - apply list_find_Some in E as (Hi & Hk & _). cbn in Hk. subst k1.
    symmetry. apply elem_of_map_to_list. now apply list_elem_of_lookup_2 in Hi.
  - destruct (m !! k) as [v|] eqn:Hv; [|reflexivity].
    apply elem_of_map_to_list in Hv.
    rewrite list_find_None, Forall_forall in E. now specialize (E _ Hv).
Qed.

(** The readings [parseIPMIOutput] collects over the patterns [l]: one
    for every type whose pattern finds a value that parses. *)
Lemma parse_readings_lookup (stdOut : list ascii) (l : list (string * re))
    (rType : string) (v : float64) :
  NoDup (l.*1) ->
  fold_left
    (fun powerReadings '(rType, regex) =>
       match getValue stdOut regex with
       | Some reading =>
           match ParseFloat reading with
           | Some readingValue => <[rType := readingValue]> powerReadings
           | None => powerReadings
           end
       | None => powerReadings
       end)
    l (∅ : gmap string float64) !! rType = Some v <->
  exists regex reading,
    (rType, regex) ∈ l /\ getValue stdOut regex = Some reading /\
    ParseFloat reading = Some v.
Proof.
  induction l as [|[k0 r0] l IH] using rev_ind; intros Hnd.
  - cbn [fold_left]. rewrite lookup_empty. split; [discriminate|].
    intros (regex & reading & Hin & _). now apply elem_of_nil in Hin.
  - rewrite fmap_app in Hnd. apply NoDup_app in Hnd. destruct Hnd as (Hnd & Hdisj & _).
    specialize (IH Hnd).
    assert (Hk0 : forall regex, (k0, regex) ∉ l).
    { intros regex Hin. apply (Hdisj k0).
      - apply list_elem_of_fmap. now exists (k0, regex).
      - cbn. apply list_elem_of_singleton. reflexivity. }
    rewrite fold_left_app. cbn [fold_left].
    assert (Hlast : forall regex reading,
               (rType, regex) ∈ l ++ [(k0, r0)] ->
               getValue stdOut regex = Some reading -> ParseFloat reading = Some v ->
               (rType, regex) ∈ l \/
               (rType = k0 /\ getValue stdOut r0 = Some reading /\
                ParseFloat reading = Some v)).
    { intros regex reading Hin Hg Hp. apply elem_of_app in Hin.
      destruct Hin as [Hin|Hin]; [now left|].
      apply list_elem_of_singleton in Hin. injection Hin as -> ->. right. tauto. }
    destruct (getValue stdOut r0) as [reading0|] eqn:Eg;
      [destruct (ParseFloat reading0) as [v0|] eqn:Ep|].
    + destruct (decide (rType = k0)) as [->|Hne].
      * rewrite lookup_insert_eq. split.
        -- intros [= <-]. exists r0, reading0. split; [|now split].
           apply elem_of_app. right. now apply list_elem_of_singleton.
        -- intros (regex & reading & Hin & Hg & Hp).
           destruct (Hlast regex reading Hin Hg Hp) as [H|(_ & H1 & H2)].
           ++ now apply Hk0 in H.
           ++ injection H1 as <-. congruence.
      * rewrite lookup_insert_ne by congruence. rewrite IH. split.
        -- intros (regex & reading & Hin & Hg & Hp). exists regex, reading.
           split; [apply elem_of_app; now left | now split].
        -- intros (regex & reading & Hin & Hg & Hp).
           destruct (Hlast regex reading Hin Hg Hp) as [H|(H & _)]; [|congruence].
           now exists regex, reading.
    + rewrite IH. split.
      * intros (regex & reading & Hin & Hg & Hp). exists regex, reading.
        split; [apply elem_of_app; now left | now split].
      * intros (regex & reading & Hin & Hg & Hp).
        destruct (Hlast regex reading Hin Hg Hp) as [H|(_ & H1 & H2)].
        -- now exists regex, reading.
        -- injection H1 as <-. congruence.
    + rewrite IH. split.
      * intros (regex & reading & Hin & Hg & Hp). exists regex, reading.
        split; [apply elem_of_app; now left | now split].
      * intros (regex & reading & Hin & Hg & Hp).
        destruct (Hlast regex reading Hin Hg Hp) as [H|(_ & H1 & _)].
        -- now exists regex, reading.
        -- discriminate.
Qed.

Lemma samples_of_empty (c : impiCollector) : samples_of c ∅ = [].
Proof. unfold samples_of. now rewrite map_to_list_empty. Qed.

(** C4 (as amended): when the readings cannot be had -- the tool cannot
    be run, its output has no [Power Measurement] line, or the first
    such line does not say [Active] (the [Not Available] case) -- the
    cache is left as it is and what it holds is served: the samples of
    that scrape are the cached readings, none if the cache is empty.
    When the measurement is [Active], the readings are those of the
    types whose power line is found and parses, the samples are the
    readings above zero, and exactly those refresh the cache; an
    [Active] output without any power line gives no sample and leaves
    the cache unchanged. *)
Theorem ipmi_Update_serves_cache (c : impiCollector) (tool : option (list ascii)) :
  match getPowerReadings c tool with
  | None => Update c tool = (c, samples_of c (cachedMetric c))
  | Some readings =>
      (Update c tool).2 = samples_of c readings /\
      (forall rType,
         cachedMetric (Update c tool).1 !! rType =
         match readings !! rType with
         | Some v => if fgt v fzero then Some v else cachedMetric c !! rType
         | None => cachedMetric c !! rType
         end)
  end /\
  (getPowerReadings c tool = None <->
   match executeIPMICmd c tool with
   | None => True
   | Some ipmiOutput =>
       getValue ipmiOutput ipmiDCMIPowerMeasurementRegex <> Some (bytes_of "Active"%string)
   end) /\
  (getPowerReadings c tool = None -> cachedMetric c = ∅ -> Update c tool = (c, [])) /\
  (forall ipmiOutput readings,
     executeIPMICmd c tool = Some ipmiOutput ->
     getPowerReadings c tool = Some readings ->
     forall rType v,
       readings !! rType = Some v <->
       exists regex reading,
         (rType, regex) ∈ ipmiDCMIPowerReadingRegexMap /\
         getValue ipmiOutput regex = Some reading /\
         ParseFloat reading = Some v) /\
  (forall ipmiOutput,
     executeIPMICmd c tool = Some ipmiOutput ->
     getValue ipmiOutput ipmiDCMIPowerMeasurementRegex = Some (bytes_of "Active"%string) ->
     (forall rType regex, (rType, regex) ∈ ipmiDCMIPowerReadingRegexMap ->
                          getValue ipmiOutput regex = None) ->
     Update c tool = (c, [])).
Proof.
  assert (Hserve : getPowerReadings c tool = None ->
                   Update c tool = (c, samples_of c (cachedMetric c))).
  { intros Hnone. unfold Update. rewrite Hnone, Update_loop. cbn [app].
    rewrite write_back_same, with_cached_same; [reflexivity|].
    intros k v Hin. apply elem_of_map_to_list. now apply list_elem_of_In. }
  assert (Hparsed : forall ipmiOutput readings,
             executeIPMICmd c tool = Some ipmiOutput ->
             getPowerReadings c tool = Some readings ->
             forall rType v,
               readings !! rType = Some v <->
               exists regex reading,
                 (rType, regex) ∈ ipmiDCMIPowerReadingRegexMap /\
                 getValue ipmiOutput regex = Some reading /\
                 ParseFloat reading = Some v).
  { intros out readings Hexec. unfold getPowerReadings, parseIPMIOutput. rewrite Hexec.
    destruct (getValue out ipmiDCMIPowerMeasurementRegex) as [m|]; [|discriminate].
    destruct (String.eqb (string_of m) "Active"); [|discriminate].
    intros Heq. apply (inj Some) in Heq. rewrite <- Heq. intros rType v.
    apply parse_readings_lookup.
    apply (bool_decide_unpack _). vm_compute. exact I. }
  split; [|split; [|split; [|split]]].
  - destruct (getPowerReadings c tool) as [readings|] eqn:Hread; [|now apply Hserve].
    unfold Update. rewrite Hread, Update_loop. cbn [fst snd app]. split; [reflexivity|].
    intros rType. cbn [cachedMetric with_cached].
    rewrite write_readings_lookup by apply NoDup_fst_map_to_list.
    rewrite <- (list_find_map_to_list readings rType).
    now destruct (list_find _ _) as [[i [k1 v1]]|].
  - unfold getPowerReadings. destruct (executeIPMICmd c tool) as [out|]; [|tauto].
    unfold parseIPMIOutput.
    destruct (getValue out ipmiDCMIPowerMeasurementRegex) as [v|]; [|split; [discriminate | reflexivity]].
    unfold string_of.
    destruct (String.eqb_spec (string_of_list_ascii v) "Active"%string) as [E|E].
    + split; [discriminate|]. intros H. exfalso. apply H. f_equal.
      rewrite <- (list_ascii_of_string_of_list_ascii v). unfold bytes_of. now rewrite E.
    + split; [|reflexivity]. intros _ [= Hv]. apply E. subst v. reflexivity.
  - intros Hnone Hempty. rewrite (Hserve Hnone), Hempty. now rewrite samples_of_empty.
  - exact Hparsed.
  - intros out Hexec Hactive Hnoline.
    assert (Hread : getPowerReadings c tool = Some ∅).
    { destruct (getPowerReadings c tool) as [readings|] eqn:Hread.
      - f_equal. apply map_eq. intros rType. rewrite lookup_empty.
        destruct (readings !! rType) as [v|] eqn:Hv; [|reflexivity].
        apply (Hparsed out readings Hexec eq_refl) in Hv.
        destruct Hv as (regex & reading & Hin & Hg & _).
        rewrite (Hnoline rType regex Hin) in Hg. discriminate.
      - exfalso. revert Hread. unfold getPowerReadings, parseIPMIOutput.
        rewrite Hexec, Hactive. unfold string_of, bytes_of.
        now rewrite string_of_list_ascii_of_string. }
    unfold Update. rewrite Hread, map_to_list_empty. reflexivity.
Qed.

(** The scenario of the last sentence: with a warm cache, an output
    that says [Active] and has no power line sends nothing and leaves
    the three cached readings. *)
Lemma ipmi_Update_active_without_power_lines :
  Update ipmi_warm (Some (bytes_of "Power Measurement : Active")) = (ipmi_warm, []) /\
  dom (cachedMetric ipmi_warm) = {[ "current"; "min"; "max" ]}.
Proof. split; vm_compute; reflexivity. Qed.

(** C4 (as stated) fails: after a successful scrape, an output that says
    [Not Available] leaves the cache as it is, but the scrape does send
    samples: the three cached readings. *)
Lemma ipmi_Update_not_available_sends_cache :
  getPowerReadings ipmi_warm (Some dcmi_not_available) = None /\
  (Update ipmi_warm (Some dcmi_not_available)).1 = ipmi_warm /\
  map fqName (Update ipmi_warm (Some dcmi_not_available)).2
  = [ "ceems_ipmi_dcmi_current_watts_total"; "ceems_ipmi_dcmi_min_watts_total";
      "ceems_ipmi_dcmi_max_watts_total" ]%string.
Proof.
  repeat split; vm_compute; reflexivity.
Qed.

End IPMIFacts.

(** ** [float64] arithmetic: rounding, and sums that never go down *)

Section FloatFacts.
Import Float64 Perf.

(** *** Digits *)

Lemma digits2_pos_bounds (p : positive) :
  2 ^ (Zpos (digits2_pos p) - 1) <= Zpos p < 2 ^ Zpos (digits2_pos p).
Proof.
  induction p as [p IH|p IH|]; cbn [digits2_pos].
  - rewrite Pos2Z.inj_succ.
    replace (Z.succ (Zpos (digits2_pos p)) - 1) with (Zpos (digits2_pos p) - 1 + 1) by lia.
    rewrite Z.pow_succ_r by lia. rewrite Z.pow_add_r by lia. lia.
  - rewrite Pos2Z.inj_succ.
    replace (Z.succ (Zpos (digits2_pos p)) - 1) with (Zpos (digits2_pos p) - 1 + 1) by lia.
    rewrite Z.pow_succ_r by lia. rewrite Z.pow_add_r by lia. lia.
  - cbn. lia.
Qed.

Lemma Zdigits2_bounds (m : Z) :
  0 < m -> 2 ^ (Zdigits2 m - 1) <= m < 2 ^ Zdigits2 m.
Proof. destruct m as [|p|p]; try lia. intros _. apply digits2_pos_bounds. Qed.

Lemma Zdigits2_pos (m : Z) : 0 < m -> 0 < Zdigits2 m.
Proof. destruct m; cbn; lia. Qed.

Lemma Zdigits2_nonneg (m : Z) : 0 <= Zdigits2 m.
Proof. destruct m; cbn; lia. Qed.

Lemma Zdigits2_unique (m d : Z) :
  2 ^ (d - 1) <= m < 2 ^ d -> 0 < m -> Zdigits2 m = d.
Proof.
  intros [Hlo Hhi] Hm.
  destruct (Zdigits2_bounds m Hm) as [Glo Ghi].
  pose proof (Zdigits2_pos m Hm) as Hd.
  assert (Hdpos : 0 < d).
  { destruct (Z.lt_trichotomy d 0) as [H|[H|H]]; [|subst|exact H].
    - rewrite Z.pow_neg_r in Hhi by lia. lia.
    - cbn in Hhi. lia. }
  destruct (Z.lt_trichotomy (Zdigits2 m) d) as [H|[H|H]]; [|exact H|].
  - assert (2 ^ Zdigits2 m <= 2 ^ (d - 1)) by (apply Z.pow_le_mono_r; lia). lia.
  - assert (2 ^ d <= 2 ^ (Zdigits2 m - 1)) by (apply Z.pow_le_mono_r; lia). lia.
Qed.

Lemma Zdigits2_mono (m n : Z) : 0 < m -> m <= n -> Zdigits2 m <= Zdigits2 n.
Proof.
  intros Hm Hle.
  destruct (Zdigits2_bounds m Hm) as [Glo _].
  destruct (Zdigits2_bounds n ltac:(lia)) as [_ Ghi].
  destruct (Z_lt_le_dec (Zdigits2 n) (Zdigits2 m)) as [H|H]; [|exact H].
  assert (2 ^ Zdigits2 n <= 2 ^ (Zdigits2 m - 1)) by (apply Z.pow_le_mono_r; lia). lia.
Qed.

Lemma Zdigits2_shiftl (m k : Z) : 0 < m -> 0 <= k -> Zdigits2 (m * 2 ^ k) = Zdigits2 m + k.
Proof.
  intros Hm Hk. destruct (Zdigits2_bounds m Hm) as [Glo Ghi].
  pose proof (Zdigits2_pos m Hm).
  assert (0 < 2 ^ k) by (apply Z.pow_pos_nonneg; lia).
  apply Zdigits2_unique; [|nia].
  replace (Zdigits2 m + k - 1) with (Zdigits2 m - 1 + k) by lia.
  rewrite !Z.pow_add_r by lia. nia.
Qed.

Lemma Zdigits2_shiftr (m k : Z) :
  0 < m -> 0 <= k < Zdigits2 m -> Zdigits2 (m / 2 ^ k) = Zdigits2 m - k.
Proof.
  intros Hm Hk. destruct (Zdigits2_bounds m Hm) as [Glo Ghi].
  assert (Hp : 0 < 2 ^ k) by (apply Z.pow_pos_nonneg; lia).
  assert (Hlo : 2 ^ (Zdigits2 m - k - 1) <= m / 2 ^ k).
  { apply Z.div_le_lower_bound; [exact Hp|].
    rewrite <- Z.pow_add_r by lia.
    replace (k + (Zdigits2 m - k - 1)) with (Zdigits2 m - 1) by lia. exact Glo. }
  assert (Hhi : m / 2 ^ k < 2 ^ (Zdigits2 m - k)).
  { apply Z.div_lt_upper_bound; [exact Hp|].
    rewrite <- Z.pow_add_r by lia.
    replace (k + (Zdigits2 m - k)) with (Zdigits2 m) by lia. exact Ghi. }
  apply Zdigits2_unique; [split; assumption|].
  assert (0 < 2 ^ (Zdigits2 m - k - 1)) by (apply Z.pow_pos_nonneg; lia). lia.
Qed.

Lemma shiftr_small (m k : Z) : 0 <= m -> Zdigits2 m <= k -> m / 2 ^ k = 0.
Proof.
  intros Hm Hk. destruct (Z.eq_dec m 0) as [->|Hne].
  - apply Z.div_0_l. assert (0 < 2 ^ k) by (apply Z.pow_pos_nonneg; pose proof (Zdigits2_nonneg 0); lia). lia.
  - destruct (Zdigits2_bounds m ltac:(lia)) as [_ Ghi].
    apply Z.div_small. split; [lia|].
    assert (2 ^ Zdigits2 m <= 2 ^ k) by (apply Z.pow_le_mono_r; lia). lia.
Qed.

(** *** Shifting right *)

Lemma fexp64_eq (e : Z) : fexp64 e = Z.max (e - 53) (-1074).
Proof. reflexivity. Qed.

Lemma iter_pos_inv {A : Type} (f : A -> A) (Inv : Z -> A -> Prop) :
  (forall k x, 0 <= k -> Inv k x -> Inv (k + 1) (f x)) ->
  forall p k x, 0 <= k -> Inv k x -> Inv (k + Zpos p) (SpecFloat.iter_pos f p x).
Proof.
  intros Hstep. induction p as [p IH|p IH|]; intros k x Hk Hx; cbn [SpecFloat.iter_pos].
  - replace (k + Zpos p~1) with (k + 1 + Zpos p + Zpos p) by lia.
    apply IH; [lia|]. apply IH; [lia|]. now apply Hstep.
  - replace (k + Zpos p~0) with (k + Zpos p + Zpos p) by lia.
    apply IH; [lia|]. now apply IH.
  - now apply Hstep.
Qed.

Lemma shr_1_m (mrs : shr_record) : 0 <= shr_m mrs -> shr_m (shr_1 mrs) = shr_m mrs / 2.
Proof.
  destruct mrs as [m r s]. cbn [shr_m shr_1]. intros Hm.
  destruct m as [|[p|p|]|p]; cbn [shr_m]; try reflexivity; try lia.
  - apply Z.div_unique with (r := 1); lia.
  - apply Z.div_unique with (r := 0); lia.
Qed.

Lemma iter_shr_1_m (p : positive) (mrs : shr_record) :
  0 <= shr_m mrs ->
  shr_m (SpecFloat.iter_pos shr_1 p mrs) = shr_m mrs / 2 ^ Zpos p.
Proof.
  intros Hm.
  pose proof (iter_pos_inv shr_1
                (fun k x => shr_m x = shr_m mrs / 2 ^ k /\ 0 <= shr_m x)) as H.
  destruct (H ltac:(
      intros k x Hk [Hx Hpos]; split;
      [rewrite shr_1_m by exact Hpos; rewrite Hx, Z.pow_add_r by lia;
       rewrite Z.div_div by (try apply Z.pow_pos_nonneg; lia); reflexivity
      |rewrite shr_1_m by exact Hpos; apply Z.div_pos; lia]) p 0 mrs ltac:(lia)) as [Hres _].
  - split; [now rewrite Z.div_1_r | exact Hm].
  - exact Hres.
Qed.

Lemma shr_record_of_loc_m (m : Z) (l : location) : shr_m (shr_record_of_loc m l) = m.
Proof. now destruct l as [|[]]. Qed.

Lemma shr_fexp_spec (m e : Z) (l : location) :
  0 <= m ->
  shr_m (fst (shr_fexp prec emax m e l)) = shift_m m e /\
  snd (shr_fexp prec emax m e l) = shift_e m e.
Proof.
  intros Hm. unfold shr_fexp, shr, shift_m, shift_e. fold (fexp64 (Zdigits2 m + e)).
  destruct (fexp64 (Zdigits2 m + e) - e) as [|p|p] eqn:E; cbn [fst snd].
  - rewrite shr_record_of_loc_m. cbn. rewrite Z.div_1_r. split; [reflexivity | lia].
  - rewrite iter_shr_1_m by (now rewrite shr_record_of_loc_m).
    rewrite shr_record_of_loc_m. split; [f_equal; f_equal; lia | lia].
  - rewrite shr_record_of_loc_m. cbn. rewrite Z.div_1_r. split; [reflexivity | lia].
Qed.

Lemma round_nearest_even_bounds (m : Z) (l : location) :
  m <= round_nearest_even m l <= m + 1.
Proof. destruct l as [|[]]; cbn; try lia. destruct (Z.even m); lia. Qed.

Lemma binary_round_aux_spec (sx : bool) (mx ex : Z) (lx : location) :
  0 <= mx ->
  exists m2,
    shift_m mx ex <= m2 <= shift_m mx ex + 1 /\
    binary_round_aux prec emax sx mx ex lx
    = pack sx (shift_m m2 (shift_e mx ex)) (shift_e m2 (shift_e mx ex)).
Proof.
  intros Hm. unfold binary_round_aux.
  destruct (shr_fexp_spec mx ex lx Hm) as [H1 H2].
  destruct (shr_fexp prec emax mx ex lx) as [mrs' e']. cbn [fst snd] in H1, H2.
  set (m2 := round_nearest_even (shr_m mrs') (loc_of_shr_record mrs')).
  assert (Hm2 : shift_m mx ex <= m2 <= shift_m mx ex + 1).
  { rewrite <- H1. apply round_nearest_even_bounds. }
  assert (Hm1 : 0 <= shift_m mx ex).
  { unfold shift_m. apply Z.div_pos; [exact Hm|]. apply Z.pow_pos_nonneg; lia. }
  destruct (shr_fexp_spec m2 e' loc_Exact ltac:(lia)) as [H3 H4].
  destruct (shr_fexp prec emax m2 e' loc_Exact) as [mrs'' e'']. cbn [fst snd] in H3, H4.
  exists m2. split; [exact Hm2|]. subst e' e''. rewrite H3. reflexivity.
Qed.

(** *** Rounding to a canonical float *)

Lemma Zdigits2_succ (m1 m2 : Z) :
  0 <= m1 -> m1 <= m2 <= m1 + 1 ->
  Zdigits2 m2 = Zdigits2 m1 \/
  (Zdigits2 m2 = Zdigits2 m1 + 1 /\ m2 = 2 ^ Zdigits2 m1).
Proof.
  intros Hm1 Hm2. destruct (Z.eq_dec m2 m1) as [->|Hne]; [now left|].
  assert (m2 = m1 + 1) as -> by lia.
  destruct (Z.eq_dec m1 0) as [->|Hpos]; [right; split; reflexivity|].
  destruct (Zdigits2_bounds m1 ltac:(lia)) as [Hlo Hhi].
  pose proof (Zdigits2_pos m1 ltac:(lia)) as Hd.
  destruct (Z_lt_le_dec (m1 + 1) (2 ^ Zdigits2 m1)) as [H|H].
  - left. apply Zdigits2_unique; lia.
  - right. split; [|lia]. apply Zdigits2_unique; [|lia].
    replace (Zdigits2 m1 + 1 - 1) with (Zdigits2 m1) by lia.
    rewrite Z.pow_add_r by lia. lia.
Qed.

Lemma Zdigits2_pow2 (k : Z) : 0 <= k -> Zdigits2 (2 ^ k) = k + 1.
Proof.
  intros Hk. replace (2 ^ k) with (1 * 2 ^ k) by apply Z.mul_1_l.
  rewrite Zdigits2_shiftl by lia. change (Zdigits2 1) with 1. lia.
Qed.

Lemma binary_round_aux_detail (m e : Z) (l : location) :
  0 <= m -> e <= fexp64 (Zdigits2 m + e) ->
  let e1 := fexp64 (Zdigits2 m + e) in
  let m1 := m / 2 ^ (e1 - e) in
  exists m3 e3,
    binary_round_aux prec emax false m e l = pack false m3 e3 /\
    0 <= m3 /\ 0 <= m1 /\
    fexp64 (Zdigits2 m3 + e3) = e3 /\
    Zdigits2 m1 + e1 = Z.max (Zdigits2 m + e) e1 /\
    (m1 = 0 -> m = 0 \/ Zdigits2 m + e <= -1074) /\
    ((e3 = e1 /\ m1 <= m3 <= m1 + 1) \/
     (e3 = e1 + 1 /\ 0 < m1 /\ 0 < m3 /\ Zdigits2 m3 = Zdigits2 m1)).
Proof.
  intros Hm Hpre e1 m1.
  destruct (binary_round_aux_spec false m e l Hm) as (m2 & Hm2 & ->).
  assert (He1 : shift_e m e = e1) by (unfold shift_e; fold e1; lia).
  assert (Hm1 : shift_m m e = m1).
  { unfold shift_m, m1. fold e1. f_equal. f_equal. lia. }
  rewrite He1 in *. rewrite Hm1 in *.
  assert (Hk : 0 <= e1 - e) by lia.
  assert (Hm1nn : 0 <= m1).
  { unfold m1. apply Z.div_pos; [exact Hm|]. apply Z.pow_pos_nonneg; lia. }
  assert (Hmag1 : Zdigits2 m1 + e1 = Z.max (Zdigits2 m + e) e1 /\
                  (m1 = 0 -> m = 0 \/ Zdigits2 m + e <= -1074)).
  { destruct (Z.eq_dec m 0) as [->|Hne].
    - unfold m1. rewrite Z.div_0_l by (apply Z.pow_nonzero; lia).
      cbn [Zdigits2] in *. unfold e1. cbn [Zdigits2]. split; [lia | now left].
    - destruct (Z_lt_le_dec (e1 - e) (Zdigits2 m)) as [H|H].
      + unfold m1 at 1. rewrite Zdigits2_shiftr by lia. split; [lia|].
        intros H0. exfalso.
        assert (Zdigits2 m1 = Zdigits2 m - (e1 - e)) by (unfold m1; apply Zdigits2_shiftr; lia).
        rewrite H0 in H1. cbn [Zdigits2] in H1. lia.
      + assert (m1 = 0) as Hz by (unfold m1; apply shiftr_small; lia).
        rewrite Hz. cbn [Zdigits2]. split; [lia|]. intros _. right.
        unfold e1 in H. rewrite fexp64_eq in H. lia. }
  destruct Hmag1 as [Hmag1 Hzero].
  assert (Hcan1 : fexp64 (Zdigits2 m1 + e1) = e1).
  { rewrite Hmag1. unfold e1. rewrite !fexp64_eq. lia. }
  destruct (Zdigits2_succ m1 m2 Hm1nn Hm2) as [Hd|[Hd Hpow]].
  - exists m2, e1. unfold shift_m, shift_e. rewrite Hd, Hcan1.
    replace (Z.max 0 (e1 - e1)) with 0 by lia. rewrite Z.div_1_r.
    replace (Z.max e1 e1) with e1 by lia.
    repeat split; try lia; try assumption.
  - pose proof (Zdigits2_nonneg m1) as Hd1.
    assert (Hf : fexp64 (Zdigits2 m2 + e1) = e1 \/ fexp64 (Zdigits2 m2 + e1) = e1 + 1).
    { rewrite Hd. rewrite fexp64_eq in *. lia. }
    destruct Hf as [Hf|Hf].
    + exists m2, e1. unfold shift_m, shift_e. rewrite Hf.
      replace (Z.max 0 (e1 - e1)) with 0 by lia. rewrite Z.div_1_r.
      replace (Z.max e1 e1) with e1 by lia.
      repeat split; try lia; try assumption.
    + assert (Hd1pos : 0 < Zdigits2 m1).
      { destruct (Z.eq_dec (Zdigits2 m1) 0) as [H0|]; [|lia].
        rewrite Hd, H0 in Hf. rewrite H0 in Hcan1. rewrite fexp64_eq in *. lia. }
      assert (Hm1pos : 0 < m1).
      { destruct (Z.eq_dec m1 0) as [H0|]; [|lia]. rewrite H0 in Hd1pos. cbn in Hd1pos. lia. }
      assert (Hm3 : shift_m m2 e1 = 2 ^ (Zdigits2 m1 - 1)).
      { unfold shift_m. rewrite Hf. replace (Z.max 0 (e1 + 1 - e1)) with 1 by lia.
        rewrite Hpow. replace (Zdigits2 m1) with (Zdigits2 m1 - 1 + 1) at 1 by lia.
        rewrite Z.pow_add_r by lia. apply Z.div_mul. cbn. lia. }
      assert (He3 : shift_e m2 e1 = e1 + 1) by (unfold shift_e; lia).
      exists (2 ^ (Zdigits2 m1 - 1)), (e1 + 1). rewrite Hm3, He3.
      assert (Hd3 : Zdigits2 (2 ^ (Zdigits2 m1 - 1)) = Zdigits2 m1).
      { rewrite Zdigits2_pow2 by lia. lia. }
      assert (0 < 2 ^ (Zdigits2 m1 - 1)) by (apply Z.pow_pos_nonneg; lia).
      repeat split; try lia; try assumption.
      rewrite Hd3. rewrite Hd in Hf. rewrite <- Hf. f_equal. lia.
Qed.

Lemma bounded_iff (m : positive) (e : Z) :
  bounded prec emax m e = true <-> fexp64 (Zpos (digits2_pos m) + e) = e /\ e <= 971.
Proof.
  unfold bounded, canonical_mantissa. fold (fexp64 (Zpos (digits2_pos m) + e)).
  rewrite andb_true_iff, Z.eqb_eq, Z.leb_le. reflexivity.
Qed.

Lemma binary_round_aux_shape (m e : Z) (l : location) :
  0 <= m -> e <= fexp64 (Zdigits2 m + e) ->
  shape m (Zdigits2 m + e) (binary_round_aux prec emax false m e l).
Proof.
  intros Hm Hpre.
  destruct (binary_round_aux_detail m e l Hm Hpre)
    as (m3 & e3 & -> & Hnn & Hm1 & Hcan & Hmag & Hzero & Hcase).
  set (g := Zdigits2 m + e) in *. set (e1 := fexp64 g) in *.
  set (m1 := m / 2 ^ (e1 - e)) in *.
  assert (He1 : e1 = Z.max (g - 53) (-1074)) by apply fexp64_eq.
  assert (Hmag3 : g <= Zdigits2 m3 + e3 <= Z.max (g + 1) (-1073)).
  { destruct Hcase as [[-> Hb]|(-> & _ & _ & ->)]; [|lia].
    destruct (Zdigits2_succ m1 m3 Hm1 Hb) as [->|[-> _]]; lia. }
  destruct m3 as [|p|p]; cbn [pack]; [| |lia].
  - destruct Hcase as [[_ Hb]|(_ & _ & H & _)]; [|lia]. apply Hzero. lia.
  - cbn [Zdigits2] in *. destruct (e3 <=? emax - prec) eqn:E; cbn [shape].
    + apply Z.leb_le in E. split; [|exact Hmag3].
      apply bounded_iff. split; [exact Hcan | exact E].
    + apply Z.leb_gt in E. rewrite fexp64_eq in Hcan. unfold emax, prec in E. lia.
Qed.

(** *** Conversion of integers *)

Lemma Pos_iter_xO (m d : positive) : Zpos (Pos.iter xO m d) = Zpos m * 2 ^ Zpos d.
Proof.
  induction d as [|d IH] using Pos.peano_ind.
  - cbn. lia.
  - rewrite Pos.iter_succ, Pos2Z.inj_xO, IH, Pos2Z.inj_succ, Z.pow_succ_r by lia. lia.
Qed.

Lemma shl_align_spec (mx : positive) (ex ex' : Z) :
  snd (shl_align mx ex ex') = Z.min ex ex' /\
  Zpos (fst (shl_align mx ex ex')) = Zpos mx * 2 ^ (ex - Z.min ex ex').
Proof.
  unfold shl_align. destruct (ex' - ex) as [|d|d] eqn:E; cbn [fst snd].
  - replace (Z.min ex ex') with ex by lia. rewrite Z.sub_diag. cbn. lia.
  - replace (Z.min ex ex') with ex by lia. rewrite Z.sub_diag. cbn. lia.
  - replace (Z.min ex ex') with ex' by lia. rewrite Pos_iter_xO.
    split; [reflexivity|]. f_equal. f_equal. lia.
Qed.

Lemma binary_round_detail (mx : positive) (ex : Z) :
  let g := Zpos (digits2_pos mx) + ex in
  let e1 := fexp64 g in
  let e0 := Z.min ex e1 in
  let m1 := Zpos mx * 2 ^ (ex - e0) / 2 ^ (e1 - e0) in
  exists m3 e3,
    binary_round prec emax false mx ex = pack false m3 e3 /\
    0 <= m3 /\ 0 <= m1 /\
    fexp64 (Zdigits2 m3 + e3) = e3 /\
    Zdigits2 m1 + e1 = Z.max g e1 /\
    (m1 = 0 -> g <= -1074) /\
    ((e3 = e1 /\ m1 <= m3 <= m1 + 1) \/
     (e3 = e1 + 1 /\ 0 < m1 /\ 0 < m3 /\ Zdigits2 m3 = Zdigits2 m1)).
Proof.
  intros g e1 e0 m1. unfold binary_round.
  fold (fexp64 (Zpos (digits2_pos mx) + ex)). fold g. fold e1.
  destruct (shl_align_spec mx ex e1) as [He Hmz].
  destruct (shl_align mx ex e1) as [mz ez]. cbn [fst snd] in He, Hmz. fold e0 in He, Hmz.
  assert (Hdz : Zdigits2 (Zpos mz) + ez = g).
  { rewrite Hmz, Zdigits2_shiftl by lia. cbn [Zdigits2]. unfold g. lia. }
  assert (Hpre : ez <= fexp64 (Zdigits2 (Zpos mz) + ez)) by (rewrite Hdz; fold e1; lia).
  destruct (binary_round_aux_detail (Zpos mz) ez loc_Exact ltac:(lia) Hpre)
    as (m3 & e3 & Heq & Hnn & Hm1 & Hcan & Hmag & Hzero & Hcase).
  rewrite Hdz in Hmag, Hzero, Hcase, Hm1. fold e1 in Hmag, Hzero, Hcase, Hm1.
  rewrite Hmz, He in Hmag, Hzero, Hcase, Hm1. fold m1 in Hmag, Hzero, Hcase, Hm1.
  exists m3, e3. repeat split; try assumption.
  intros H0. destruct (Hzero H0) as [H|H]; [|exact H].
  assert (0 < 2 ^ (ex - e0)) by (apply Z.pow_pos_nonneg; lia). lia.
Qed.

Lemma binary_round_shape (mx : positive) (ex : Z) :
  shape (Zpos mx) (Zpos (digits2_pos mx) + ex) (binary_round prec emax false mx ex).
Proof.
  unfold binary_round. fold (fexp64 (Zpos (digits2_pos mx) + ex)).
  set (e1 := fexp64 (Zpos (digits2_pos mx) + ex)).
  destruct (shl_align_spec mx ex e1) as [He Hmz].
  destruct (shl_align mx ex e1) as [mz ez]. cbn [fst snd] in He, Hmz.
  assert (Hdz : Zdigits2 (Zpos mz) + ez = Zpos (digits2_pos mx) + ex).
  { rewrite Hmz, Zdigits2_shiftl by lia. cbn [Zdigits2]. lia. }
  assert (Hpre : ez <= fexp64 (Zdigits2 (Zpos mz) + ez)) by (rewrite Hdz; fold e1; lia).
  pose proof (binary_round_aux_shape (Zpos mz) ez loc_Exact ltac:(lia) Hpre) as H.
  rewrite Hdz in H.
  destruct (binary_round_aux prec emax false (Zpos mz) ez loc_Exact) as [[]|[]| |[] m3 e3];
    cbn [shape] in *; try assumption; try contradiction.
  destruct H as [H|H]; [lia | now right].
Qed.

(** *** Floats that are not negative and in canonical form *)

Lemma shape_good (m g : Z) (r : spec_float) : shape m g r -> good r = true.
Proof. destruct r as [[]|[]| |[] m3 e3]; cbn [shape good]; tauto. Qed.

Lemma within_good (hi : Z) (x : spec_float) : within hi x -> good x = true.
Proof. destruct x as [[]|[]| |[] m3 e3]; cbn [within good]; tauto. Qed.

Lemma shape_within (m g hi : Z) (r : spec_float) :
  shape m g r -> g < 1024 -> g + 1 <= hi -> -1073 <= hi -> within hi r.
Proof.
  destruct r as [[]|[]| |[] m3 e3]; cbn [shape within]; try tauto; try lia.
  intros [Hb Hm]. split; [exact Hb | lia].
Qed.

Lemma Zdigits2_le (m k : Z) : 0 < m -> m < 2 ^ k -> Zdigits2 m <= k.
Proof.
  intros Hm Hk. destruct (Zdigits2_bounds m Hm) as [Hlo _].
  destruct (Z_lt_le_dec k (Zdigits2 m)) as [H|H]; [|exact H].
  assert (2 ^ k <= 2 ^ (Zdigits2 m - 1)).
  { destruct (Z_lt_le_dec k 0); [rewrite Z.pow_neg_r in Hk by lia; lia|].
    apply Z.pow_le_mono_r; lia. }
  lia.
Qed.

Lemma Zdigits2_ge (m k : Z) : 0 <= k -> 2 ^ k <= m -> k + 1 <= Zdigits2 m.
Proof.
  intros Hk Hm. assert (0 < 2 ^ k) by (apply Z.pow_pos_nonneg; lia).
  rewrite <- (Zdigits2_pow2 k Hk). apply Zdigits2_mono; lia.
Qed.

Lemma Zdigits2_mul (a b : Z) :
  0 < a -> 0 < b ->
  Zdigits2 a + Zdigits2 b - 1 <= Zdigits2 (a * b) <= Zdigits2 a + Zdigits2 b.
Proof.
  intros Ha Hb.
  destruct (Zdigits2_bounds a Ha) as [Alo Ahi]. destruct (Zdigits2_bounds b Hb) as [Blo Bhi].
  pose proof (Zdigits2_pos a Ha). pose proof (Zdigits2_pos b Hb).
  assert (0 < 2 ^ (Zdigits2 a - 1)) by (apply Z.pow_pos_nonneg; lia).
  assert (0 < 2 ^ (Zdigits2 b - 1)) by (apply Z.pow_pos_nonneg; lia).
  split.
  - replace (Zdigits2 a + Zdigits2 b - 1) with (Zdigits2 a - 1 + (Zdigits2 b - 1) + 1) by lia.
    apply Zdigits2_ge; [lia|]. rewrite Z.pow_add_r by lia. nia.
  - apply Zdigits2_le; [nia|]. rewrite Z.pow_add_r by lia. nia.
Qed.

Lemma of_Z_shape (n : Z) : 0 < n -> shape n (Zdigits2 n) (binary_normalize prec emax n 0 false).
Proof.
  destruct n as [|p|p]; try lia. intros _. cbn [binary_normalize Zdigits2].
  pose proof (binary_round_shape p 0) as H. now rewrite Z.add_0_r in H.
Qed.

Lemma of_Z_good (n : Z) : 0 <= n -> good (binary_normalize prec emax n 0 false) = true.
Proof.
  intros Hn. destruct (Z.eq_dec n 0) as [->|Hne]; [reflexivity|].
  eapply shape_good. apply of_Z_shape. lia.
Qed.

Lemma of_Z_within (n : Z) :
  0 <= n < 2 ^ 64 -> within 65 (binary_normalize prec emax n 0 false).
Proof.
  intros Hn. destruct (Z.eq_dec n 0) as [->|Hne]; [exact I|].
  pose proof (Zdigits2_le n 64 ltac:(lia) ltac:(lia)).
  eapply shape_within; [apply of_Z_shape; lia | lia | lia | lia].
Qed.

Lemma of_Z_finite (n : Z) :
  0 < n < 2 ^ 64 ->
  exists m e, binary_normalize prec emax n 0 false = S754_finite false m e /\
              bounded prec emax m e = true /\ 1 <= Zpos (digits2_pos m) + e <= 65.
Proof.
  intros Hn. pose proof (Zdigits2_le n 64 ltac:(lia) ltac:(lia)) as Hd.
  pose proof (Zdigits2_pos n ltac:(lia)) as Hd0.
  pose proof (of_Z_shape n ltac:(lia)) as H.
  destruct (binary_normalize prec emax n 0 false) as [[]|[]| |[] m3 e3];
    cbn [shape] in H; try contradiction; try lia.
  exists m3, e3. split; [reflexivity|]. split; [tauto | lia].
Qed.

(** *** Division and multiplication *)

Lemma SFdiv_core_spec (mx my : positive) (ex ey : Z) :
  let magx := Zpos (digits2_pos mx) + ex in
  let magy := Zpos (digits2_pos my) + ey in
  let '(q, e', _) := SFdiv_core_binary prec emax (Zpos mx) ex (Zpos my) ey in
  0 <= q /\ e' <= fexp64 (Zdigits2 q + e') /\
  Zdigits2 q + e' <= Z.max (magx - magy + 1) (-1074).
Proof.
  intros magx magy. unfold SFdiv_core_binary. cbn [Zdigits2].
  fold (fexp64 (Zpos (digits2_pos mx) + ex - (Zpos (digits2_pos my) + ey))).
  fold magx magy.
  set (e' := Z.min (fexp64 (magx - magy)) (ex - ey)).
  set (s := ex - ey - e').
  set (m' := match s with Z0 => Zpos mx | Zpos _ => Z.shiftl (Zpos mx) s | Zneg _ => 0 end).
  assert (Hs : 0 <= s) by (unfold s, e'; lia).
  assert (Hm' : m' = Zpos mx * 2 ^ s).
  { unfold m'. destruct s as [|p|p] eqn:E; [cbn; lia | | lia].
    apply Z.shiftl_mul_pow2. lia. }
  clearbody m'.
  destruct (Z.div_eucl m' (Zpos my)) as [q r] eqn:E.
  assert (Hq : q = m' / Zpos my) by (unfold Z.div; now rewrite E).
  assert (Hp : 0 < 2 ^ s) by (apply Z.pow_pos_nonneg; lia).
  assert (Hqnn : 0 <= q) by (rewrite Hq; apply Z.div_pos; nia).
  set (dx := Zpos (digits2_pos mx)) in *. set (dy := Zpos (digits2_pos my)) in *.
  destruct (Zdigits2_bounds (Zpos mx) ltac:(lia)) as [Xlo Xhi].
  destruct (Zdigits2_bounds (Zpos my) ltac:(lia)) as [Ylo Yhi].
  cbn [Zdigits2] in Xlo, Xhi, Ylo, Yhi. fold dx in Xlo, Xhi. fold dy in Ylo, Yhi.
  assert (Hdx : 0 < dx) by (unfold dx; lia). assert (Hdy : 0 < dy) by (unfold dy; lia).
  assert (Hlow : dx + s - dy <= Zdigits2 q).
  { destruct (Z_le_gt_dec (dx + s - dy) 0) as [H|H].
    - pose proof (Zdigits2_nonneg q). lia.
    - replace (dx + s - dy) with (dx + s - dy - 1 + 1) by lia.
      apply Zdigits2_ge; [lia|]. rewrite Hq.
      apply Z.div_le_lower_bound; [lia|].
      assert (2 ^ (dx + s - dy - 1) * 2 ^ dy = 2 ^ (dx - 1) * 2 ^ s).
      { rewrite <- !Z.pow_add_r by lia. f_equal. lia. }
      assert (0 < 2 ^ (dx + s - dy - 1)) by (apply Z.pow_pos_nonneg; lia).
      nia. }
  assert (Hupp : Zdigits2 q <= Z.max (dx + s - dy + 1) 0).
  { destruct (Z.eq_dec q 0) as [->|Hne]; [cbn; lia|].
    assert (Hqm : q * Zpos my <= m').
    { rewrite Hq. rewrite Z.mul_comm. apply Z.mul_div_le. lia. }
    assert (0 < 2 ^ (dy - 1)) by (apply Z.pow_pos_nonneg; lia).
    assert (Hlt : q * 2 ^ (dy - 1) < 2 ^ dx * 2 ^ s) by nia.
    destruct (Z_le_gt_dec (dx + s - dy + 1) 0) as [H0|H0].
    - exfalso.
      assert (2 ^ (dx + s) <= 2 ^ (dy - 1)) by (apply Z.pow_le_mono_r; lia).
      rewrite Z.pow_add_r in * by lia. nia.
    - assert (Zdigits2 q <= dx + s - dy + 1); [|lia].
      apply Zdigits2_le; [lia|].
      assert (2 ^ (dx + s - dy + 1) * 2 ^ (dy - 1) = 2 ^ dx * 2 ^ s).
      { rewrite <- !Z.pow_add_r by lia. f_equal. lia. }
      nia. }
  split; [exact Hqnn|]. split.
  - assert (Hmono : fexp64 (magx - magy) <= fexp64 (Zdigits2 q + e')).
    { rewrite !fexp64_eq. unfold magx, magy. fold dx dy. unfold s in Hlow. lia. }
    unfold e' at 1. lia.
  - unfold s in Hupp. unfold magx, magy. fold dx dy.
    assert (e' <= fexp64 (magx - magy)) by (unfold e'; lia).
    rewrite fexp64_eq in H. unfold magx, magy in H. fold dx dy in H. lia.
Qed.

Lemma fdiv_within (hx : Z) (x : spec_float) (my : positive) (ey : Z) :
  within hx x -> 1 <= Zpos (digits2_pos my) + ey -> hx < 1024 -> -1073 <= hx ->
  within (hx + 1) (SFdiv prec emax x (S754_finite false my ey)).
Proof.
  intros Hx Hy Hhi Hlo. destruct x as [[]|[]| |[] mx ex]; cbn [within] in Hx; try contradiction.
  - exact I.
  - destruct Hx as [_ Hx]. cbn [SFdiv xorb].
    pose proof (SFdiv_core_spec mx my ex ey) as H. cbn zeta in H.
    destruct (SFdiv_core_binary prec emax (Zpos mx) ex (Zpos my) ey) as [[q e'] l].
    destruct H as (Hq & Hpre & Hg).
    eapply shape_within; [apply binary_round_aux_shape; assumption | lia | lia | lia].
Qed.

Lemma canonical_digits (m : positive) (e : Z) :
  bounded prec emax m e = true ->
  e = Z.max (Zpos (digits2_pos m) + e - 53) (-1074) /\ e <= 971.
Proof. intros H. apply bounded_iff in H. rewrite fexp64_eq in H. lia. Qed.

Lemma fmul_within (hx hy : Z) (x y : spec_float) :
  within hx x -> within hy y -> hx + hy < 1024 -> -1074 <= hx + hy ->
  within (hx + hy + 1) (SFmul prec emax x y).
Proof.
  intros Hx Hy Hhi Hlo.
  destruct x as [[]|[]| |[] mx ex]; cbn [within] in Hx; try contradiction;
    destruct y as [[]|[]| |[] my ey]; cbn [within] in Hy; try contradiction;
    cbn [SFmul xorb]; try exact I.
  destruct Hx as [Bx Hx], Hy as [By Hy].
  apply canonical_digits in Bx, By.
  pose proof (Zdigits2_mul (Zpos mx) (Zpos my) ltac:(lia) ltac:(lia)) as Hd.
  change (Zpos mx * Zpos my) with (Zpos (mx * my)) in Hd. cbn [Zdigits2] in Hd.
  assert (Hpre : ex + ey <= fexp64 (Zdigits2 (Zpos (mx * my)) + (ex + ey))).
  { rewrite fexp64_eq. cbn [Zdigits2]. lia. }
  eapply shape_within;
    [apply binary_round_aux_shape; [lia | exact Hpre] | cbn [Zdigits2]; lia ..].
Qed.

(** *** The contribution of one interval *)

Lemma Round_good (x : spec_float) : good x = true -> good (Round x) = true.
Proof.
  destruct x as [[]|[]| |[] m e]; cbn [good Round]; try discriminate; try reflexivity.
  intros Hb. destruct (0 <=? e); [exact Hb|]. cbv zeta.
  set (q := Z.shiftr (Zpos m) (- e)).
  assert (Hq : 0 <= q) by (apply Z.shiftr_nonneg; lia).
  destruct (Z.shiftl 1 (- e - 1) <=? Zpos m - Z.shiftl q (- e));
    match goal with |- good (if ?n =? 0 then _ else _) = true =>
      destruct (Z.eqb_spec n 0); [reflexivity | cbn [cond_Zopp]; apply of_Z_good; lia] end.
Qed.

Lemma uint64_range (z : Z) : 0 <= uint64 z < 2 ^ 64.
Proof. unfold uint64. apply Z.mod_pos_bound. reflexivity. Qed.

Lemma scaleCounter_good (lastProfileValue currentProfileValue : ProfileValue) :
  good (scaleCounter lastProfileValue currentProfileValue) = true.
Proof.
  unfold scaleCounter. cbv zeta.
  set (dE := uint64 (TimeEnabled currentProfileValue - TimeEnabled lastProfileValue)).
  set (dR := uint64 (TimeRunning currentProfileValue - TimeRunning lastProfileValue)).
  set (dC := uint64 (Value currentProfileValue - Value lastProfileValue)).
  pose proof (uint64_range (TimeEnabled currentProfileValue - TimeEnabled lastProfileValue)) as HE.
  pose proof (uint64_range (TimeRunning currentProfileValue - TimeRunning lastProfileValue)) as HR.
  pose proof (uint64_range (Value currentProfileValue - Value lastProfileValue)) as HC.
  fold dE in HE. fold dR in HR. fold dC in HC.
  destruct (Z.ltb_spec 0 dR) as [Hpos|_]; [|apply of_Z_good; lia].
  apply Round_good. unfold of_Z.
  destruct (of_Z_finite dR ltac:(lia)) as (my & ey & -> & _ & Hy).
  eapply within_good. apply fmul_within with (hx := 66) (hy := 65); [| |lia|lia].
  - apply (fdiv_within 65); [apply of_Z_within; exact HE | lia | lia | lia].
  - apply of_Z_within. exact HC.
Qed.

(** *** The order of canonical floats *)

Lemma key_le_trans (a b c : Z * Z) : key_le a b -> key_le b c -> key_le a c.
Proof. unfold key_le. lia. Qed.

Lemma key_le_refl (a : Z * Z) : key_le a a.
Proof. unfold key_le. lia. Qed.

Lemma SFleb_key (x y : spec_float) :
  good x = true -> good y = true ->
  (SFleb x y = true <-> key_le (key x) (key y)).
Proof.
  destruct x as [[]|[]| |[] mx ex]; cbn [good]; try discriminate;
    destruct y as [[]|[]| |[] my ey]; cbn [good]; try discriminate;
    intros Hx Hy; try apply canonical_digits in Hx; try apply canonical_digits in Hy;
    unfold SFleb, key_le; cbn [SFcompare key fst snd]; try (split; [lia | reflexivity]);
    try (split; [discriminate | lia]).
  change (Pos.compare_cont Eq mx my) with (Pos.compare mx my).
  destruct (Z.compare_spec ex ey) as [->|H|H].
  - destruct (Pos.compare_spec mx my); split; try discriminate; try reflexivity; lia.
  - split; [lia | reflexivity].
  - split; [discriminate | lia].
Qed.

Lemma fge_trans (x y z : spec_float) :
  good x = true -> good y = true -> good z = true ->
  fge y x = true -> fge z y = true -> fge z x = true.
Proof.
  unfold fge. intros Hx Hy Hz. rewrite !SFleb_key by assumption. apply key_le_trans.
Qed.

Lemma fge_refl (x : spec_float) : good x = true -> fge x x = true.
Proof. unfold fge. intros Hx. rewrite SFleb_key by assumption. apply key_le_refl. Qed.

(** *** Adding a non-negative float never lowers the sum *)

Lemma pack_pos (m3 e3 : Z) :
  0 < m3 -> fexp64 (Zdigits2 m3 + e3) = e3 ->
  good (pack false m3 e3) = true /\
  (key (pack false m3 e3) = (e3, m3) \/ key (pack false m3 e3) = (2000, 0)).
Proof.
  intros Hm Hcan. destruct m3 as [|p|p]; try lia. cbn [pack Zdigits2] in *.
  destruct (e3 <=? emax - prec) eqn:E; cbn [good key].
  - split; [|now left]. apply bounded_iff. apply Z.leb_le in E. split; [exact Hcan | exact E].
  - split; [reflexivity | now right].
Qed.

Lemma fadd_key (x y : spec_float) :
  good x = true -> good y = true ->
  good (fadd x y) = true /\ key_le (key x) (key (fadd x y)).
Proof.
  unfold fadd.
  destruct x as [[]|[]| |[] mx ex]; cbn [good]; try discriminate;
    destruct y as [[]|[]| |[] my ey]; cbn [good]; try discriminate;
    intros Hx Hy; cbn [SFadd];
    try (split; [first [reflexivity | assumption] | apply key_le_refl]);
    try (split; [first [reflexivity | assumption]
                | try apply canonical_digits in Hx; try apply canonical_digits in Hy;
                  unfold key_le; cbn [key fst snd]; lia]).
  pose proof Hx as Bx. apply canonical_digits in Hx. destruct Hx as [Hex Hex'].
  cbn [cond_Zopp]. set (ez := Z.min ex ey).
  destruct (shl_align_spec mx ex ez) as [_ HX]. destruct (shl_align_spec my ey ez) as [_ HY].
  replace (Z.min ex ez) with ez in HX by lia. replace (Z.min ey ez) with ez in HY by lia.
  set (X := fst (shl_align mx ex ez)) in *. set (Y := fst (shl_align my ey ez)) in *.
  change (Zpos X + Zpos Y) with (Zpos (X + Y)). cbn [binary_normalize].
  destruct (binary_round_detail (X + Y) ez)
    as (m3 & e3 & -> & Hm3 & Hm1 & Hcan & Hmag & Hzero & Hcase).
  assert (HM : Zpos (X + Y) = Zpos mx * 2 ^ (ex - ez) + Zpos my * 2 ^ (ey - ez)) by lia.
  assert (Hpx : 0 < 2 ^ (ex - ez)) by (apply Z.pow_pos_nonneg; lia).
  assert (Hpy : 0 < 2 ^ (ey - ez)) by (apply Z.pow_pos_nonneg; lia).
  assert (HD : Zpos (digits2_pos mx) + ex <= Zpos (digits2_pos (X + Y)) + ez).
  { pose proof (Zdigits2_mono (Zpos mx * 2 ^ (ex - ez)) (Zpos (X + Y)) ltac:(nia) ltac:(nia)) as H.
    rewrite Zdigits2_shiftl in H by lia. cbn [Zdigits2] in H. lia. }
  set (g := Zpos (digits2_pos (X + Y)) + ez) in *.
  assert (He1 : ex <= fexp64 g) by (rewrite fexp64_eq; lia).
  set (e1 := fexp64 g) in *.
  replace (Z.min ez e1) with ez in * by lia.
  rewrite Z.sub_diag, Z.mul_1_r in *.
  set (m1 := Zpos (X + Y) / 2 ^ (e1 - ez)) in *.
  assert (Hm1pos : 0 < m1).
  { destruct (Z.eq_dec m1 0) as [H0|]; [|lia]. specialize (Hzero H0). lia. }
  assert (Hm3pos : 0 < m3) by (destruct Hcase as [[_ ?]|(_ & _ & ? & _)]; lia).
  destruct (pack_pos m3 e3 Hm3pos Hcan) as [Hgood [Hkey|Hkey]].
  - split; [exact Hgood|]. rewrite Hkey. unfold key_le. cbn [key fst snd].
    destruct Hcase as [[-> Hb]|(-> & _)]; [|lia].
    destruct (Z.eq_dec ex e1) as [Heq|]; [|lia]. right. split; [exact Heq|].
    assert (Zpos mx <= m1); [|lia].
    unfold m1. rewrite <- Heq. apply Z.div_le_lower_bound; [exact Hpx | nia].
  - split; [exact Hgood|]. rewrite Hkey. unfold key_le. cbn [key fst snd]. lia.
Qed.

Lemma fadd_ge (x y : spec_float) :
  good x = true -> good y = true ->
  good (fadd x y) = true /\ fge (fadd x y) x = true.
Proof.
  intros Hx Hy. destruct (fadd_key x y Hx Hy) as [Hg Hk]. split; [exact Hg|].
  unfold fge. now apply SFleb_key.
Qed.

Lemma fadd_fzero_l (y : spec_float) : good y = true -> fadd fzero y = y.
Proof. destruct y as [[]|[]| |[] m e]; cbn; try discriminate; reflexivity. Qed.

(** *** Exact results *)

Lemma iter_shr_1_exact (p : positive) (m0 : Z) :
  0 < m0 ->
  SpecFloat.iter_pos shr_1 p {| shr_m := m0 * 2 ^ Zpos p; shr_r := false; shr_s := false |}
  = {| shr_m := m0; shr_r := false; shr_s := false |}.
Proof.
  intros Hm.
  pose proof (iter_pos_inv shr_1
                (fun j x => j <= Zpos p ->
                            x = {| shr_m := m0 * 2 ^ (Zpos p - j);
                                   shr_r := false; shr_s := false |})) as H.
  replace m0 with (m0 * 2 ^ (Zpos p - (0 + Zpos p))) at 2
    by (replace (Zpos p - (0 + Zpos p)) with 0 by lia; change (2 ^ 0) with 1; lia).
  apply H; try lia.
  - intros j x Hj Hx Hle. rewrite (Hx ltac:(lia)).
    assert (Hq : 0 < m0 * 2 ^ (Zpos p - (j + 1))).
    { apply Z.mul_pos_pos; [exact Hm|]. apply Z.pow_pos_nonneg; lia. }
    replace (m0 * 2 ^ (Zpos p - j)) with (2 * (m0 * 2 ^ (Zpos p - (j + 1)))).
    2:{ replace (Zpos p - j) with (Zpos p - (j + 1) + 1) by lia.
        rewrite Z.pow_add_r by lia. change (2 ^ 1) with 2. ring. }
    destruct (m0 * 2 ^ (Zpos p - (j + 1))) as [|q|q]; try lia. reflexivity.
  - intros _. now rewrite Z.sub_0_r.
Qed.

Lemma binary_round_aux_exact (m0 k e0 : Z) :
  0 < m0 -> 0 <= k -> fexp64 (Zdigits2 m0 + e0) = e0 ->
  binary_round_aux prec emax false (m0 * 2 ^ k) (e0 - k) loc_Exact = pack false m0 e0.
Proof.
  intros Hm Hk Hcan. unfold binary_round_aux.
  assert (H1 : shr_fexp prec emax (m0 * 2 ^ k) (e0 - k) loc_Exact
               = ({| shr_m := m0; shr_r := false; shr_s := false |}, e0)).
  { unfold shr_fexp. fold (fexp64 (Zdigits2 (m0 * 2 ^ k) + (e0 - k))).
    rewrite Zdigits2_shiftl by lia.
    replace (Zdigits2 m0 + k + (e0 - k)) with (Zdigits2 m0 + e0) by lia. rewrite Hcan.
    replace (e0 - (e0 - k)) with k by lia. cbn [shr_record_of_loc]. unfold shr.
    destruct k as [|p|p]; [|rewrite iter_shr_1_exact by exact Hm; f_equal; lia | lia].
    cbn. f_equal; [f_equal|]; lia. }
  rewrite H1. cbn [shr_m loc_of_shr_record round_nearest_even].
  assert (H2 : shr_fexp prec emax m0 e0 loc_Exact
               = ({| shr_m := m0; shr_r := false; shr_s := false |}, e0)).
  { unfold shr_fexp. fold (fexp64 (Zdigits2 m0 + e0)). rewrite Hcan, Z.sub_diag.
    reflexivity. }
  rewrite H2. reflexivity.
Qed.

Lemma pack_finite (m : positive) (e : Z) :
  e <= 971 -> pack false (Zpos m) e = S754_finite false m e.
Proof. intros He. cbn [pack]. now rewrite (proj2 (Z.leb_le e (emax - prec)) He). Qed.

(** [float64(n)] for an integer of at most 53 bits. *)
Lemma of_Z_small (n : Z) :
  0 < n -> Zdigits2 n <= 53 ->
  of_Z n = pack false (n * 2 ^ (53 - Zdigits2 n)) (Zdigits2 n - 53).
Proof.
  intros Hn Hd. unfold of_Z. destruct n as [|p|p]; try lia.
  cbn [binary_normalize]. unfold binary_round.
  fold (fexp64 (Zpos (digits2_pos p) + 0)). cbn [Zdigits2] in *.
  set (D := Zpos (digits2_pos p)) in *. assert (HD : 0 < D) by (unfold D; lia).
  assert (He : fexp64 (D + 0) = D - 53) by (rewrite fexp64_eq; lia). rewrite He.
  destruct (shl_align_spec p 0 (D - 53)) as [H1 H2].
  destruct (shl_align p 0 (D - 53)) as [mz ez]. cbn [fst snd] in H1, H2.
  replace (Z.min 0 (D - 53)) with (D - 53) in * by lia. subst ez.
  replace (0 - (D - 53)) with (53 - D) in H2 by lia. rewrite <- H2.
  replace (Zpos mz) with (Zpos mz * 2 ^ 0) at 1 by (cbn; lia).
  replace (D - 53) with (D - 53 - 0) at 1 by lia.
  apply binary_round_aux_exact; [lia | lia |].
  rewrite H2, Zdigits2_shiftl by lia. cbn [Zdigits2]. fold D. rewrite fexp64_eq. lia.
Qed.

Lemma Round_of_Z (n : Z) : 0 <= n -> Round (of_Z n) = of_Z n.
Proof.
  intros Hn. destruct (Z.eq_dec n 0) as [->|Hne]; [reflexivity|].
  destruct (Z_le_gt_dec (Zdigits2 n) 53) as [Hd|Hd].
  - rewrite of_Z_small by lia.
    pose proof (Zdigits2_pos n ltac:(lia)) as HD. set (D := Zdigits2 n) in *.
    assert (Hp : 0 < 2 ^ (53 - D)) by (apply Z.pow_pos_nonneg; lia).
    destruct (n * 2 ^ (53 - D)) as [|mz|mz] eqn:Emz; try nia.
    rewrite pack_finite by lia. cbn [Round].
    destruct (Z.leb_spec 0 (D - 53)) as [H0|H0]; [reflexivity|].
    replace (- (D - 53)) with (53 - D) by lia. cbv zeta.
    rewrite Z.shiftr_div_pow2 by lia. rewrite <- Emz, Z.div_mul by lia.
    rewrite !Z.shiftl_mul_pow2 by lia. rewrite Z.sub_diag.
    assert (0 < 2 ^ (53 - D - 1)) by (apply Z.pow_pos_nonneg; lia).
    destruct (Z.leb_spec (1 * 2 ^ (53 - D - 1)) 0) as [Hc|_]; [lia|].
    destruct (Z.eqb_spec n 0) as [|_]; [lia|]. cbn [cond_Zopp].
    fold (of_Z n). rewrite of_Z_small by lia. fold D. rewrite Emz. now rewrite pack_finite by lia.
  - pose proof (of_Z_shape n ltac:(lia)) as H. fold (of_Z n) in H.
    destruct (of_Z n) as [[]|[]| |[] m e]; cbn [shape] in H; try contradiction;
      try reflexivity.
    destruct H as [Hb Hmag]. apply canonical_digits in Hb. cbn [Round].
    destruct (Z.leb_spec 0 e); [reflexivity | lia].
Qed.

Lemma fdiv_same (m : positive) (e : Z) :
  fdiv (S754_finite false m e) (S754_finite false m e) = fone.
Proof.
  unfold fdiv. cbn [SFdiv xorb]. unfold SFdiv_core_binary.
  replace (Zdigits2 (Zpos m) + e - (Zdigits2 (Zpos m) + e)) with 0 by lia.
  rewrite Z.sub_diag. change (Z.min (fexp prec emax 0) 0) with (-53).
  change (0 - -53) with 53. cbv iota.
  assert (H : Z.div_eucl (Z.shiftl (Zpos m) 53) (Zpos m) = (2 ^ 53, 0)).
  { rewrite Z.shiftl_mul_pow2 by lia.
    pose proof (Z.div_eucl_eq (Zpos m * 2 ^ 53) (Zpos m) ltac:(lia)) as Heq.
    pose proof (Z.mod_pos_bound (Zpos m * 2 ^ 53) (Zpos m) ltac:(lia)) as Hb.
    unfold Z.modulo in Hb.
    destruct (Z.div_eucl (Zpos m * 2 ^ 53) (Zpos m)) as [q r].
    assert (q = 2 ^ 53) by nia. subst q. f_equal. lia. }
  rewrite H.
  assert (Hl : new_location (Zpos m) 0 = loc_Exact).
  { unfold new_location, new_location_even, new_location_odd.
    now destruct (Z.even (Zpos m)). }
  rewrite Hl. reflexivity.
Qed.

Lemma fmul_fone (c : spec_float) : within 1023 c -> fmul fone c = c.
Proof.
  unfold fmul, fone.
  destruct c as [[]|[]| |[] mc ec]; cbn [within]; try contradiction; [reflexivity|].
  intros [Hb _]. apply bounded_iff in Hb. destruct Hb as [Hcan He].
  cbn [SFmul xorb].
  replace (Zpos (4503599627370496 * mc)) with (Zpos mc * 2 ^ 52) by (cbn; lia).
  replace (-52 + ec) with (ec - 52) by lia.
  rewrite binary_round_aux_exact by (cbn [Zdigits2]; try lia; exact Hcan).
  now apply pack_finite.
Qed.

Lemma within_weaken (lo hi : Z) (x : spec_float) : within lo x -> lo <= hi -> within hi x.
Proof.
  destruct x as [[]|[]| |[] m e]; cbn [within]; try tauto. intros [Hb Hm] Hle.
  split; [exact Hb | lia].
Qed.

(** The scale factor is exactly 1 when the counter ran all the time it
    was enabled. *)
Lemma scaleCounter_unscaled (lastProfileValue currentProfileValue : ProfileValue) :
  let deltaEnabled := uint64 (TimeEnabled currentProfileValue - TimeEnabled lastProfileValue) in
  let deltaRunning := uint64 (TimeRunning currentProfileValue - TimeRunning lastProfileValue) in
  let deltaCounter := uint64 (Value currentProfileValue - Value lastProfileValue) in
  deltaRunning = 0 \/ deltaRunning = deltaEnabled ->
  scaleCounter lastProfileValue currentProfileValue = of_Z deltaCounter.
Proof.
  intros dE dR dC Hcase. unfold scaleCounter. fold dE dR dC.
  pose proof (uint64_range (TimeRunning currentProfileValue - TimeRunning lastProfileValue)) as HR.
  pose proof (uint64_range (Value currentProfileValue - Value lastProfileValue)) as HC.
  fold dR in HR. fold dC in HC.
  destruct (Z.ltb_spec 0 dR) as [Hpos|Hz]; [|reflexivity].
  destruct Hcase as [H0| <-]; [lia|].
  destruct (of_Z_finite dR ltac:(lia)) as (m & e & Hm & _).
  unfold of_Z at 1 2. rewrite Hm, fdiv_same.
  rewrite fmul_fone by (eapply within_weaken; [apply of_Z_within; exact HC | lia]).
  apply Round_of_Z. lia.
Qed.

End FloatFacts.

(** ** The perf collector: profiler tables *)

Section ProfilerFacts.
Import Cgroups Perf.

Lemma contains_elem_of (l : list Z) (pid : Z) : contains l pid = true <-> pid ∈ l.
Proof.
  unfold contains. rewrite existsb_exists, list_elem_of_In. split.
  - intros (x & Hin & Heq). apply Z.eqb_eq in Heq. now subst.
  - intros H. exists pid. split; [exact H | apply Z.eqb_refl].
Qed.

Lemma contains_false (l : list Z) (pid : Z) : contains l pid = false <-> pid ∉ l.
Proof.
  rewrite <- contains_elem_of. destruct (contains l pid); split; congruence.
Qed.

Lemma enabled_set_profilers (c : perfCollector) (k k' : Kind) (t : gmap Z Profiler) :
  enabled (set_profilers c k t) k' = enabled c k'.
Proof. now destruct k'. Qed.

Lemma profilers_set_same (c : perfCollector) (k : Kind) (t : gmap Z Profiler) :
  profilers (set_profilers c k t) k = t.
Proof. now destruct k. Qed.

Lemma profilers_set_other (c : perfCollector) (k k' : Kind) (t : gmap Z Profiler) :
  k <> k' -> profilers (set_profilers c k t) k' = profilers c k'.
Proof. now destruct k, k'. Qed.

Lemma events_set_same (kn : Kernel) (k : Kind) (e : gset Z) :
  events (set_events kn k e) k = e.
Proof. now destruct k. Qed.

Lemma events_set_other (kn : Kernel) (k k' : Kind) (e : gset Z) :
  k <> k' -> events (set_events kn k e) k' = events kn k'.
Proof. now destruct k, k'. Qed.

Lemma Kind_eq_dec (k k' : Kind) : {k = k'} + {k <> k'}.
Proof. decide equality. Qed.

(** Opening never removes a slot, and adds the slot of [pid] to the
    table of [k] when that kind is enabled and the profiler opens. *)
Lemma open_one_profilers (w : World) (k : Kind) (pid : Z) (st : perfCollector * Kernel)
    (k' : Kind) (pid' : Z) :
  pid' ∈ dom (profilers (open_one w k pid st).1 k') <->
  pid' ∈ dom (profilers st.1 k') \/
  (k' = k /\ pid' = pid /\ enabled st.1 k = true /\ open_ok w k pid = true).
Proof.
  destruct st as [c kn]. cbn [fst]. unfold open_one. destruct (enabled c k) eqn:Hen; [|cbn; intuition congruence].
  destruct (profilers c k !! pid) as [p|] eqn:Hlk; [cbn|].
  - split; [tauto|]. intros [H|(-> & -> & _)]; [exact H|].
    apply elem_of_dom. now exists p.
  - unfold newProfiler, open_ok.
    destruct (new_ok w k pid); [|cbn; intuition congruence].
    destruct (start_ok w k pid); [|cbn; intuition congruence].
    cbn [fst andb]. destruct (Kind_eq_dec k k') as [<-|Hne].
    + rewrite profilers_set_same, dom_insert. set_solver.
    + rewrite profilers_set_other by exact Hne. intuition congruence.
Qed.

Lemma open_one_enabled (w : World) (k : Kind) (pid : Z) (st : perfCollector * Kernel)
    (k' : Kind) :
  enabled (open_one w k pid st).1 k' = enabled st.1 k'.
Proof.
  destruct st as [c kn]. unfold open_one.
  destruct (enabled c k); [|reflexivity].
  destruct (profilers c k !! pid); [reflexivity|].
  unfold newProfiler.
  destruct (new_ok w k pid); [|reflexivity].
  destruct (start_ok w k pid); [|reflexivity].
  apply enabled_set_profilers.
Qed.

Lemma open_one_events_sub (w : World) (k : Kind) (pid : Z) (st : perfCollector * Kernel)
    (k' : Kind) :
  events st.2 k' ⊆ events (open_one w k pid st).2 k'.
Proof.
  destruct st as [c kn]. unfold open_one.
  destruct (enabled c k); [|reflexivity].
  destruct (profilers c k !! pid); [reflexivity|].
  unfold newProfiler.
  destruct (new_ok w k pid); [|reflexivity].
  assert (Hsub : events kn k' ⊆ events (set_events kn k ({[pid]} ∪ events kn k)) k').
  { destruct (Kind_eq_dec k k') as [<-|Hne].
    - rewrite events_set_same. set_solver.
    - now rewrite events_set_other. }
  destruct (start_ok w k pid); exact Hsub.
Qed.

(** The three blocks of [openProfilers] for one PID. *)
Lemma open_pid_profilers (w : World) (pid : Z) (st : perfCollector * Kernel)
    (k : Kind) (pid' : Z) :
  pid' ∈ dom (profilers
                (open_one w Cache pid (open_one w Sw pid (open_one w Hw pid st))).1 k) <->
  pid' ∈ dom (profilers st.1 k) \/
  (pid' = pid /\ enabled st.1 k = true /\ open_ok w k pid = true).
Proof.
  rewrite !open_one_profilers, !open_one_enabled.
  destruct k; intuition congruence.
Qed.

Lemma open_pid_enabled (w : World) (pid : Z) (st : perfCollector * Kernel) (k : Kind) :
  enabled (open_one w Cache pid (open_one w Sw pid (open_one w Hw pid st))).1 k
  = enabled st.1 k.
Proof. now rewrite !open_one_enabled. Qed.

(** [openProfilers]: the PIDs it returns and the slots it leaves. *)
Lemma openProfilers_spec (w : World) (cgroups : list cgroup) (st : perfCollector * Kernel) :
  (openProfilers w cgroups st).2 = pids_of cgroups /\
  (forall k, enabled (openProfilers w cgroups st).1.1 k = enabled st.1 k) /\
  (forall k pid,
     pid ∈ dom (profilers (openProfilers w cgroups st).1.1 k) <->
     pid ∈ dom (profilers st.1 k) \/
     (pid ∈ pids_of cgroups /\ enabled st.1 k = true /\ open_ok w k pid = true)).
Proof.
  unfold openProfilers, pids_of.
  set (step := fun '(st, activePIDs) proc =>
                 (open_one w Cache (PID proc) (open_one w Sw (PID proc)
                    (open_one w Hw (PID proc) st)), activePIDs ++ [PID proc])).
  assert (Hgen : forall ps st0 act0,
             (fold_left step ps (st0, act0)).2 = act0 ++ map PID ps /\
             (forall k, enabled (fold_left step ps (st0, act0)).1.1 k = enabled st0.1 k) /\
             (forall k pid,
                pid ∈ dom (profilers (fold_left step ps (st0, act0)).1.1 k) <->
                pid ∈ dom (profilers st0.1 k) \/
                (pid ∈ map PID ps /\ enabled st0.1 k = true /\ open_ok w k pid = true))).
  { induction ps as [|proc ps IH]; intros st0 act0.
    - cbn. rewrite app_nil_r. split; [reflexivity|]. split; [reflexivity|].
      intros k pid. rewrite elem_of_nil. tauto.
    - cbn [fold_left step map].
      destruct (IH (open_one w Cache (PID proc) (open_one w Sw (PID proc)
                      (open_one w Hw (PID proc) st0))) (act0 ++ [PID proc]))
        as (Hact & Hen & Hdom).
      split; [|split].
      + rewrite Hact, <- app_assoc. reflexivity.
      + intros k. now rewrite Hen, open_pid_enabled.
      + intros k pid. rewrite Hdom, open_pid_profilers, open_pid_enabled, elem_of_cons.
        intuition congruence. }
  destruct (Hgen (flat_map procs cgroups) st []) as (Hact & Hen & Hdom).
  split; [exact Hact|]. split; [exact Hen | exact Hdom].
Qed.

(** [close_kind]: a slot goes exactly when the kind is enabled, the PID
    is not active and its profiler closes. *)
Lemma close_kind_profilers (w : World) (k : Kind) (activePIDs : list Z)
    (st : perfCollector * Kernel) (k' : Kind) (pid : Z) :
  pid ∈ dom (profilers (close_kind w k activePIDs st).1 k') <->
  pid ∈ dom (profilers st.1 k') /\
  ~ (k' = k /\ enabled st.1 k = true /\ pid ∉ activePIDs /\ close_ok w k pid = true).
Proof.
  destruct st as [c kn]. unfold close_kind. cbn [fst].
  destruct (enabled c k) eqn:Hen; [|cbn; intuition congruence].
  cbn [fst]. destruct (Kind_eq_dec k k') as [<-|Hne].
  - rewrite profilers_set_same, !elem_of_dom. unfold is_Some.
    setoid_rewrite map_lookup_filter_Some. cbn [fst].
    rewrite <- contains_false. split.
    + intros (p & Hp & Hgone). split; [now exists p | tauto].
    + intros ((p & Hp) & Hgone). exists p. split; [exact Hp | tauto].
  - rewrite profilers_set_other by exact Hne. intuition congruence.
Qed.

Lemma close_kind_events (w : World) (k : Kind) (activePIDs : list Z)
    (st : perfCollector * Kernel) (k' : Kind) (pid : Z) :
  pid ∈ events (close_kind w k activePIDs st).2 k' <->
  pid ∈ events st.2 k' /\
  ~ (k' = k /\ enabled st.1 k = true /\ pid ∈ dom (profilers st.1 k) /\
     pid ∉ activePIDs /\ close_ok w k pid = true).
Proof.
  destruct st as [c kn]. unfold close_kind. cbn [fst snd].
  destruct (enabled c k) eqn:Hen; [|cbn; intuition congruence].
  cbn [snd]. destruct (Kind_eq_dec k k') as [<-|Hne].
  - rewrite events_set_same, elem_of_difference, elem_of_filter, <- contains_false.
    tauto.
  - rewrite events_set_other by exact Hne. intuition congruence.
Qed.

Lemma close_kind_enabled (w : World) (k : Kind) (activePIDs : list Z)
    (st : perfCollector * Kernel) (k' : Kind) :
  enabled (close_kind w k activePIDs st).1 k' = enabled st.1 k'.
Proof.
  destruct st as [c kn]. unfold close_kind.
  destruct (enabled c k); [apply enabled_set_profilers | reflexivity].
Qed.

(** The package-level [closeProfilers]. *)
Lemma closeProfilers_ctx_profilers (w : World) (activePIDs : list Z)
    (st : perfCollector * Kernel) (k : Kind) (pid : Z) :
  pid ∈ dom (profilers (closeProfilers_ctx w activePIDs st).1 k) <->
  pid ∈ dom (profilers st.1 k) /\
  ~ (enabled st.1 k = true /\ pid ∉ activePIDs /\ close_ok w k pid = true).
Proof.
  unfold closeProfilers_ctx.
  rewrite !close_kind_profilers, !close_kind_enabled.
  destruct k; intuition congruence.
Qed.

Lemma closeProfilers_ctx_events (w : World) (activePIDs : list Z)
    (st : perfCollector * Kernel) (k : Kind) (pid : Z) :
  pid ∈ events (closeProfilers_ctx w activePIDs st).2 k <->
  pid ∈ events st.2 k /\
  ~ (enabled st.1 k = true /\ pid ∈ dom (profilers st.1 k) /\
     pid ∉ activePIDs /\ close_ok w k pid = true).
Proof.
  unfold closeProfilers_ctx.
  rewrite !close_kind_events, !close_kind_enabled, !close_kind_profilers.
  destruct k; intuition congruence.
Qed.





(** Reading the counters leaves the profiler tables alone. *)
Lemma updateHardwareCounters_profilers (w : World) (c : perfCollector) (cgroupID : string)
    (ps : list Proc) (k : Kind) :
  profilers (updateHardwareCounters w c cgroupID ps).1 k = profilers c k /\
  opts (updateHardwareCounters w c cgroupID ps).1 = opts c.
Proof.
  unfold updateHardwareCounters. destruct (negb _); [now split|].
  destruct (agg_scaled _ _ _ _) as [[raw scaled] counters].
  split; [now destruct k | reflexivity].
Qed.

Lemma updateSoftwareCounters_same (w : World) (c : perfCollector) (cgroupID : string)
    (ps : list Proc) :
  (updateSoftwareCounters w c cgroupID ps).1 = c.
Proof. unfold updateSoftwareCounters. now destruct (negb _). Qed.

Lemma updateCacheCounters_profilers (w : World) (c : perfCollector) (cgroupID : string)
    (ps : list Proc) (k : Kind) :
  profilers (updateCacheCounters w c cgroupID ps).1 k = profilers c k /\
  opts (updateCacheCounters w c cgroupID ps).1 = opts c.
Proof.
  unfold updateCacheCounters. destruct (negb _); [now split|].
  destruct (agg_scaled _ _ _ _) as [[raw scaled] counters].
  split; [now destruct k | reflexivity].
Qed.

Lemma update_cgroup_fst (w : World) (c : perfCollector) (cg : cgroup) :
  (update_cgroup w c cg).1 =
  (updateCacheCounters w
     (updateSoftwareCounters w
        (updateHardwareCounters w c (uuid cg) (procs cg)).1 (uuid cg) (procs cg)).1
     (uuid cg) (procs cg)).1.
Proof.
  unfold update_cgroup.
  destruct (updateHardwareCounters w c (uuid cg) (procs cg)) as [c1 m1]. cbn [fst].
  destruct (updateSoftwareCounters w c1 (uuid cg) (procs cg)) as [c2 m2]. cbn [fst].
  now destruct (updateCacheCounters w c2 (uuid cg) (procs cg)) as [c3 m3].
Qed.

Lemma update_cgroups_fst (w : World) (c : perfCollector) (cgroups : list cgroup) :
  (update_cgroups w c cgroups).1 =
  fold_left (fun c cg => (update_cgroup w c cg).1) cgroups c.
Proof.
  unfold update_cgroups. generalize (@nil Prom.Metric) as ch. revert c.
  induction cgroups as [|cg cgs IH]; intros c ch; [reflexivity|].
  cbn [fold_left]. destruct (update_cgroup w c cg) as [c1 ms]. cbn [fst]. apply IH.
Qed.

Lemma update_cgroup_profilers (w : World) (c : perfCollector) (cg : cgroup) (k : Kind) :
  profilers (update_cgroup w c cg).1 k = profilers c k /\
  opts (update_cgroup w c cg).1 = opts c.
Proof.
  rewrite update_cgroup_fst.
  destruct (updateCacheCounters_profilers w
              (updateSoftwareCounters w
                 (updateHardwareCounters w c (uuid cg) (procs cg)).1 (uuid cg) (procs cg)).1
              (uuid cg) (procs cg) k) as [-> ->].
  rewrite updateSoftwareCounters_same.
  apply updateHardwareCounters_profilers.
Qed.

Lemma update_cgroups_profilers (w : World) (c : perfCollector) (cgroups : list cgroup)
    (k : Kind) :
  profilers (update_cgroups w c cgroups).1 k = profilers c k /\
  opts (update_cgroups w c cgroups).1 = opts c.
Proof.
  rewrite update_cgroups_fst. revert c.
  induction cgroups as [|cg cgs IH]; intros c; [now split|].
  cbn [fold_left]. destruct (IH (update_cgroup w c cg).1) as [-> ->].
  apply update_cgroup_profilers.
Qed.

End ProfilerFacts.

(** ** The perf collector: snapshot tables *)

Section SnapshotFacts.
Import Cgroups Float64 Perf.











Lemma updateCacheCounters_hw_tables (w : World) (c : perfCollector) (cgroupID : string)
    (ps : list Proc) :
  lastRawHwCounters (updateCacheCounters w c cgroupID ps).1 = lastRawHwCounters c /\
  lastScaledHwCounters (updateCacheCounters w c cgroupID ps).1 = lastScaledHwCounters c.
Proof.
  unfold updateCacheCounters. destruct (negb _); [now split|].
  now destruct (agg_scaled _ _ _ _) as [[raw scaled] counters].
Qed.

Lemma updateHardwareCounters_cache_tables (w : World) (c : perfCollector)
    (cgroupID : string) (ps : list Proc) :
  lastRawCacheCounters (updateHardwareCounters w c cgroupID ps).1 = lastRawCacheCounters c /\
  lastScaledCacheCounters (updateHardwareCounters w c cgroupID ps).1
  = lastScaledCacheCounters c.
Proof.
  unfold updateHardwareCounters. destruct (negb _); [now split|].
  now destruct (agg_scaled _ _ _ _) as [[raw scaled] counters].
Qed.




End SnapshotFacts.

(** ** The running sums of the perf counters *)

Section CounterFacts.
Import Cgroups Float64 Perf.

Lemma table_good_spec (t : ScaledTable) :
  table_good t = true <-> forall pid name, good (scaled_get t pid name) = true.
Proof.
  unfold table_good, scaled_get. rewrite List.forallb_forall. split.
  - intros H pid name. destruct (t !! pid) as [m|] eqn:Et; [|reflexivity].
    cbn [from_option Datatypes.id]. destruct (m !! name) as [v|] eqn:Em; [|reflexivity].
    apply elem_of_map_to_list, list_elem_of_In in Et, Em.
    specialize (H (pid, m) Et). cbn beta iota in H. rewrite List.forallb_forall in H.
    exact (H (name, v) Em).
  - intros H [pid m] Hin. apply List.forallb_forall. intros [name v] Hin'.
    apply list_elem_of_In, elem_of_map_to_list in Hin, Hin'.
    specialize (H pid name). rewrite Hin in H. cbn [from_option Datatypes.id] in H. now rewrite Hin' in H.
Qed.

Lemma lookup_table_set {V : Type} (t : gmap Z (gmap string V)) (pid : Z) (name : string)
    (v : V) (pid' : Z) (name' : string) :
  default ∅ (table_set t pid name v !! pid') !! name' =
  if decide (pid' = pid /\ name' = name) then Some v else default ∅ (t !! pid') !! name'.
Proof.
  unfold table_set. destruct (decide (pid' = pid)) as [->|Hp].
  - rewrite lookup_insert_eq. cbn [from_option Datatypes.id]. destruct (decide (name' = name)) as [->|Hn].
    + rewrite lookup_insert_eq, decide_True by auto. reflexivity.
    + rewrite lookup_insert_ne by congruence. rewrite decide_False by tauto. reflexivity.
  - rewrite lookup_insert_ne by congruence. rewrite decide_False by tauto. reflexivity.
Qed.

Lemma lookup_table_touch {V : Type} (t : gmap Z (gmap string V)) (pid pid' : Z) :
  default ∅ (table_touch t pid !! pid') = default ∅ (t !! pid').
Proof.
  unfold table_touch. destruct (t !! pid) as [m|] eqn:E; [reflexivity|].
  destruct (decide (pid' = pid)) as [->|Hp].
  - now rewrite lookup_insert_eq, E.
  - now rewrite lookup_insert_ne by congruence.
Qed.

Lemma lookup_touch_all {V : Type} (ps : list Proc) (t : gmap Z (gmap string V)) (pid : Z) :
  default ∅ (touch_all ps t !! pid) = default ∅ (t !! pid).
Proof.
  unfold touch_all. revert t. induction ps as [|p ps IH]; intros t; cbn [fold_left].
  - reflexivity.
  - now rewrite IH, lookup_table_touch.
Qed.

Lemma lookup_evict {V : Type} (activePIDs : list Z) (t : gmap Z V) (pid : Z) :
  evict activePIDs t !! pid = if contains activePIDs pid then t !! pid else None.
Proof.
  unfold evict. destruct (contains activePIDs pid) eqn:E.
  - destruct (t !! pid) as [v|] eqn:Et.
    + apply map_lookup_filter_Some. now split.
    + apply map_lookup_filter_None. left. exact Et.
  - apply map_lookup_filter_None. right. intros v _. cbn [fst]. congruence.
Qed.

Lemma scaled_get_table_set (t : ScaledTable) (pid : Z) (name : string) (v : float64)
    (pid' : Z) (name' : string) :
  scaled_get (table_set t pid name v) pid' name' =
  if decide (pid' = pid /\ name' = name) then v else scaled_get t pid' name'.
Proof. unfold scaled_get. rewrite lookup_table_set. now destruct (decide _). Qed.

Lemma raw_get_table_set (t : RawTable) (pid : Z) (name : string) (v : ProfileValue)
    (pid' : Z) (name' : string) :
  raw_get (table_set t pid name v) pid' name' =
  if decide (pid' = pid /\ name' = name) then v else raw_get t pid' name'.
Proof. unfold raw_get. rewrite lookup_table_set. now destruct (decide _). Qed.

Lemma scaled_get_touch_all (ps : list Proc) (t : ScaledTable) (pid : Z) (name : string) :
  scaled_get (touch_all ps t) pid name = scaled_get t pid name.
Proof. unfold scaled_get. now rewrite lookup_touch_all. Qed.

Lemma raw_get_touch_all (ps : list Proc) (t : RawTable) (pid : Z) (name : string) :
  raw_get (touch_all ps t) pid name = raw_get t pid name.
Proof. unfold raw_get. now rewrite lookup_touch_all. Qed.

Lemma scaled_get_evict (activePIDs : list Z) (t : ScaledTable) (pid : Z) (name : string) :
  scaled_get (evict activePIDs t) pid name =
  if contains activePIDs pid then scaled_get t pid name else fzero.
Proof. unfold scaled_get. rewrite lookup_evict. now destruct (contains activePIDs pid). Qed.

Lemma raw_get_evict (activePIDs : list Z) (t : RawTable) (pid : Z) (name : string) :
  raw_get (evict activePIDs t) pid name =
  if contains activePIDs pid then raw_get t pid name else zeroProfileValue.
Proof. unfold raw_get. rewrite lookup_evict. now destruct (contains activePIDs pid). Qed.

(** One counter of one process: the running sum of that counter goes
    up, or stays; no other running sum changes. *)
Lemma agg_counter_grows (pid : Z) (name : string) (pv : ProfileValue)
    (raw : RawTable) (scaled : ScaledTable) (cnt : gmap string float64) :
  (forall p n, good (scaled_get scaled p n) = true) ->
  (forall p n, good (scaled_get (agg_counter pid name pv (raw, scaled, cnt)).1.2 p n) = true) /\
  (forall p n, fge (scaled_get (agg_counter pid name pv (raw, scaled, cnt)).1.2 p n)
                   (scaled_get scaled p n) = true).
Proof.
  intros Hgood. unfold agg_counter. cbn [fst snd].
  destruct (fadd_ge (scaled_get scaled pid name)
              (scaleCounter (raw_get raw pid name) pv) (Hgood pid name)
              (scaleCounter_good _ _)) as [Hg Hle].
  split; intros p n; rewrite scaled_get_table_set;
    destruct (decide (p = pid /\ n = name)) as [[-> ->]|_]; try assumption.
  - apply Hgood.
  - apply fge_refl, Hgood.
Qed.

Lemma agg_profile_grows (pid : Z) (fields : list (string * option ProfileValue))
    (st : RawTable * ScaledTable * gmap string float64) :
  (forall p n, good (scaled_get st.1.2 p n) = true) ->
  (forall p n, good (scaled_get (agg_profile pid fields st).1.2 p n) = true) /\
  (forall p n, fge (scaled_get (agg_profile pid fields st).1.2 p n)
                   (scaled_get st.1.2 p n) = true).
Proof.
  unfold agg_profile. revert st.
  induction fields as [|[name [pv|]] fields IH]; intros st Hgood; cbn [fold_left].
  - split; [exact Hgood | intros p n; apply fge_refl, Hgood].
  - destruct st as [[raw scaled] cnt]. cbn [fst snd] in Hgood.
    destruct (agg_counter_grows pid name pv raw scaled cnt Hgood) as [Hg1 Hle1].
    destruct (IH _ Hg1) as [Hg2 Hle2]. split; [exact Hg2|].
    intros p n. cbn [fst snd].
    eapply fge_trans; [apply Hgood | apply Hg1 | apply Hg2 | apply Hle1 | apply Hle2].
  - now apply IH.
Qed.

Lemma agg_scaled_grows {P : Type} (counters : P -> list (string * option ProfileValue))
    (profiles : list (Z * P)) (lastRaw : RawTable) (lastScaled : ScaledTable) :
  (forall p n, good (scaled_get lastScaled p n) = true) ->
  (forall p n,
     good (scaled_get (agg_scaled counters profiles lastRaw lastScaled).1.2 p n) = true) /\
  (forall p n, fge (scaled_get (agg_scaled counters profiles lastRaw lastScaled).1.2 p n)
                   (scaled_get lastScaled p n) = true).
Proof.
  unfold agg_scaled, agg_profiles. generalize (∅ : gmap string float64) as cnt.
  revert lastRaw lastScaled.
  induction profiles as [|[pid profile] profiles IH]; intros raw scaled cnt Hgood;
    cbn [fold_left].
  - split; [exact Hgood | intros p n; apply fge_refl, Hgood].
  - destruct (agg_profile_grows pid (counters profile) (raw, scaled, cnt) Hgood)
      as [Hg1 Hle1].
    destruct (agg_profile pid (counters profile) (raw, scaled, cnt)) as [[raw1 scaled1] cnt1].
    cbn [fst snd] in Hg1, Hle1.
    destruct (IH raw1 scaled1 cnt1 Hg1) as [Hg2 Hle2]. split; [exact Hg2|].
    intros p n. eapply fge_trans; [apply Hgood | apply Hg1 | apply Hg2 | apply Hle1 | apply Hle2].
Qed.

Lemma tables_good_spec (c : perfCollector) :
  tables_good c = true <->
  (forall p n, good (scaled_get (lastScaledHwCounters c) p n) = true) /\
  (forall p n, good (scaled_get (lastScaledCacheCounters c) p n) = true).
Proof. unfold tables_good. now rewrite andb_true_iff, !table_good_spec. Qed.

(** [updateHardwareCounters]: the running sums of the processes of the
    cgroup go up, or stay. *)
Lemma updateHardwareCounters_grows (w : World) (c : perfCollector) (cgroupID : string)
    (ps : list Proc) :
  (forall p n, good (scaled_get (lastScaledHwCounters c) p n) = true) ->
  (forall p n,
     good (scaled_get (lastScaledHwCounters (updateHardwareCounters w c cgroupID ps).1) p n)
     = true) /\
  (forall p n, p ∈ map PID ps ->
     fge (scaled_get (lastScaledHwCounters (updateHardwareCounters w c cgroupID ps).1) p n)
         (scaled_get (lastScaledHwCounters c) p n) = true).
Proof.
  intros Hgood. unfold updateHardwareCounters. destruct (negb _).
  - cbn [fst]. split; [exact Hgood | intros p n _; apply fge_refl, Hgood].
  - destruct (agg_scaled_grows hw_counters
                (map_to_list (read_profiles (perfHwProfilers c) (read_hw w) ps))
                (touch_all ps (lastRawHwCounters c)) (touch_all ps (lastScaledHwCounters c)))
      as [Hg Hle].
    { intros p n. rewrite scaled_get_touch_all. apply Hgood. }
    destruct (agg_scaled _ _ _ _) as [[raw scaled] counters].
    cbn [fst snd set_hw_counters lastScaledHwCounters] in *.
    split; [intros p n | intros p n Hin]; rewrite scaled_get_evict.
    + destruct (contains (map PID ps) p); [apply Hg | reflexivity].
    + apply contains_elem_of in Hin. rewrite Hin.
      specialize (Hle p n). now rewrite scaled_get_touch_all in Hle.
Qed.

Lemma updateCacheCounters_grows (w : World) (c : perfCollector) (cgroupID : string)
    (ps : list Proc) :
  (forall p n, good (scaled_get (lastScaledCacheCounters c) p n) = true) ->
  (forall p n,
     good (scaled_get (lastScaledCacheCounters (updateCacheCounters w c cgroupID ps).1) p n)
     = true) /\
  (forall p n, p ∈ map PID ps ->
     fge (scaled_get (lastScaledCacheCounters (updateCacheCounters w c cgroupID ps).1) p n)
         (scaled_get (lastScaledCacheCounters c) p n) = true).
Proof.
  intros Hgood. unfold updateCacheCounters. destruct (negb _).
  - cbn [fst]. split; [exact Hgood | intros p n _; apply fge_refl, Hgood].
  - destruct (agg_scaled_grows cache_counters
                (map_to_list (read_profiles (perfCacheProfilers c) (read_cache w) ps))
                (evict (map PID ps) (touch_all ps (lastRawCacheCounters c)))
                (evict (map PID ps) (touch_all ps (lastScaledCacheCounters c))))
      as [Hg Hle].
    { intros p n. rewrite scaled_get_evict, scaled_get_touch_all.
      destruct (contains (map PID ps) p); [apply Hgood | reflexivity]. }
    destruct (agg_scaled _ _ _ _) as [[raw scaled] counters].
    cbn [fst snd set_cache_counters lastScaledCacheCounters] in *.
    split; [exact Hg | intros p n Hin].
    apply contains_elem_of in Hin. specialize (Hle p n).
    now rewrite scaled_get_evict, Hin, scaled_get_touch_all in Hle.
Qed.

Lemma update_cgroup_grows (w : World) (c : perfCollector) (cg : cgroup) :
  tables_good c = true ->
  tables_good (update_cgroup w c cg).1 = true /\
  (forall p n, p ∈ map PID (procs cg) ->
     fge (scaled_get (lastScaledHwCounters (update_cgroup w c cg).1) p n)
         (scaled_get (lastScaledHwCounters c) p n) = true /\
     fge (scaled_get (lastScaledCacheCounters (update_cgroup w c cg).1) p n)
         (scaled_get (lastScaledCacheCounters c) p n) = true).
Proof.
  rewrite !tables_good_spec. intros [Hhw Hcache].
  rewrite update_cgroup_fst, updateSoftwareCounters_same.
  set (c1 := (updateHardwareCounters w c (uuid cg) (procs cg)).1).
  destruct (updateCacheCounters_hw_tables w c1 (uuid cg) (procs cg)) as [_ ->].
  destruct (updateHardwareCounters_cache_tables w c (uuid cg) (procs cg)) as [_ Hsame].
  fold c1 in Hsame.
  destruct (updateHardwareCounters_grows w c (uuid cg) (procs cg) Hhw) as [Hg1 Hle1].
  fold c1 in Hg1, Hle1.
  destruct (updateCacheCounters_grows w c1 (uuid cg) (procs cg)) as [Hg2 Hle2].
  { now rewrite Hsame. }
  rewrite Hsame in Hle2.
  split; [split; assumption|]. intros p n Hin. split; [now apply Hle1 | now apply Hle2].
Qed.

Lemma update_cgroups_good (w : World) (c : perfCollector) (cgroups : list cgroup) :
  tables_good c = true -> tables_good (update_cgroups w c cgroups).1 = true.
Proof.
  rewrite update_cgroups_fst. revert c.
  induction cgroups as [|cg cgs IH]; intros c Hgood; cbn [fold_left]; [exact Hgood|].
  apply IH. now apply update_cgroup_grows.
Qed.

(** Opening and closing profilers leaves alone whatever of the
    collector is not a profiler table. *)
Lemma open_one_keeps {T : Type} (f : perfCollector -> T) (w : World) (k : Kind) (pid : Z)
    (st : perfCollector * Kernel) :
  (forall c k t, f (set_profilers c k t) = f c) ->
  f (open_one w k pid st).1 = f st.1.
Proof.
  intros Hf. destruct st as [c kn]. unfold open_one.
  destruct (enabled c k); [|reflexivity].
  destruct (profilers c k !! pid); [reflexivity|].
  unfold newProfiler.
  destruct (new_ok w k pid); [|reflexivity].
  destruct (start_ok w k pid); [apply Hf | reflexivity].
Qed.

Lemma openProfilers_keeps {T : Type} (f : perfCollector -> T) (w : World)
    (cgroups : list cgroup) (st : perfCollector * Kernel) :
  (forall c k t, f (set_profilers c k t) = f c) ->
  f (openProfilers w cgroups st).1.1 = f st.1.
Proof.
  intros Hf. unfold openProfilers.
  set (step := fun '(st, activePIDs) proc =>
                 (open_one w Cache (PID proc) (open_one w Sw (PID proc)
                    (open_one w Hw (PID proc) st)), activePIDs ++ [PID proc])).
  assert (Hgen : forall ps st0 (act0 : list Z),
             f (fold_left step ps (st0, act0)).1.1 = f st0.1).
  { induction ps as [|p ps IH]; intros st0 act0; [reflexivity|].
    cbn [fold_left step]. rewrite IH. now rewrite !open_one_keeps. }
  apply Hgen.
Qed.

Lemma close_kind_keeps {T : Type} (f : perfCollector -> T) (w : World) (k : Kind)
    (activePIDs : list Z) (st : perfCollector * Kernel) :
  (forall c k t, f (set_profilers c k t) = f c) ->
  f (close_kind w k activePIDs st).1 = f st.1.
Proof.
  intros Hf. destruct st as [c kn]. unfold close_kind.
  destruct (enabled c k); [apply Hf | reflexivity].
Qed.

Lemma Update_keeps (w : World) (c : perfCollector) (kn : Kernel)
    (cgroups cgs : list cgroup) (c' : perfCollector) (kn' : Kernel) (ch : list Prom.Metric) :
  discover w c cgroups = Some cgs ->
  Update w (c, kn) cgroups = Some (c', kn', ch) ->
  exists c2,
    c' = (update_cgroups w c2 cgs).1 /\
    forall (T : Type) (f : perfCollector -> T),
      (forall c k t, f (set_profilers c k t) = f c) -> f c2 = f c.
Proof.
  intros Hd. unfold Update. cbn [fst]. rewrite Hd.
  destruct (newProfilers w cgs (c, kn)) as [st1 act] eqn:E1.
  destruct (closeProfilers w act st1) as [c2 kn2] eqn:E2.
  destruct (update_cgroups w c2 cgs) as [c3 ch3] eqn:E3.
  intros H. injection H as <- <- <-. exists c2. split; [now rewrite E3|].
  intros T f Hf.
  assert (H2 : f c2 = f st1.1).
  { change c2 with (c2, kn2).1. rewrite <- E2. unfold closeProfilers.
    destruct (exec_ok w perfCloseProfilersCtx); [|reflexivity].
    unfold closeProfilers_ctx. now rewrite !close_kind_keeps. }
  rewrite H2. change st1 with (st1, act).1. rewrite <- E1. unfold newProfilers.
  destruct (exec_ok w perfOpenProfilersCtx); [|reflexivity].
  now apply openProfilers_keeps.
Qed.

(** *** The value of a running sum after an aggregation *)

Lemma agg_profile_other (pid : Z) (fields : list (string * option ProfileValue))
    (st : RawTable * ScaledTable * gmap string float64) (p : Z) (n : string) :
  p <> pid \/ (forall pv, (n, Some pv) ∉ fields) ->
  scaled_get (agg_profile pid fields st).1.2 p n = scaled_get st.1.2 p n /\
  raw_get (agg_profile pid fields st).1.1 p n = raw_get st.1.1 p n.
Proof.
  unfold agg_profile. revert st.
  induction fields as [|[name [pv|]] fields IH]; intros st Hother; cbn [fold_left].
  - now split.
  - destruct (IH (agg_counter pid name pv st)) as [-> ->].
    { destruct Hother as [H|H]; [now left | right].
      intros pv' Hin. apply (H pv'). apply elem_of_cons; now right. }
    destruct st as [[raw scaled] cnt]. unfold agg_counter. cbn [fst snd].
    rewrite scaled_get_table_set, raw_get_table_set.
    destruct (decide (p = pid /\ n = name)) as [[-> ->]|_]; [|now split].
    destruct Hother as [H|H]; [congruence|]. exfalso. apply (H pv). apply elem_of_cons; now left.
  - apply IH. destruct Hother as [H|H]; [now left | right].
    intros pv' Hin. apply (H pv'). apply elem_of_cons; now right.
Qed.

Lemma agg_profile_counters_other (pid : Z) (fields : list (string * option ProfileValue))
    (st : RawTable * ScaledTable * gmap string float64) (n : string) :
  (forall pv, (n, Some pv) ∉ fields) ->
  (agg_profile pid fields st).2 !! n = st.2 !! n.
Proof.
  unfold agg_profile. revert st.
  induction fields as [|[name [pv|]] fields IH]; intros st Hother; cbn [fold_left].
  - reflexivity.
  - rewrite IH by (intros pv' Hin; apply (Hother pv'); apply elem_of_cons; now right).
    destruct st as [[raw scaled] cnt]. unfold agg_counter. cbn [snd].
    apply lookup_insert_ne. intros <-. apply (Hother pv). apply elem_of_cons; now left.
  - apply IH. intros pv' Hin. apply (Hother pv'). apply elem_of_cons; now right.
Qed.

(** A counter the profile holds: its running sum gets the contribution
    of the interval, its snapshot becomes the reading, and the running
    sum is added to the counter of the cgroup. *)
Lemma agg_profile_value (pid : Z) (fields : list (string * option ProfileValue))
    (st : RawTable * ScaledTable * gmap string float64) (n : string) (pv : ProfileValue) :
  NoDup fields.*1 -> (n, Some pv) ∈ fields ->
  let scaledCounter :=
    fadd (scaled_get st.1.2 pid n) (scaleCounter (raw_get st.1.1 pid n) pv) in
  scaled_get (agg_profile pid fields st).1.2 pid n = scaledCounter /\
  raw_get (agg_profile pid fields st).1.1 pid n = pv /\
  (agg_profile pid fields st).2 !! n = Some (fadd (default fzero (st.2 !! n)) scaledCounter).
Proof.
  unfold agg_profile. revert st.
  induction fields as [|[name field] fields IH]; intros st Hnd Hin; cbn [fold_left].
  - now apply elem_of_nil in Hin.
  - rewrite fmap_cons in Hnd. cbn [fst] in Hnd. apply NoDup_cons in Hnd.
    destruct Hnd as [Hfresh Hnd]. apply elem_of_cons in Hin.
    destruct Hin as [Heq|Hin].
    + injection Heq as <- <-.
      assert (Hno : forall pv', (n, Some pv') ∉ fields).
      { intros pv' Hin. apply Hfresh. apply list_elem_of_fmap. now exists (n, Some pv'). }
      fold (agg_profile pid fields (agg_counter pid n pv st)).
      destruct (agg_profile_other pid fields (agg_counter pid n pv st) pid n) as [-> ->];
        [now right|].
      rewrite agg_profile_counters_other by exact Hno.
      destruct st as [[raw scaled] cnt]. unfold agg_counter. cbn [fst snd].
      rewrite scaled_get_table_set, raw_get_table_set, lookup_insert_eq.
      rewrite !decide_True by auto. now repeat split.
    + assert (Hne : n <> name).
      { intros ->. apply Hfresh. apply list_elem_of_fmap. now exists (name, Some pv). }
      destruct field as [pv0|]; [|now apply IH].
      destruct (IH (agg_counter pid name pv0 st) Hnd Hin) as (H1 & H2 & H3).
      cbv zeta in H1, H3. rewrite H1, H2, H3.
      destruct st as [[raw scaled] cnt]. unfold agg_counter. cbn [fst snd].
      rewrite scaled_get_table_set, raw_get_table_set, lookup_insert_ne by congruence.
      rewrite !decide_False by tauto. now repeat split.
Qed.

Lemma agg_profiles_other {P : Type} (counters : P -> list (string * option ProfileValue))
    (profiles : list (Z * P)) (st : RawTable * ScaledTable * gmap string float64)
    (p : Z) (n : string) :
  (forall profile pv, (p, profile) ∈ profiles -> (n, Some pv) ∉ counters profile) ->
  scaled_get (agg_profiles counters profiles st).1.2 p n = scaled_get st.1.2 p n /\
  raw_get (agg_profiles counters profiles st).1.1 p n = raw_get st.1.1 p n.
Proof.
  unfold agg_profiles. revert st.
  induction profiles as [|[pid profile] profiles IH]; intros st Hother; cbn [fold_left].
  - now split.
  - destruct (agg_profile_other pid (counters profile) st p n) as [H1 H2].
    { destruct (decide (p = pid)) as [->|Hne]; [right | now left].
      intros pv. apply (Hother profile pv). apply elem_of_cons. now left. }
    rewrite <- H1, <- H2. apply IH.
    intros profile' pv Hin. apply Hother. apply elem_of_cons. now right.
Qed.

Lemma agg_profiles_value {P : Type} (counters : P -> list (string * option ProfileValue))
    (profiles : list (Z * P)) (st : RawTable * ScaledTable * gmap string float64)
    (pid : Z) (profile : P) (n : string) (pv : ProfileValue) :
  NoDup profiles.*1 -> (forall profile, NoDup (counters profile).*1) ->
  (pid, profile) ∈ profiles -> (n, Some pv) ∈ counters profile ->
  scaled_get (agg_profiles counters profiles st).1.2 pid n
  = fadd (scaled_get st.1.2 pid n) (scaleCounter (raw_get st.1.1 pid n) pv) /\
  raw_get (agg_profiles counters profiles st).1.1 pid n = pv.
Proof.
  intros Hnd Hnames. unfold agg_profiles. revert st Hnd.
  induction profiles as [|[pid0 profile0] profiles IH]; intros st Hnd Hin Hfield;
    cbn [fold_left].
  - now apply elem_of_nil in Hin.
  - rewrite fmap_cons in Hnd. cbn [fst] in Hnd. apply NoDup_cons in Hnd.
    destruct Hnd as [Hfresh Hnd]. apply elem_of_cons in Hin. destruct Hin as [Heq|Hin].
    + injection Heq as <- <-.
      destruct (agg_profile_value pid (counters profile) st n pv (Hnames profile) Hfield)
        as (H1 & H2 & _).
      cbv zeta in H1. rewrite <- H1, <- H2.
      apply (agg_profiles_other counters profiles).
      intros profile' pv' Hin'. exfalso. apply Hfresh.
      apply list_elem_of_fmap. now exists (pid, profile').
    + assert (Hne : pid <> pid0).
      { intros ->. apply Hfresh. apply list_elem_of_fmap. now exists (pid0, profile). }
      destruct (agg_profile_other pid0 (counters profile0) st pid n) as [H1 H2];
        [now left|].
      rewrite <- H1, <- H2. now apply IH.
Qed.

Lemma hw_counters_NoDup (p : HardwareProfile) : NoDup (hw_counters p).*1.
Proof. apply (bool_decide_unpack _). reflexivity. Qed.

Lemma cache_counters_NoDup (p : CacheProfile) : NoDup (cache_counters p).*1.
Proof. apply (bool_decide_unpack _). reflexivity. Qed.

(** The profiles read for a cgroup: those of its processes that have a
    profiler whose [Profile()] succeeds. *)
Lemma read_profiles_lookup {P : Type} (table : gmap Z Profiler) (read : Z -> option P)
    (ps : list Proc) (pid : Z) :
  read_profiles table read ps !! pid =
  if decide (pid ∈ map PID ps)
  then match table !! pid with Some _ => read pid | None => None end
  else None.
Proof.
  unfold read_profiles.
  set (step := fun (profiles : gmap Z P) proc =>
                 match table !! PID proc with
                 | Some _ =>
                     match read (PID proc) with
                     | Some profile => <[PID proc := profile]> profiles
                     | None => profiles
                     end
                 | None => profiles
                 end).
  assert (Hgen : forall m : gmap Z P,
             fold_left step ps m !! pid =
             if decide (pid ∈ map PID ps)
             then match table !! pid, read pid with
                  | Some _, Some profile => Some profile
                  | _, _ => m !! pid
                  end
             else m !! pid).
  { induction ps as [|p ps IH]; intros m; cbn [fold_left map].
    - rewrite decide_False by apply not_elem_of_nil. reflexivity.
    - rewrite IH.
      assert (Hs : step m p !! pid =
                   if decide (pid = PID p)
                   then match table !! pid, read pid with
                        | Some _, Some profile => Some profile
                        | _, _ => m !! pid
                        end
                   else m !! pid).
      { unfold step. destruct (decide (pid = PID p)) as [->|Hne].
        - destruct (table !! PID p); [|reflexivity].
          destruct (read (PID p)); [|reflexivity]. apply lookup_insert_eq.
        - destruct (table !! PID p); [|reflexivity].
          destruct (read (PID p)); [|reflexivity]. now apply lookup_insert_ne. }
      rewrite Hs. clear Hs.
      destruct (decide (pid = PID p)) as [Heq|Hne].
      + rewrite (decide_True (P := pid ∈ PID p :: map PID ps))
          by (apply elem_of_cons; now left).
        destruct (decide (pid ∈ map PID ps)); [|reflexivity].
        destruct (table !! pid); [|reflexivity]. now destruct (read pid).
      + destruct (decide (pid ∈ map PID ps)) as [Hin|Hout].
        * rewrite decide_True by (apply elem_of_cons; now right). reflexivity.
        * rewrite decide_False; [reflexivity|].
          intros Hin. apply elem_of_cons in Hin. tauto. }
  rewrite Hgen, lookup_empty.
  destruct (decide _); [|reflexivity]. destruct (table !! pid); [|reflexivity].
  now destruct (read pid).
Qed.

(** [updateHardwareCounters] on a process that is read: the running
    sum of a counter of the profile gets the contribution of the
    interval since the last snapshot. *)
Lemma updateHardwareCounters_value (w : World) (c : perfCollector) (cgroupID : string)
    (ps : list Proc) (pid : Z) (profile : HardwareProfile) (n : string)
    (pv : ProfileValue) :
  perfHwProfilersEnabled (opts c) = true ->
  pid ∈ map PID ps -> pid ∈ dom (perfHwProfilers c) -> read_hw w pid = Some profile ->
  (n, Some pv) ∈ hw_counters profile ->
  scaled_get (lastScaledHwCounters (updateHardwareCounters w c cgroupID ps).1) pid n
  = fadd (scaled_get (lastScaledHwCounters c) pid n)
         (scaleCounter (raw_get (lastRawHwCounters c) pid n) pv) /\
  raw_get (lastRawHwCounters (updateHardwareCounters w c cgroupID ps).1) pid n = pv.
Proof.
  intros Hen Hin Hprof Hread Hfield. unfold updateHardwareCounters. rewrite Hen.
  cbn [negb]. unfold agg_scaled.
  set (hwProfiles := read_profiles (perfHwProfilers c) (read_hw w) ps).
  assert (Hp : (pid, profile) ∈ map_to_list hwProfiles).
  { apply elem_of_map_to_list. unfold hwProfiles. rewrite read_profiles_lookup.
    rewrite decide_True by exact Hin. apply elem_of_dom in Hprof.
    destruct Hprof as [x ->]. exact Hread. }
  destruct (agg_profiles_value hw_counters (map_to_list hwProfiles)
              (touch_all ps (lastRawHwCounters c), touch_all ps (lastScaledHwCounters c), ∅)
              pid profile n pv (NoDup_fst_map_to_list _) hw_counters_NoDup Hp Hfield)
    as [H1 H2].
  destruct (agg_profiles _ _ _) as [[raw scaled] counters].
  cbn [fst snd set_hw_counters lastScaledHwCounters lastRawHwCounters] in *.
  apply contains_elem_of in Hin.
  rewrite scaled_get_evict, raw_get_evict, Hin, H1, H2.
  now rewrite scaled_get_touch_all, raw_get_touch_all.
Qed.

Lemma updateCacheCounters_value (w : World) (c : perfCollector) (cgroupID : string)
    (ps : list Proc) (pid : Z) (profile : CacheProfile) (n : string)
    (pv : ProfileValue) :
  perfCacheProfilersEnabled (opts c) = true ->
  pid ∈ map PID ps -> pid ∈ dom (perfCacheProfilers c) -> read_cache w pid = Some profile ->
  (n, Some pv) ∈ cache_counters profile ->
  scaled_get (lastScaledCacheCounters (updateCacheCounters w c cgroupID ps).1) pid n
  = fadd (scaled_get (lastScaledCacheCounters c) pid n)
         (scaleCounter (raw_get (lastRawCacheCounters c) pid n) pv) /\
  raw_get (lastRawCacheCounters (updateCacheCounters w c cgroupID ps).1) pid n = pv.
Proof.
  intros Hen Hin Hprof Hread Hfield. unfold updateCacheCounters. rewrite Hen.
  cbn [negb]. unfold agg_scaled.
  set (cacheProfiles := read_profiles (perfCacheProfilers c) (read_cache w) ps).
  assert (Hp : (pid, profile) ∈ map_to_list cacheProfiles).
  { apply elem_of_map_to_list. unfold cacheProfiles. rewrite read_profiles_lookup.
    rewrite decide_True by exact Hin. apply elem_of_dom in Hprof.
    destruct Hprof as [x ->]. exact Hread. }
  destruct (agg_profiles_value cache_counters (map_to_list cacheProfiles)
              (evict (map PID ps) (touch_all ps (lastRawCacheCounters c)),
               evict (map PID ps) (touch_all ps (lastScaledCacheCounters c)), ∅)
              pid profile n pv (NoDup_fst_map_to_list _) cache_counters_NoDup Hp Hfield)
    as [H1 H2].
  destruct (agg_profiles _ _ _) as [[raw scaled] counters].
  cbn [fst snd set_cache_counters lastScaledCacheCounters lastRawCacheCounters] in *.
  apply contains_elem_of in Hin.
  rewrite H1, H2, scaled_get_evict, raw_get_evict, Hin.
  now rewrite scaled_get_touch_all, raw_get_touch_all.
Qed.

End CounterFacts.

(** ** The perf collector: one scrape *)

Section ScrapeFacts.
Import Cgroups Float64 Perf Fixtures.





(** C2 (as amended): the running sums the collector keeps are [good]
    floats ([+0], a positive number or [+Inf]; never negative, never
    NaN) before and after every scrape, whatever the cgroups; every
    contribution [scaleCounter] computes is a [good] float; and in a
    scrape of one cgroup, for every process of the cgroup and every
    hardware or cache counter, the running sum kept for the process
    after the scrape is greater than or equal to the one kept before
    it.  So counter scaling never lowers the running sum of a
    process. *)
Theorem Update_running_sums_grow (w : World) (c : perfCollector) (kn : Kernel)
    (cgroups cgs : list cgroup) (c' : perfCollector) (kn' : Kernel)
    (ch : list Prom.Metric) :
  tables_good c = true ->
  discover w c cgroups = Some cgs ->
  Update w (c, kn) cgroups = Some (c', kn', ch) ->
  tables_good c' = true /\
  (forall lastProfileValue currentProfileValue,
     good (scaleCounter lastProfileValue currentProfileValue) = true) /\
  (forall cg pid metricName, cgs = [cg] -> pid ∈ map PID (procs cg) ->
     fge (scaled_get (lastScaledHwCounters c') pid metricName)
         (scaled_get (lastScaledHwCounters c) pid metricName) = true /\
     fge (scaled_get (lastScaledCacheCounters c') pid metricName)
         (scaled_get (lastScaledCacheCounters c) pid metricName) = true).
Proof.
  intros Hgood Hd Hup.
  destruct (Update_keeps w c kn cgroups cgs c' kn' ch Hd Hup) as (c2 & -> & Hkeep).
  assert (Hhw : lastScaledHwCounters c2 = lastScaledHwCounters c)
    by (apply Hkeep; reflexivity).
  assert (Hcache : lastScaledCacheCounters c2 = lastScaledCacheCounters c)
    by (apply Hkeep; reflexivity).
  assert (Hgood2 : tables_good c2 = true).
  { unfold tables_good in *. now rewrite Hhw, Hcache. }
  split; [now apply update_cgroups_good|]. split; [apply scaleCounter_good|].
  intros cg pid metricName -> Hin.
  rewrite update_cgroups_fst. cbn [fold_left]. rewrite <- Hhw, <- Hcache.
  now apply update_cgroup_grows.
Qed.

(** The second scrape of job 1481508, whose processes 100 and 101 have
    gone from 100 to 150 cycles. *)
Lemma Update_running_sums_grow_witness :
  match Update (world_reading true (cycles 150 20 20)) perf_tables_100_101
               [unit_cgroup "1481508" [100; 101]] with
  | Some (c', _, _) =>
      tables_good c' = true /\
      fge (scaled_get (lastScaledHwCounters c') 101 "cpucycles_total")
          (scaled_get (lastScaledHwCounters perf_tables_100_101.1) 101 "cpucycles_total")
      = true
  | None => False
  end.
Proof.
  destruct (Update (world_reading true (cycles 150 20 20)) perf_tables_100_101
              [unit_cgroup "1481508" [100; 101]]) as [[[c' kn'] ch]|] eqn:E;
    [|vm_compute in E; discriminate].
  destruct (Update_running_sums_grow (world_reading true (cycles 150 20 20))
              perf_tables_100_101.1 perf_tables_100_101.2
              [unit_cgroup "1481508" [100; 101]] [unit_cgroup "1481508" [100; 101]]
              c' kn' ch) as (Hg & _ & Hle).
  - vm_compute. reflexivity.
  - reflexivity.
  - exact E.
  - split; [exact Hg|].
    apply (Hle (unit_cgroup "1481508" [100; 101]) 101 "cpucycles_total"%string eq_refl).
    apply contains_elem_of. reflexivity.
Defined.

(** C2 (as stated) fails: the first scrape of job 1481508 sends 200
    cycles, 100 of each of its two processes; process 100 leaves, and
    the next scrape sends the 150 cycles of process 101 under the same
    name and labels. *)
Lemma Update_sends_less_after_exit :
  samples_sent perf_after_first
  = [("ceems_perf_cpucycles_total"%string,
      ["slurm"; "node1"; "1481508"]%string, of_Z 200)] /\
  samples_sent perf_after_exit
  = [("ceems_perf_cpucycles_total"%string,
      ["slurm"; "node1"; "1481508"]%string, of_Z 150)] /\
  fge (of_Z 150) (of_Z 200) = false.
Proof. repeat split; vm_compute; reflexivity. Qed.

(** C1: the exported counter is not the running sum of the
    contributions when a scrape has more than one cgroup.  A process
    counts 100 cycles with its counter running 1 ns of 10 ns, then 101
    cycles with 11 ns of 20 ns: the contributions are 1000 and 1, and a
    scrape of its job alone sends 1000, then 1001.  With a second job in
    the scrape, the update of each cgroup deletes the snapshots of the
    processes of the other: the second scrape scales the reading from
    zero and sends 184. *)
Theorem Update_two_units_lose_running_sum :
  scaleCounter zeroProfileValue
    {| Value := 100; TimeEnabled := 10; TimeRunning := 1 |} = of_Z 1000 /\
  scaleCounter {| Value := 100; TimeEnabled := 10; TimeRunning := 1 |}
    {| Value := 101; TimeEnabled := 20; TimeRunning := 11 |} = of_Z 1 /\
  fadd (of_Z 1000) (of_Z 1) = of_Z 1001 /\
  samples_sent (scrape_second one_unit)
  = [("ceems_perf_cpucycles_total"%string,
      ["slurm"; "node1"; "1481508"]%string, of_Z 1001)] /\
  samples_sent (scrape_first two_units)
  = [("ceems_perf_cpucycles_total"%string,
      ["slurm"; "node1"; "1481508"]%string, of_Z 1000);
     ("ceems_perf_cpucycles_total"%string,
      ["slurm"; "node1"; "1481509"]%string, of_Z 1000)] /\
  samples_sent (scrape_second two_units)
  = [("ceems_perf_cpucycles_total"%string,
      ["slurm"; "node1"; "1481508"]%string, of_Z 184);
     ("ceems_perf_cpucycles_total"%string,
      ["slurm"; "node1"; "1481509"]%string, of_Z 184)].
Proof. repeat split; vm_compute; reflexivity. Qed.

(** X1: the contribution [scaleCounter] computes for an interval is the
    difference of the values (of the unsigned 64-bit readings, as a
    [float64]) when the counter did not run in the interval, and also
    when it ran all the time it was enabled: the scale factor
    [float64(deltaEnabled) / float64(deltaRunning)] is then exactly 1,
    and multiplying by it and rounding change nothing. *)
Theorem scaleCounter_scale_factor_one (lastProfileValue currentProfileValue : ProfileValue) :
  uint64 (TimeRunning currentProfileValue - TimeRunning lastProfileValue) = 0 \/
  uint64 (TimeRunning currentProfileValue - TimeRunning lastProfileValue)
  = uint64 (TimeEnabled currentProfileValue - TimeEnabled lastProfileValue) ->
  scaleCounter lastProfileValue currentProfileValue
  = of_Z (uint64 (Value currentProfileValue - Value lastProfileValue)).
Proof. apply scaleCounter_unscaled. Qed.

(** A counter that went from 100 to 150 while it was enabled, and
    running, from 10 ns to 20 ns. *)
Lemma scaleCounter_scale_factor_one_witness :
  scaleCounter {| Value := 100; TimeEnabled := 10; TimeRunning := 10 |}
               {| Value := 150; TimeEnabled := 20; TimeRunning := 20 |}
  = of_Z 50.
Proof.
  apply (scaleCounter_scale_factor_one
           {| Value := 100; TimeEnabled := 10; TimeRunning := 10 |}
           {| Value := 150; TimeEnabled := 20; TimeRunning := 20 |}).
  right. reflexivity.
Defined.

(** X2: in a scrape of one cgroup, for a process of the cgroup that has
    a profiler whose [Profile()] succeeds, and a counter the profile
    holds, the running sum after the scrape is the running sum before
    it plus the contribution [scaleCounter] computes from the last
    snapshot and the reading, and the reading is the new snapshot;
    for hardware and for cache counters. *)
Theorem Update_one_unit_running_sum (w : World) (c : perfCollector) (kn : Kernel)
    (cgroups : list cgroup) (cg : cgroup) (c' : perfCollector) (kn' : Kernel)
    (ch : list Prom.Metric) (pid : Z) (metricName : string) (pv : ProfileValue) :
  discover w c cgroups = Some [cg] ->
  Update w (c, kn) cgroups = Some (c', kn', ch) ->
  pid ∈ map PID (procs cg) ->
  (perfHwProfilersEnabled (opts c) = true ->
   forall profile,
     pid ∈ dom (perfHwProfilers c') -> read_hw w pid = Some profile ->
     (metricName, Some pv) ∈ hw_counters profile ->
     scaled_get (lastScaledHwCounters c') pid metricName
     = fadd (scaled_get (lastScaledHwCounters c) pid metricName)
            (scaleCounter (raw_get (lastRawHwCounters c) pid metricName) pv) /\
     raw_get (lastRawHwCounters c') pid metricName = pv) /\
  (perfCacheProfilersEnabled (opts c) = true ->
   forall profile,
     pid ∈ dom (perfCacheProfilers c') -> read_cache w pid = Some profile ->
     (metricName, Some pv) ∈ cache_counters profile ->
     scaled_get (lastScaledCacheCounters c') pid metricName
     = fadd (scaled_get (lastScaledCacheCounters c) pid metricName)
            (scaleCounter (raw_get (lastRawCacheCounters c) pid metricName) pv) /\
     raw_get (lastRawCacheCounters c') pid metricName = pv).
Proof.
  intros Hd Hup Hin.
  destruct (Update_keeps w c kn cgroups [cg] c' kn' ch Hd Hup) as (c2 & -> & Hkeep).
  assert (Hopts : opts c2 = opts c) by (apply Hkeep; reflexivity).
  rewrite update_cgroups_fst. cbn [fold_left].
  rewrite update_cgroup_fst, updateSoftwareCounters_same.
  set (c1 := (updateHardwareCounters w c2 (uuid cg) (procs cg)).1).
  split; intros Hen profile Hprof Hread Hfield.
  - destruct (updateCacheCounters_hw_tables w c1 (uuid cg) (procs cg)) as [-> ->].
    destruct (updateCacheCounters_profilers w c1 (uuid cg) (procs cg) Hw) as [Hp1 _].
    destruct (updateHardwareCounters_profilers w c2 (uuid cg) (procs cg) Hw) as [Hp2 _].
    cbn [profilers] in Hp1, Hp2. fold c1 in Hp2. rewrite Hp1, Hp2 in Hprof.
    rewrite <- (Hkeep _ lastScaledHwCounters), <- (Hkeep _ lastRawHwCounters)
      by reflexivity.
    apply (updateHardwareCounters_value w c2 (uuid cg) (procs cg) pid profile);
      try assumption. now rewrite Hopts.
  - destruct (updateHardwareCounters_cache_tables w c2 (uuid cg) (procs cg)) as [Hr Hs].
    fold c1 in Hr, Hs.
    destruct (updateCacheCounters_profilers w c1 (uuid cg) (procs cg) Cache) as [Hp1 _].
    destruct (updateHardwareCounters_profilers w c2 (uuid cg) (procs cg) Cache)
      as [Hp2 Ho2].
    cbn [profilers] in Hp1, Hp2. fold c1 in Hp2, Ho2. rewrite Hp1 in Hprof.
    rewrite <- (Hkeep _ lastScaledCacheCounters), <- (Hkeep _ lastRawCacheCounters)
      by reflexivity.
    rewrite <- Hr, <- Hs.
    apply (updateCacheCounters_value w c1 (uuid cg) (procs cg) pid profile);
      try assumption. now rewrite Ho2, Hopts.
Qed.

(** The second scrape of job 1481508: process 101 had counted 100
    cycles and has now counted 150. *)
Lemma Update_one_unit_running_sum_witness :
  match Update (world_reading true (cycles 150 20 20)) perf_tables_100_101
               [unit_cgroup "1481508" [100; 101]] with
  | Some (c', _, _) =>
      scaled_get (lastScaledHwCounters c') 101 "cpucycles_total"
      = fadd (of_Z 100) (of_Z 50) /\
      raw_get (lastRawHwCounters c') 101 "cpucycles_total"
      = {| Value := 150; TimeEnabled := 20; TimeRunning := 20 |}
  | None => False
  end.
Proof.
  destruct (Update (world_reading true (cycles 150 20 20)) perf_tables_100_101
              [unit_cgroup "1481508" [100; 101]]) as [[[c' kn'] ch]|] eqn:E;
    [|vm_compute in E; discriminate].
  destruct (Update_one_unit_running_sum (world_reading true (cycles 150 20 20))
              perf_tables_100_101.1 perf_tables_100_101.2
              [unit_cgroup "1481508" [100; 101]] (unit_cgroup "1481508" [100; 101])
              c' kn' ch 101 "cpucycles_total"
              {| Value := 150; TimeEnabled := 20; TimeRunning := 20 |}) as [Hhw _].
  - reflexivity.
  - exact E.
  - apply contains_elem_of. reflexivity.
  - destruct (Hhw eq_refl (cycles 150 20 20)) as [H1 H2].
    + assert (Hp : match Update (world_reading true (cycles 150 20 20)) perf_tables_100_101
                                [unit_cgroup "1481508" [100; 101]] with
                   | Some (c0, _, _) => perfHwProfilers c0 !! 101
                   | None => None
                   end = Some {| profiled := 101 |}) by (vm_compute; reflexivity).
      rewrite E in Hp. apply elem_of_dom. now exists {| profiled := 101 |}.
    + reflexivity.
    + apply elem_of_cons. now left.
    + split; [|exact H2]. rewrite H1. vm_compute. reflexivity.
Defined.

End ScrapeFacts.

(** ** More on the helpers *)

Section HelpersMore.
Import Bytes Regexp Helpers Cgroups.

Lemma length_bytes_of (x : string) : length (bytes_of x) = String.length x.
Proof. induction x as [|c x IH]; cbn; [reflexivity | now rewrite <- IH]. Qed.

Lemma sanitized_length (s t : list ascii) : sanitized s t -> (length t <= length s)%nat.
Proof.
  induction 1 as [|c s t _ _ IH|us other us' s t _ Hne _ _ _ _ _ IH]; cbn [length].
  - lia.
  - lia.
  - rewrite !length_app. destruct other as [|o other]; [congruence|]. cbn [length]. lia.
Qed.

(** X3: the sanitized name is made of letters, digits and underscores
    only, and is never longer than the name. *)
Theorem SanitizeMetricName_word_bytes (metricName : string) :
  forallb is_word (bytes_of (SanitizeMetricName metricName)) = true /\
  (String.length (SanitizeMetricName metricName) <= String.length metricName)%nat.
Proof.
  unfold SanitizeMetricName. split.
  - unfold string_of, bytes_of. rewrite list_ascii_of_string_of_list_ascii.
    apply sanitize_word.
  - rewrite <- !length_bytes_of. unfold string_of at 1, bytes_of at 1.
    rewrite list_ascii_of_string_of_list_ascii.
    apply sanitized_length, sanitize_sanitized.
Qed.

(** X4: the names sanitizing leaves as they are are exactly the names
    made of letters, digits and underscores. *)
Theorem SanitizeMetricName_fixed_iff (metricName : string) :
  SanitizeMetricName metricName = metricName <->
  forallb is_word (bytes_of metricName) = true.
Proof.
  split.
  - intros H. rewrite <- H. unfold SanitizeMetricName, string_of, bytes_of.
    rewrite list_ascii_of_string_of_list_ascii. apply sanitize_word.
  - intros H. unfold SanitizeMetricName. rewrite sanitize_id by exact H.
    apply string_of_list_ascii_of_string.
Qed.

Lemma filter_filter_same {A : Type} (f : A -> bool) (l : list A) :
  List.filter f (List.filter f l) = List.filter f l.
Proof.
  induction l as [|a l IH]; cbn [List.filter]; [reflexivity|].
  destruct (f a) eqn:E; [|exact IH]. cbn [List.filter]. now rewrite E, IH.
Qed.

(** X5: filtering is idempotent: the filtered cgroups pass the filter
    unchanged (for the same readings of the command lines and
    environments). *)
Theorem cgroupProcFilterer_idempotent (cgroups : list cgroup)
    (targetEnvVars : list string) (procFilter : option (string -> bool)) :
  cgroupProcFilterer (cgroupProcFilterer cgroups targetEnvVars procFilter)
                     targetEnvVars procFilter
  = cgroupProcFilterer cgroups targetEnvVars procFilter.
Proof.
  unfold cgroupProcFilterer. destruct targetEnvVars as [|t ts]; [reflexivity|].
  set (selected := proc_selected (t :: ts) procFilter).
  induction cgroups as [|cg cgs IH]; [reflexivity|].
  cbn [flat_map]. rewrite flat_map_app, IH. f_equal.
  destruct (List.filter selected (procs cg)) as [|p ps] eqn:E; [reflexivity|].
  cbn [flat_map with_procs procs]. rewrite app_nil_r.
  rewrite <- E, filter_filter_same, E. reflexivity.
Qed.

End HelpersMore.

(** ** More on the units handlers *)

Section APIMore.
Import API Fixtures.
Local Open Scope string_scope.

Lemma getQueriedFields_In (URLValues : Values) (validFieldNames : list string) (f : string) :
  In f (getQueriedFields URLValues validFieldNames) -> In f validFieldNames.
Proof.
  unfold getQueriedFields. destruct (values_of URLValues "field") as [|x l]; [tauto|].
  intros H. apply filter_In in H. destruct H as [_ H].
  apply bool_decide_eq_true in H. now apply list_elem_of_In.
Qed.


(** The texts [unitsQuerier] can put in a query: the [SELECT] of valid
    column names and the fixed pieces. *)
Lemma Forall_snoc {A : Type} (P : A -> Prop) (l : list A) (x : A) :
  Forall P l -> P x -> Forall P (l ++ [x]).
Proof. intros Hl Hx. apply Forall_app. split; [exact Hl | now constructor]. Qed.

(** X7: no text of the URL reaches the text of the query of
    [unitsQuerier]: whatever the request, the handler answers a bad-data
    error or what the querier gives for a query whose texts are the
    [SELECT] of column names that are all valid and fixed pieces; the
    values of the URL ([project], [uuid], the users, the window) are
    passed as parameters only. *)
Theorem unitsQuerier_query_texts (s : CEEMSServer) (clock : Clock)
    (queriedUsers : list string) (r : Request) :
  ErrorType (unitsQuerier s clock queriedUsers r) = Some errorBadData \/
  exists fields q,
    unitsQuerier s clock queriedUsers r = query_response s q /\
    (forall f, In f fields -> In f (UnitsDBTableColNames s)) /\
    forall text, In (QText text) q ->
      In text [ "SELECT " +:+ String.concat "," fields +:+ " FROM " +:+ UnitsDBTableName s;
                " WHERE ignore = 0 "; " AND usr IN "; " AND project IN ";
                " OR ended_at_ts IN "; " AND uuid IN "; " AND ended_at BETWEEN ";
                " AND " ].
Proof.
  set (fields := getQueriedFields (query r) (UnitsDBTableColNames s)).
  set (texts := [ "SELECT " +:+ String.concat "," fields +:+ " FROM " +:+ UnitsDBTableName s;
                  " WHERE ignore = 0 "; " AND usr IN "; " AND project IN ";
                  " OR ended_at_ts IN "; " AND uuid IN "; " AND ended_at BETWEEN ";
                  " AND " ]).
  set (ok := fun part => match part with QText text => In text texts | QParam _ => True end).
  assert (Hq : forall q text, Forall ok q -> In text texts -> Forall ok (q_query q text)).
  { intros q text Hall Hin. now apply Forall_snoc. }
  assert (Hp : forall q values, Forall ok q -> Forall ok (q_param q values)).
  { intros q values Hall. now apply Forall_snoc. }
  assert (Hdone : forall q, Forall ok q ->
            exists fields0 q0,
              query_response s q = query_response s q0 /\
              (forall f, In f fields0 -> In f (UnitsDBTableColNames s)) /\
              forall text, In (QText text) q0 ->
                In text [ "SELECT " +:+ String.concat "," fields0 +:+ " FROM "
                            +:+ UnitsDBTableName s;
                          " WHERE ignore = 0 "; " AND usr IN "; " AND project IN ";
                          " OR ended_at_ts IN "; " AND uuid IN "; " AND ended_at BETWEEN ";
                          " AND " ]).
  { intros q Hall. exists fields, q. split; [reflexivity|]. split.
    - intros f. apply getQueriedFields_In.
    - intros text Hin. rewrite List.Forall_forall in Hall. exact (Hall _ Hin). }
  unfold unitsQuerier. fold fields.
  set (q1 := q_query (q_query [] _) " WHERE ignore = 0 ").
  assert (H1 : Forall ok q1).
  { unfold q1. apply Hq; [apply Hq; [constructor|]|]; unfold texts; cbn; tauto. }
  set (q2 := match queriedUsers with [] => q1 | _ :: _ => _ end).
  assert (H2 : Forall ok q2).
  { unfold q2. destruct queriedUsers; [exact H1|].
    apply Hp, Hq; [exact H1 | unfold texts; cbn; tauto]. }
  assert (H3 : Forall ok (getCommonQueryParams q2 (query r))).
  { unfold getCommonQueryParams.
    set (q3 := match values_of (query r) "project" with [] => q2 | _ :: _ => _ end).
    assert (Hq3 : Forall ok q3).
    { unfold q3. destruct (values_of (query r) "project"); [exact H2|].
      apply Hp, Hq; [exact H2 | unfold texts; cbn; tauto]. }
    destruct (query r !! "running"); [|exact Hq3].
    apply Hp, Hq; [exact Hq3 | unfold texts; cbn; tauto]. }
  fold (query_response s).
  destruct (values_of (query r) "uuid") as [|u us].
  - destruct (getQueryWindow s clock r) as [[from to]|err]; [|now left].
    right. apply Hdone.
    apply Hp, Hq; [apply Hp, Hq; [exact H3|] |]; unfold texts; cbn; tauto.
  - right. apply Hdone. apply Hp, Hq; [exact H3 | unfold texts; cbn; tauto].
Qed.

Lemma Atoi_range (str : string) (v : Z) :
  Atoi str = Some v -> - 2 ^ 63 <= v <= 2 ^ 63 - 1.
Proof.
  unfold Atoi. intros H. repeat case_match; try discriminate.
  all: injection H as <-.
  all: match goal with
       | E : (_ && _)%bool = true |- _ =>
           apply andb_true_iff in E; destruct E as [E1 E2];
           apply Z.leb_le in E1, E2; lia
       end.
Qed.

(** A timestamp below [2^63 - unixToInternal] is kept as it is. *)
Lemma time_Unix_kept (sec : Z) :
  - 2 ^ 63 <= sec < 2 ^ 63 - unixToInternal -> time_Unix sec = sec * Second.
Proof.
  intros H. unfold time_Unix, int64. f_equal.
  rewrite Z.mod_small by (unfold unixToInternal in *; lia). lia.
Qed.

(** A timestamp of [2^63 - unixToInternal] or more wraps around. *)
Lemma time_Unix_wrapped (sec : Z) :
  2 ^ 63 - unixToInternal <= sec <= 2 ^ 63 - 1 ->
  time_Unix sec = (sec - 2 ^ 64) * Second.
Proof.
  intros H. unfold time_Unix, int64. f_equal.
  assert (E : (sec + unixToInternal + 2 ^ 63) mod 2 ^ 64 = sec + unixToInternal - 2 ^ 63).
  { symmetry. apply Z.mod_unique with (q := 1); unfold unixToInternal in *; lia. }
  rewrite E. lia.
Qed.

(** X8: the window check is made only for a positive [maxQueryPeriod],
    and on the signed difference [to - from].  With well-formed [from]
    and [to] timestamps that [time.Unix] keeps as they are (below
    [2^63 - unixToInternal] seconds), the window is refused exactly when
    [maxQueryPeriod] is positive and smaller than [to - from] (as a
    [time.Duration], which saturates); so a [maxQueryPeriod] of zero
    refuses no window, and a window whose [to] is not after its [from]
    is never refused. *)
Theorem getQueryWindow_refused_iff (s : CEEMSServer) (clock : Clock) (r : Request)
    (fromTs toTs : Z) :
  Atoi (values_Get (query r) "from") = Some fromTs ->
  Atoi (values_Get (query r) "to") = Some toTs ->
  fromTs < 2 ^ 63 - unixToInternal ->
  toTs < 2 ^ 63 - unixToInternal ->
  (getQueryWindow s clock r = inr "maximum query window exceeded" <->
   0 < maxQueryPeriod s < time_Sub (toTs * Second) (fromTs * Second)) /\
  (getQueryWindow s clock r
   = inl (format_time s (fromTs * Second), format_time s (toTs * Second)) <->
   ~ 0 < maxQueryPeriod s < time_Sub (toTs * Second) (fromTs * Second)) /\
  (maxQueryPeriod s <= 0 \/ toTs <= fromTs ->
   getQueryWindow s clock r
   = inl (format_time s (fromTs * Second), format_time s (toTs * Second))).
Proof.
  intros Hfrom Hto Hfr Htr. unfold getQueryWindow. rewrite Hfrom, Hto.
  assert (Hf : String.eqb (values_Get (query r) "from") "" = false).
  { destruct (String.eqb_spec (values_Get (query r) "from") "") as [E|]; [|reflexivity].
    rewrite E in Hfrom. discriminate. }
  assert (Ht : String.eqb (values_Get (query r) "to") "" = false).
  { destruct (String.eqb_spec (values_Get (query r) "to") "") as [E|]; [|reflexivity].
    rewrite E in Hto. discriminate. }
  rewrite Hf, Ht.
  apply Atoi_range in Hfrom, Hto.
  rewrite (time_Unix_kept fromTs), (time_Unix_kept toTs) by lia.
  assert (Hneg : toTs <= fromTs -> time_Sub (toTs * Second) (fromTs * Second) <= 0).
  { unfold time_Sub, Second. lia. }
  destruct (Z.ltb_spec 0 (maxQueryPeriod s)) as [H0|H0];
    destruct (Z.ltb_spec (maxQueryPeriod s)
                (time_Sub (toTs * Second) (fromTs * Second))) as [H1|H1];
    cbn [andb]; (split; [|split]); try (split; [discriminate || reflexivity || lia|]);
    try (intros; reflexivity); try (intros; lia); try discriminate.
  all: try (intros H; exfalso; lia).
  all: try (split; [intros _; lia | intros H; exfalso; lia]).
Qed.

Lemma getQueryWindow_refused_iff_witness :
  getQueryWindow test_server test_clock window_request
  = inr "maximum query window exceeded".
Proof.
  apply (getQueryWindow_refused_iff test_server test_clock window_request
           1672527600 1685570400); [reflexivity | reflexivity | reflexivity | reflexivity |].
  vm_compute. split; reflexivity.
Defined.

(** X21: a [to] timestamp of [2^63 - unixToInternal] seconds or more
    wraps around in [time.Unix] to a time before year 1, which is before
    every [from] that is kept as it is: the window is then accepted
    whatever [maxQueryPeriod] is, although [to - from] exceeds it. *)
Theorem getQueryWindow_wrapped_to_accepted (s : CEEMSServer) (clock : Clock) (r : Request)
    (fromTs toTs : Z) :
  Atoi (values_Get (query r) "from") = Some fromTs ->
  Atoi (values_Get (query r) "to") = Some toTs ->
  fromTs < 2 ^ 63 - unixToInternal ->
  2 ^ 63 - unixToInternal <= toTs ->
  getQueryWindow s clock r
  = inl (format_time s (fromTs * Second), format_time s ((toTs - 2 ^ 64) * Second)).
Proof.
  intros Hfrom Hto Hfr Htr. unfold getQueryWindow. rewrite Hfrom, Hto.
  assert (Hf : String.eqb (values_Get (query r) "from") "" = false).
  { destruct (String.eqb_spec (values_Get (query r) "from") "") as [E|]; [|reflexivity].
    rewrite E in Hfrom. discriminate. }
  assert (Ht : String.eqb (values_Get (query r) "to") "" = false).
  { destruct (String.eqb_spec (values_Get (query r) "to") "") as [E|]; [|reflexivity].
    rewrite E in Hto. discriminate. }
  rewrite Hf, Ht.
  apply Atoi_range in Hfrom, Hto.
  rewrite (time_Unix_kept fromTs), (time_Unix_wrapped toTs) by lia.
  destruct (Z.ltb_spec 0 (maxQueryPeriod s)) as [H0|H0]; cbn [andb]; [|reflexivity].
  assert (H1 : (maxQueryPeriod s
                <? time_Sub ((toTs - 2 ^ 64) * Second) (fromTs * Second))%Z = false).
  { apply Z.ltb_ge. unfold time_Sub, Second, unixToInternal in *. lia. }
  now rewrite H1.
Qed.

Lemma getQueryWindow_wrapped_to_accepted_witness :
  getQueryWindow test_server test_clock
    {| loggedUser := "foo"; dashboardUser := "foo";
       query := {[ "from" := ["0"]; "to" := ["9223371974719179008"] ]} |}
  = inl (format_time test_server 0,
         format_time test_server ((9223371974719179008 - 2 ^ 64) * Second)).
Proof.
  apply (getQueryWindow_wrapped_to_accepted test_server test_clock _ 0 9223371974719179008);
    [reflexivity | vm_compute; reflexivity | reflexivity | vm_compute; discriminate].
Defined.

(** X9: a request that gives neither [from] nor [to] asks for the
    default window of 24 hours; when the clock does not go back between
    the two readings of the time, a server whose [maxQueryPeriod] is
    positive and below 24 hours refuses it with the error
    [maximum query window exceeded]. *)
Theorem getQueryWindow_default_refused (s : CEEMSServer) (clock : Clock) (r : Request) :
  values_of (query r) "from" = [] ->
  values_of (query r) "to" = [] ->
  now_from clock <= now_to clock ->
  0 < maxQueryPeriod s < 24 * Hour ->
  getQueryWindow s clock r = inr "maximum query window exceeded".
Proof.
  intros Hfrom Hto Hclock Hmax. unfold getQueryWindow, values_Get.
  rewrite Hfrom, Hto. cbn [String.eqb].
  assert (H0 : (0 <? maxQueryPeriod s)%Z = true) by (apply Z.ltb_lt; lia).
  assert (H1 : (maxQueryPeriod s
                <? time_Sub (now_to clock)
                     (time_Add (now_from clock) (- defaultQueryWindow)))%Z = true).
  { apply Z.ltb_lt. unfold time_Sub, time_Add, defaultQueryWindow, Hour, Second in *. lia. }
  now rewrite H0, H1.
Qed.

Lemma getQueryWindow_default_refused_witness :
  getQueryWindow
    {| maxQueryPeriod := Hour; Querier := fun _ _ => Rows [];
       db := test_db; UnitsDBTableColNames := ["uuid"]; UnitsDBTableName := "units";
       format_time := fun _ => "" |}
    test_clock
    {| loggedUser := "foo"; dashboardUser := "foo"; query := ∅ |}
  = inr "maximum query window exceeded".
Proof.
  apply getQueryWindow_default_refused; try reflexivity; vm_compute; split; congruence.
Defined.

End APIMore.

(** ** More on the perf collector *)

Section PerfMore.
Import Cgroups Float64 Prom Perf Fixtures.



(** X11: a scrape that finds no cgroup sends nothing and leaves the
    snapshot tables as they are (the slots of the processes that are
    gone are not evicted), and, when the close context runs, it closes
    every profiler of an enabled kind that can be closed. *)
Theorem Update_no_cgroups (w : World) (c : perfCollector) (kn : Kernel)
    (cgroups : list cgroup) (c' : perfCollector) (kn' : Kernel) (ch : list Metric) :
  discover w c cgroups = Some [] ->
  Update w (c, kn) cgroups = Some (c', kn', ch) ->
  ch = [] /\
  lastRawHwCounters c' = lastRawHwCounters c /\
  lastScaledHwCounters c' = lastScaledHwCounters c /\
  lastRawCacheCounters c' = lastRawCacheCounters c /\
  lastScaledCacheCounters c' = lastScaledCacheCounters c /\
  (exec_ok w perfCloseProfilersCtx = true ->
   forall k pid, enabled c k = true ->
     (pid ∈ dom (profilers c' k) <->
      pid ∈ dom (profilers c k) /\ close_ok w k pid = false)).
Proof.
  intros Hd Hup.
  destruct (Update_keeps w c kn cgroups [] c' kn' ch Hd Hup) as (c2 & Hc' & Hkeep).
  cbn in Hc'. subst c2.
  split; [|split; [|split; [|split; [|split]]]]; try (apply Hkeep; reflexivity).
  - revert Hup. unfold Update. cbn [fst]. rewrite Hd.
    destruct (newProfilers w [] (c, kn)) as [st1 act].
    destruct (closeProfilers w act st1) as [c2 kn2]. cbn.
    now intros [= _ _ <-].
  - intros Hctx k pid Hen. revert Hup. unfold Update. cbn [fst]. rewrite Hd.
    assert (Hnew : newProfilers w [] (c, kn) = ((c, kn), [])).
    { unfold newProfilers. now destruct (exec_ok w perfOpenProfilersCtx). }
    rewrite Hnew. unfold closeProfilers. rewrite Hctx.
    destruct (closeProfilers_ctx w [] (c, kn)) as [c2 kn2] eqn:E. cbn.
    intros [= <- _ _].
    change c2 with (c2, kn2).1. rewrite <- E, closeProfilers_ctx_profilers. cbn [fst].
    rewrite Hen. pose proof (not_elem_of_nil pid) as Hnil.
    destruct (close_ok w k pid); intuition congruence.
Qed.

Lemma Update_no_cgroups_witness :
  match Update (world_reading true (cycles 150 20 20)) perf_tables_100_101 [] with
  | Some (c', _, ch) =>
      ch = [] /\ lastScaledHwCounters c' = lastScaledHwCounters perf_tables_100_101.1
  | None => False
  end.
Proof.
  destruct (Update (world_reading true (cycles 150 20 20)) perf_tables_100_101 [])
    as [[[c' kn'] ch]|] eqn:E; [|vm_compute in E; discriminate].
  destruct (Update_no_cgroups (world_reading true (cycles 150 20 20))
              perf_tables_100_101.1 perf_tables_100_101.2 [] c' kn' ch)
    as (H1 & _ & H2 & _).
  - reflexivity.
  - exact E.
  - now split.
Defined.

Lemma emit_elem (c : perfCollector) (cgroupID : string) (counters : gmap string float64)
    (m : Metric) :
  m ∈ emit c cgroupID counters ->
  fgt (value m) fzero = true /\
  labelValues m = [manager c; hostname c; cgroupID] /\
  exists counter, counters !! counter = Some (value m) /\ fqName m = desc counter.
Proof.
  unfold emit. rewrite list_elem_of_omap. intros ([counter v] & Hin & Hm).
  apply elem_of_map_to_list in Hin.
  destruct (fgt v fzero) eqn:E; [|discriminate]. injection Hm as <-.
  cbn [value labelValues fqName]. split; [exact E|]. split; [reflexivity|].
  now exists counter.
Qed.

(** The counters the aggregation functions fill in all have a
    descriptor. *)
Lemma hw_counters_desc (p : HardwareProfile) (n : string) :
  n ∈ (hw_counters p).*1 -> n ∈ desc_names.
Proof.
  revert n. apply Forall_forall. cbn [hw_counters sw_counters cache_counters fmap list_fmap fst].
  repeat constructor; apply (bool_decide_unpack _); vm_compute; exact I.
Qed.

Lemma sw_counters_desc (p : SoftwareProfile) (n : string) :
  n ∈ (sw_counters p).*1 -> n ∈ desc_names.
Proof.
  revert n. apply Forall_forall. cbn [hw_counters sw_counters cache_counters fmap list_fmap fst].
  repeat constructor; apply (bool_decide_unpack _); vm_compute; exact I.
Qed.

Lemma cache_counters_desc (p : CacheProfile) (n : string) :
  n ∈ (cache_counters p).*1 -> n ∈ desc_names.
Proof.
  revert n. apply Forall_forall. cbn [hw_counters sw_counters cache_counters fmap list_fmap fst].
  repeat constructor; apply (bool_decide_unpack _); vm_compute; exact I.
Qed.

Lemma agg_profile_keys (pid : Z) (fields : list (string * option ProfileValue))
    (st : RawTable * ScaledTable * gmap string float64) (n : string) :
  is_Some ((agg_profile pid fields st).2 !! n) ->
  is_Some (st.2 !! n) \/ n ∈ fields.*1.
Proof.
  unfold agg_profile. revert st.
  induction fields as [|[metricName field] fields IH]; intros st; cbn [fold_left].
  - now left.
  - intros H. apply IH in H. cbn [fmap list_fmap fst]. rewrite elem_of_cons.
    destruct H as [H|H]; [|tauto].
    destruct field as [pv|]; [|now left].
    destruct st as [[raw scaled] counters]. cbn [agg_counter snd] in H.
    destruct (decide (n = metricName)) as [->|Hne]; [tauto|].
    rewrite lookup_insert_ne in H by congruence. now left.
Qed.

Lemma agg_profiles_keys {P : Type} (counters : P -> list (string * option ProfileValue))
    (profiles : list (Z * P)) (st : RawTable * ScaledTable * gmap string float64)
    (n : string) :
  is_Some ((agg_profiles counters profiles st).2 !! n) ->
  is_Some (st.2 !! n) \/ exists p, n ∈ (counters p).*1.
Proof.
  unfold agg_profiles. revert st.
  induction profiles as [|[pid profile] profiles IH]; intros st; cbn [fold_left].
  - now left.
  - intros H. apply IH in H. destruct H as [H|H]; [|now right].
    apply agg_profile_keys in H. destruct H as [H|H]; [now left|].
    right. now exists profile.
Qed.

Lemma aggSoftwareCounters_keys (swProfiles : list (Z * SoftwareProfile)) (n : string) :
  is_Some (aggSoftwareCounters swProfiles !! n) -> exists p, n ∈ (sw_counters p).*1.
Proof.
  unfold aggSoftwareCounters.
  assert (Hin : forall fields (acc : gmap string float64),
             is_Some (fold_left
                        (fun acc '(metricName, field) =>
                           match field with
                           | Some profileValue =>
                               <[metricName := fadd (default fzero (acc !! metricName))
                                                    (of_Z (Value profileValue))]> acc
                           | None => acc
                           end) fields acc !! n) ->
             is_Some (acc !! n) \/ n ∈ fields.*1).
  { induction fields as [|[metricName field] fields IH]; intros acc; cbn [fold_left].
    - now left.
    - intros H. apply IH in H. cbn [fmap list_fmap fst]. rewrite elem_of_cons.
      destruct H as [H|H]; [|tauto].
      destruct field as [pv|]; [|now left].
      destruct (decide (n = metricName)) as [->|Hne]; [tauto|].
      rewrite lookup_insert_ne in H by congruence. now left. }
  assert (Hgen : forall (l : list (Z * SoftwareProfile)) (acc : gmap string float64),
             is_Some (fold_left
                        (fun cgroupCounters '(_, swProfile) =>
                           fold_left
                             (fun acc '(metricName, field) =>
                                match field with
                                | Some profileValue =>
                                    <[metricName := fadd (default fzero (acc !! metricName))
                                                         (of_Z (Value profileValue))]> acc
                                | None => acc
                                end) (sw_counters swProfile) cgroupCounters)
                        l acc !! n) ->
             is_Some (acc !! n) \/ exists p, n ∈ (sw_counters p).*1).
  { induction l as [|[pid profile] l IH]; intros acc; cbn [fold_left].
    - now left.
    - intros H. apply IH in H. destruct H as [H|H]; [|now right].
      apply Hin in H. destruct H as [H|H]; [now left|]. right. now exists profile. }
  intros H. apply Hgen in H. destruct H as [H|H]; [|exact H].
  rewrite lookup_empty in H. now destruct H.
Qed.

(** What the goroutine of one cgroup sends. *)
Lemma update_cgroup_sent (w : World) (c : perfCollector) (cg : cgroup) (m : Metric) :
  m ∈ (update_cgroup w c cg).2 ->
  fgt (value m) fzero = true /\
  labelValues m = [manager c; hostname c; uuid cg] /\
  exists counter, counter ∈ desc_names /\ fqName m = desc counter.
Proof.
  unfold update_cgroup.
  assert (Hhw : forall c0, hostname (updateHardwareCounters w c0 (uuid cg) (procs cg)).1
                           = hostname c0 /\
                           manager (updateHardwareCounters w c0 (uuid cg) (procs cg)).1
                           = manager c0).
  { intros c0. unfold updateHardwareCounters. destruct (negb _); [now split|].
    now destruct (agg_scaled _ _ _ _) as [[raw scaled] counters]. }
  assert (Hsent : forall c0 id (counters : gmap string float64),
             (forall n, is_Some (counters !! n) -> n ∈ desc_names) ->
             m ∈ emit c0 id counters ->
             fgt (value m) fzero = true /\
             labelValues m = [manager c0; hostname c0; id] /\
             exists counter, counter ∈ desc_names /\ fqName m = desc counter).
  { intros c0 id counters Hkeys Hin. apply emit_elem in Hin.
    destruct Hin as (H1 & H2 & counter & Hc & H3). split; [exact H1|].
    split; [exact H2|]. exists counter. split; [|exact H3].
    apply Hkeys. now exists (value m). }
  destruct (Hhw c) as [Hh Hm].
  pose proof (updateSoftwareCounters_same w
                (updateHardwareCounters w c (uuid cg) (procs cg)).1 (uuid cg) (procs cg))
    as Hsw.
  destruct (updateHardwareCounters w c (uuid cg) (procs cg)) as [c1 m1] eqn:E1.
  cbn [fst] in Hsw, Hh, Hm.
  destruct (updateSoftwareCounters w c1 (uuid cg) (procs cg)) as [c2 m2] eqn:E2.
  cbn [fst] in Hsw. subst c2.
  destruct (updateCacheCounters w c1 (uuid cg) (procs cg)) as [c3 m3] eqn:E3.
  cbn [fst snd]. rewrite <- Hh, <- Hm.
  rewrite !elem_of_app. intros [Hin|[Hin|Hin]].
  - rewrite Hh, Hm. revert Hin. change m1 with (c1, m1).2. rewrite <- E1.
    unfold updateHardwareCounters. destruct (negb _); [now intros ?%elem_of_nil|].
    unfold agg_scaled.
    pose proof (agg_profiles_keys hw_counters
                  (map_to_list (read_profiles (perfHwProfilers c) (read_hw w) (procs cg)))
                  (touch_all (procs cg) (lastRawHwCounters c),
                   touch_all (procs cg) (lastScaledHwCounters c), ∅)) as Hkeys.
    destruct (agg_profiles _ _ _) as [[raw scaled] counters]. cbn [snd] in Hkeys.
    apply Hsent. intros n Hn. apply Hkeys in Hn. destruct Hn as [Hn|[p Hn]].
    + rewrite lookup_empty in Hn. now destruct Hn.
    + now apply hw_counters_desc in Hn.
  - revert Hin. change m2 with (c1, m2).2. rewrite <- E2.
    unfold updateSoftwareCounters. destruct (negb _); [now intros ?%elem_of_nil|].
    apply Hsent. intros n Hn. apply aggSoftwareCounters_keys in Hn.
    destruct Hn as [p Hn]. now apply sw_counters_desc in Hn.
  - revert Hin. change m3 with (c3, m3).2. rewrite <- E3.
    unfold updateCacheCounters. destruct (negb _); [now intros ?%elem_of_nil|].
    unfold agg_scaled.
    pose proof (agg_profiles_keys cache_counters
                  (map_to_list (read_profiles (perfCacheProfilers c1) (read_cache w)
                                  (procs cg)))
                  (evict (map PID (procs cg)) (touch_all (procs cg) (lastRawCacheCounters c1)),
                   evict (map PID (procs cg))
                     (touch_all (procs cg) (lastScaledCacheCounters c1)), ∅)) as Hkeys.
    destruct (agg_profiles _ _ _) as [[raw scaled] counters]. cbn [snd] in Hkeys.
    apply Hsent. intros n Hn. apply Hkeys in Hn. destruct Hn as [Hn|[p Hn]].
    + rewrite lookup_empty in Hn. now destruct Hn.
    + now apply cache_counters_desc in Hn.
Qed.

Lemma update_cgroup_names (w : World) (c : perfCollector) (cg : cgroup) :
  hostname (update_cgroup w c cg).1 = hostname c /\
  manager (update_cgroup w c cg).1 = manager c.
Proof.
  rewrite update_cgroup_fst, updateSoftwareCounters_same.
  unfold updateCacheCounters, updateHardwareCounters.
  destruct (negb (perfHwProfilersEnabled (opts c)));
    [|destruct (agg_scaled hw_counters _ _ _) as [[raw scaled] counters]];
    cbn [fst opts set_hw_counters];
    (destruct (negb (perfCacheProfilersEnabled _));
     [|destruct (agg_scaled cache_counters _ _ _) as [[raw' scaled'] counters']]);
    now split.
Qed.

Lemma update_cgroups_sent (w : World) (c : perfCollector) (cgroups : list cgroup)
    (m : Metric) :
  m ∈ (update_cgroups w c cgroups).2 ->
  fgt (value m) fzero = true /\
  exists cg counter,
    cg ∈ cgroups /\ labelValues m = [manager c; hostname c; uuid cg] /\
    counter ∈ desc_names /\ fqName m = desc counter.
Proof.
  unfold update_cgroups.
  assert (Hgen : forall cgs c0 ch0,
             hostname c0 = hostname c -> manager c0 = manager c ->
             m ∈ (fold_left (fun '(c, ch) cg =>
                               let '(c, ms) := update_cgroup w c cg in (c, ch ++ ms))
                            cgs (c0, ch0)).2 ->
             m ∈ ch0 \/
             (fgt (value m) fzero = true /\
              exists cg counter,
                cg ∈ cgs /\ labelValues m = [manager c; hostname c; uuid cg] /\
                counter ∈ desc_names /\ fqName m = desc counter)).
  { induction cgs as [|cg cgs IH]; intros c0 ch0 Hh Hm; cbn [fold_left].
    - now left.
    - destruct (update_cgroup_names w c0 cg) as [Hh1 Hm1].
      pose proof (update_cgroup_sent w c0 cg m) as Hs.
      destruct (update_cgroup w c0 cg) as [c1 ms]. cbn [fst snd] in *.
      intros Hin. apply IH in Hin; [|congruence|congruence].
      destruct Hin as [Hin|(Hpos & cg' & counter & Hcg & Hl & Hn)].
      + apply elem_of_app in Hin. destruct Hin as [Hin|Hin]; [now left|].
        right. destruct (Hs Hin) as (Hpos & Hl & counter & Hn).
        split; [exact Hpos|]. exists cg, counter.
        split; [apply elem_of_cons; now left|]. split; [congruence | exact Hn].
      + right. split; [exact Hpos|]. exists cg', counter.
        split; [apply elem_of_cons; now right|]. now split. }
  intros Hin. apply Hgen in Hin; try reflexivity.
  destruct Hin as [Hin|Hin]; [now apply elem_of_nil in Hin | exact Hin].
Qed.

(** X12: every sample a scrape sends has a value above zero (never
    zero, negative or NaN), carries the manager, the host name and the
    uuid of one of the cgroups of the scrape, and has the descriptor of
    one of the 24 counters [NewPerfCollector] declares. *)
Theorem Update_sends_positive (w : World) (c : perfCollector) (kn : Kernel)
    (cgroups cgs : list cgroup) (c' : perfCollector) (kn' : Kernel) (ch : list Metric)
    (m : Metric) :
  discover w c cgroups = Some cgs ->
  Update w (c, kn) cgroups = Some (c', kn', ch) ->
  m ∈ ch ->
  fgt (value m) fzero = true /\
  exists cg counter,
    cg ∈ cgs /\ labelValues m = [manager c; hostname c; uuid cg] /\
    counter ∈ desc_names /\ fqName m = desc counter.
Proof.
  intros Hd Hup Hin.
  assert (Hres : exists c2, ch = (update_cgroups w c2 cgs).2 /\
                            hostname c2 = hostname c /\ manager c2 = manager c).
  { revert Hup. unfold Update. cbn [fst]. rewrite Hd.
    destruct (newProfilers w cgs (c, kn)) as [st1 act] eqn:E1.
    destruct (closeProfilers w act st1) as [c2 kn2] eqn:E2.
    destruct (update_cgroups w c2 cgs) as [c3 ch3] eqn:E3.
    intros [= _ _ <-]. exists c2. split; [now rewrite E3|].
    assert (Hkeep : forall (T : Type) (f : perfCollector -> T),
               (forall c k t, f (set_profilers c k t) = f c) -> f c2 = f c).
    { intros T f Hf.
      assert (H2 : f c2 = f st1.1).
      { change c2 with (c2, kn2).1. rewrite <- E2. unfold closeProfilers.
        destruct (exec_ok w perfCloseProfilersCtx); [|reflexivity].
        unfold closeProfilers_ctx. now rewrite !close_kind_keeps. }
      rewrite H2. change st1 with (st1, act).1. rewrite <- E1. unfold newProfilers.
      destruct (exec_ok w perfOpenProfilersCtx); [|reflexivity].
      now apply openProfilers_keeps. }
    split; apply Hkeep; reflexivity. }
  destruct Hres as (c2 & -> & Hh & Hm).
  apply update_cgroups_sent in Hin. now rewrite Hh, Hm in Hin.
Qed.

Lemma Update_sends_positive_witness :
  Forall (fun m => fgt (value m) fzero = true)
         match perf_after_first with Some (_, _, ch) => ch | None => [] end.
Proof.
  destruct perf_after_first as [[[c' kn'] ch]|] eqn:E; [|constructor].
  apply Forall_forall. intros m Hin.
  apply (Update_sends_positive (world_reading true (cycles 100 10 10)) perf_new kernel_new
           [unit_cgroup "1481508" [100; 101]] [unit_cgroup "1481508" [100; 101]]
           c' kn' ch m); [reflexivity | exact E | exact Hin].
Defined.

(** X13: a counter whose value went down between two readings (its
    time either not running, or running all the time it was enabled)
    does not give a negative contribution: the difference is taken on
    unsigned 64-bit integers and wraps, so the contribution is
    [2^64] minus the decrease. *)
Theorem scaleCounter_wraps (lastProfileValue currentProfileValue : ProfileValue) :
  0 <= Value currentProfileValue < Value lastProfileValue ->
  Value lastProfileValue < 2 ^ 64 ->
  uint64 (TimeRunning currentProfileValue - TimeRunning lastProfileValue) = 0 \/
  uint64 (TimeRunning currentProfileValue - TimeRunning lastProfileValue)
  = uint64 (TimeEnabled currentProfileValue - TimeEnabled lastProfileValue) ->
  scaleCounter lastProfileValue currentProfileValue
  = of_Z (2 ^ 64 - (Value lastProfileValue - Value currentProfileValue)).
Proof.
  intros Hv Hmax Hcase. rewrite scaleCounter_unscaled by exact Hcase. f_equal.
  unfold uint64. symmetry. apply Z.mod_unique with (q := -1); lia.
Qed.

Lemma scaleCounter_wraps_witness :
  scaleCounter {| Value := 100; TimeEnabled := 10; TimeRunning := 10 |}
               {| Value := 40; TimeEnabled := 20; TimeRunning := 20 |}
  = of_Z (2 ^ 64 - 60).
Proof.
  apply (scaleCounter_wraps {| Value := 100; TimeEnabled := 10; TimeRunning := 10 |}
           {| Value := 40; TimeEnabled := 20; TimeRunning := 20 |});
    cbn [Value TimeEnabled TimeRunning]; [lia | lia | right; reflexivity].
Defined.

(** The descriptors [openProfilers] opens for one PID and one kind. *)
Lemma open_one_events (w : World) (k : Kind) (pid : Z) (st : perfCollector * Kernel)
    (k' : Kind) (pid' : Z) :
  pid' ∈ events (open_one w k pid st).2 k' <->
  pid' ∈ events st.2 k' \/
  (k' = k /\ pid' = pid /\ enabled st.1 k = true /\ pid ∉ dom (profilers st.1 k) /\
   new_ok w k pid = true).
Proof.
  destruct st as [c kn]. cbn [fst snd]. unfold open_one.
  destruct (enabled c k) eqn:Hen; [|cbn; intuition congruence].
  destruct (profilers c k !! pid) as [p|] eqn:Hlk.
  - cbn [snd]. split; [tauto|]. intros [H|(_ & _ & _ & Hno & _)]; [exact H|].
    exfalso. apply Hno. apply elem_of_dom. now exists p.
  - assert (Hno : pid ∉ dom (profilers c k)) by now apply not_elem_of_dom.
    unfold newProfiler. destruct (new_ok w k pid); [|cbn; intuition congruence].
    assert (Hev : pid' ∈ events (set_events kn k ({[pid]} ∪ events kn k)) k' <->
                  pid' ∈ events kn k' \/ (k' = k /\ pid' = pid)).
    { destruct (Kind_eq_dec k k') as [<-|Hne].
      - rewrite events_set_same. set_solver.
      - rewrite events_set_other by exact Hne. intuition congruence. }
    destruct (start_ok w k pid); cbn [snd]; rewrite Hev; tauto.
Qed.

(** Every slot has its descriptors. *)
Lemma open_one_slots (w : World) (k : Kind) (pid : Z) (st : perfCollector * Kernel) :
  (forall k', dom (profilers st.1 k') ⊆ events st.2 k') ->
  forall k', dom (profilers (open_one w k pid st).1 k') ⊆ events (open_one w k pid st).2 k'.
Proof.
  intros Hinv k' pid' Hin. apply open_one_profilers in Hin. apply open_one_events.
  destruct Hin as [Hin|(-> & -> & Hen & Hop)]; [left; now apply Hinv|].
  unfold open_ok in Hop. apply andb_true_iff in Hop. destruct Hop as [Hnew _].
  destruct (decide (pid ∈ dom (profilers st.1 k))) as [Hd|Hd]; [left; now apply Hinv|].
  right. tauto.
Qed.

Lemma openProfilers_slots (w : World) (cgroups : list cgroup)
    (st : perfCollector * Kernel) :
  (forall k, dom (profilers st.1 k) ⊆ events st.2 k) ->
  forall k, dom (profilers (openProfilers w cgroups st).1.1 k)
            ⊆ events (openProfilers w cgroups st).1.2 k.
Proof.
  unfold openProfilers.
  set (step := fun '(st, activePIDs) proc =>
                 (open_one w Cache (PID proc) (open_one w Sw (PID proc)
                    (open_one w Hw (PID proc) st)), activePIDs ++ [PID proc])).
  assert (Hgen : forall ps st0 (act0 : list Z),
             (forall k, dom (profilers st0.1 k) ⊆ events st0.2 k) ->
             forall k, dom (profilers (fold_left step ps (st0, act0)).1.1 k)
                       ⊆ events (fold_left step ps (st0, act0)).1.2 k).
  { induction ps as [|p ps IH]; intros st0 act0 Hinv; [exact Hinv|].
    cbn [fold_left step]. apply IH. now repeat apply open_one_slots. }
  apply Hgen.
Qed.

Lemma close_kind_slots (w : World) (k : Kind) (activePIDs : list Z)
    (st : perfCollector * Kernel) :
  (forall k', dom (profilers st.1 k') ⊆ events st.2 k') ->
  forall k', dom (profilers (close_kind w k activePIDs st).1 k')
             ⊆ events (close_kind w k activePIDs st).2 k'.
Proof.
  intros Hinv k' pid Hin. apply close_kind_profilers in Hin. destruct Hin as [Hin Hno].
  apply close_kind_events. split; [now apply Hinv|].
  intros (-> & Hen & _ & Hact & Hc). apply Hno. tauto.
Qed.

Lemma closeProfilers_slots (w : World) (activePIDs : list Z) (st : perfCollector * Kernel) :
  (forall k, dom (profilers st.1 k) ⊆ events st.2 k) ->
  forall k, dom (profilers (closeProfilers w activePIDs st).1 k)
            ⊆ events (closeProfilers w activePIDs st).2 k.
Proof.
  intros Hst. unfold closeProfilers.
  destruct (exec_ok w perfCloseProfilersCtx); [|exact Hst].
  unfold closeProfilers_ctx. now repeat apply close_kind_slots.
Qed.

(** X16: every slot has its descriptors: if, for each kind, every
    process with a slot in the profiler table has open perf_event
    descriptors, this is still so after a scrape, and after [Stop]; no
    profiler in a table has been closed. *)
Theorem Update_slots_have_descriptors (w : World) (c : perfCollector) (kn : Kernel)
    (cgroups : list cgroup) (c' : perfCollector) (kn' : Kernel) (ch : list Metric) :
  (forall k, dom (profilers c k) ⊆ events kn k) ->
  Update w (c, kn) cgroups = Some (c', kn', ch) ->
  (forall k, dom (profilers c' k) ⊆ events kn' k) /\
  (forall k, dom (profilers (Stop w (c, kn)).1 k) ⊆ events (Stop w (c, kn)).2 k).
Proof.
  intros Hinv Hup.
  split; [|now apply closeProfilers_slots].
  revert Hup. unfold Update. cbn [fst].
  destruct (discover w c cgroups) as [cgs|]; [|discriminate].
  assert (Hnew : forall k, dom (profilers (newProfilers w cgs (c, kn)).1.1 k)
                           ⊆ events (newProfilers w cgs (c, kn)).1.2 k).
  { unfold newProfilers. destruct (exec_ok w perfOpenProfilersCtx); [|exact Hinv].
    now apply openProfilers_slots. }
  destruct (newProfilers w cgs (c, kn)) as [st1 act]. cbn [fst] in Hnew.
  pose proof (closeProfilers_slots w act st1 Hnew) as H2.
  destruct (closeProfilers w act st1) as [c2 kn2]. cbn [fst snd] in H2.
  pose proof (fun k => proj1 (update_cgroups_profilers w c2 cgs k)) as H3.
  destruct (update_cgroups w c2 cgs) as [c3 ch3]. cbn [fst] in H3.
  intros [= <- <- _] k. rewrite H3. apply H2.
Qed.

Lemma Update_slots_have_descriptors_witness :
  match perf_after_first with
  | Some (c', kn', _) => dom (profilers c' Hw) ⊆ events kn' Hw
  | None => False
  end.
Proof.
  destruct perf_after_first as [[[c' kn'] ch]|] eqn:E; [|vm_compute in E; discriminate].
  apply (Update_slots_have_descriptors (world_reading true (cycles 100 10 10))
           perf_new kernel_new [unit_cgroup "1481508" [100; 101]] c' kn' ch);
    [|exact E].
  intros k pid Hin. destruct k; cbn in Hin; rewrite dom_empty_L in Hin;
    now apply not_elem_of_empty in Hin.
Defined.

(** The three blocks of [openProfilers] for one PID whose profiler of
    kind [k] opens: its descriptors are open afterwards. *)
Lemma open_pid_events (w : World) (pid : Z) (st : perfCollector * Kernel) (k : Kind) :
  enabled st.1 k = true -> pid ∉ dom (profilers st.1 k) -> new_ok w k pid = true ->
  pid ∈ events (open_one w Cache pid (open_one w Sw pid (open_one w Hw pid st))).2 k.
Proof.
  intros Hen Hno Hnew.
  rewrite !open_one_events, !open_one_enabled, !open_one_profilers.
  destruct k.
  - left. left. right. tauto.
  - left. right. repeat split; try assumption. intros [H|H]; [tauto|].
    destruct H as (H & _). discriminate.
  - right. repeat split; try assumption. intros [[H|H]|H]; [tauto| |];
      destruct H as (H & _); discriminate.
Qed.

Lemma open_pid_events_sub (w : World) (pid : Z) (st : perfCollector * Kernel) (k : Kind) :
  events st.2 k ⊆ events (open_one w Cache pid (open_one w Sw pid (open_one w Hw pid st))).2 k.
Proof.
  etransitivity; [|apply open_one_events_sub].
  etransitivity; [|apply open_one_events_sub].
  apply open_one_events_sub.
Qed.

(** [openProfilers] leaves descriptors open for a PID whose profiler
    opens and does not start. *)
Lemma openProfilers_failed_start (w : World) (cgroups : list cgroup)
    (st : perfCollector * Kernel) (k : Kind) (pid : Z) :
  enabled st.1 k = true -> pid ∈ pids_of cgroups -> pid ∉ dom (profilers st.1 k) ->
  new_ok w k pid = true -> start_ok w k pid = false ->
  pid ∈ events (openProfilers w cgroups st).1.2 k.
Proof.
  intros Hen Hin Hno Hnew Hstart. unfold openProfilers. unfold pids_of in Hin.
  set (step := fun '(st, activePIDs) proc =>
                 (open_one w Cache (PID proc) (open_one w Sw (PID proc)
                    (open_one w Hw (PID proc) st)), activePIDs ++ [PID proc])).
  assert (Hop : open_ok w k pid = false).
  { unfold open_ok. now rewrite Hstart, andb_false_r. }
  assert (Hgen : forall ps st0 (act0 : list Z),
             enabled st0.1 k = true -> pid ∉ dom (profilers st0.1 k) ->
             pid ∈ map PID ps \/ pid ∈ events st0.2 k ->
             pid ∈ events (fold_left step ps (st0, act0)).1.2 k).
  { induction ps as [|p ps IH]; intros st0 act0 Hen0 Hno0 Hcase.
    - cbn. destruct Hcase as [H|H]; [now apply elem_of_nil in H | exact H].
    - cbn [fold_left step]. apply IH.
      + now rewrite open_pid_enabled.
      + rewrite open_pid_profilers. intros [H|(E & _ & H)]; [tauto|].
        rewrite <- E in H. congruence.
      + cbn [map] in Hcase. rewrite elem_of_cons in Hcase.
        destruct Hcase as [[->|H]|H].
        * right. now apply open_pid_events.
        * now left.
        * right. now apply open_pid_events_sub. }
  apply Hgen; [exact Hen | exact Hno | now left].
Qed.

(** X22: a profiler that opens but does not start is not closed: for an
    active PID without a slot whose profiler of an enabled kind opens
    and fails to start, the scrape leaves perf_event descriptors open
    and no slot in the table, and [Stop], which closes the profilers of
    the table only, leaves them open too. *)
Theorem Update_leaves_descriptors_of_failed_start (w : World) (c : perfCollector)
    (kn : Kernel) (cgroups cgs : list cgroup) (c' : perfCollector) (kn' : Kernel)
    (ch : list Metric) (k : Kind) (pid : Z) :
  discover w c cgroups = Some cgs ->
  Update w (c, kn) cgroups = Some (c', kn', ch) ->
  exec_ok w perfOpenProfilersCtx = true ->
  enabled c k = true ->
  pid ∈ pids_of cgs ->
  pid ∉ dom (profilers c k) ->
  new_ok w k pid = true ->
  start_ok w k pid = false ->
  pid ∈ events kn' k /\
  pid ∉ dom (profilers c' k) /\
  pid ∈ events (Stop w (c', kn')).2 k.
Proof.
  intros Hd Hup Hopen Hen Hin Hno Hnew Hstart.
  assert (Hop : open_ok w k pid = false).
  { unfold open_ok. now rewrite Hstart, andb_false_r. }
  revert Hup. unfold Update. cbn [fst]. rewrite Hd.
  unfold newProfilers. rewrite Hopen.
  destruct (openProfilers_spec w cgs (c, kn)) as (Hact & Hen1 & Hdom1).
  pose proof (openProfilers_failed_start w cgs (c, kn) k pid Hen Hin Hno Hnew Hstart)
    as Hev1.
  destruct (openProfilers w cgs (c, kn)) as [st1 act]. cbn [fst snd] in *. subst act.
  assert (Hno1 : pid ∉ dom (profilers st1.1 k)).
  { rewrite Hdom1. intros [H|(_ & _ & H)]; [tauto | congruence]. }
  assert (Hclose : forall act st, pid ∉ dom (profilers st.1 k) ->
             (pid ∈ events st.2 k -> pid ∈ events (closeProfilers w act st).2 k) /\
             pid ∉ dom (profilers (closeProfilers w act st).1 k)).
  { intros act st Hst. unfold closeProfilers.
    destruct (exec_ok w perfCloseProfilersCtx); [|tauto].
    rewrite closeProfilers_ctx_events, closeProfilers_ctx_profilers. tauto. }
  destruct (Hclose (pids_of cgs) st1 Hno1) as [Hev2 Hno2]. specialize (Hev2 Hev1).
  destruct (closeProfilers w (pids_of cgs) st1) as [c2 kn2]. cbn [fst snd] in *.
  pose proof (proj1 (update_cgroups_profilers w c2 cgs k)) as H3.
  destruct (update_cgroups w c2 cgs) as [c3 ch3]. cbn [fst] in H3.
  intros [= <- <- _].
  assert (Hno3 : pid ∉ dom (profilers c3 k)) by now rewrite H3.
  split; [exact Hev2|]. split; [exact Hno3|].
  unfold Stop. now apply (Hclose [] (c3, kn2)).
Qed.

Lemma Update_leaves_descriptors_of_failed_start_witness :
  match Update (world_not_starting 101 (cycles 100 10 10)) (perf_new, kernel_new)
               [unit_cgroup "1481508" [100; 101]] with
  | Some (c', kn', _) =>
      101 ∈ hw_events kn' /\
      101 ∉ dom (perfHwProfilers c') /\
      101 ∈ hw_events (Stop (world_not_starting 101 (cycles 100 10 10)) (c', kn')).2
  | None => False
  end.
Proof.
  destruct (Update (world_not_starting 101 (cycles 100 10 10)) (perf_new, kernel_new)
              [unit_cgroup "1481508" [100; 101]]) as [[[c' kn'] ch]|] eqn:E;
    [|vm_compute in E; discriminate].
  apply (Update_leaves_descriptors_of_failed_start
           (world_not_starting 101 (cycles 100 10 10)) perf_new kernel_new
           [unit_cgroup "1481508" [100; 101]] [unit_cgroup "1481508" [100; 101]]
           c' kn' ch Hw 101); try reflexivity.
  - exact E.
  - apply contains_elem_of. reflexivity.
  - cbn. rewrite dom_empty_L. apply not_elem_of_empty.
Defined.

End PerfMore.

(** ** More on the power collector *)

Section IPMIMore.
Import Bytes Regexp Float64 Prom IPMI Fixtures.

(** The readings parsed are of the three types only. *)
Lemma parseIPMIOutput_types (stdOut : list ascii) (readings : gmap string float64)
    (rType : string) :
  parseIPMIOutput stdOut = Some readings ->
  is_Some (readings !! rType) -> rType ∈ reading_types.
Proof.
  unfold parseIPMIOutput, reading_types.
  destruct (getValue stdOut ipmiDCMIPowerMeasurementRegex) as [v|]; [|discriminate].
  destruct (String.eqb (string_of v) "Active"); [|discriminate].
  intros Heq. apply (inj Some) in Heq. rewrite <- Heq. clear Heq.
  assert (Hgen : forall (l : list (string * re)) (m : gmap string float64),
             is_Some (fold_left
                        (fun powerReadings '(rType, regex) =>
                           match getValue stdOut regex with
                           | Some reading =>
                               match ParseFloat reading with
                               | Some readingValue => <[rType := readingValue]> powerReadings
                               | None => powerReadings
                               end
                           | None => powerReadings
                           end) l m !! rType) ->
             is_Some (m !! rType) \/ rType ∈ map fst l).
  { induction l as [|[k regex] l IH]; intros m; cbn [fold_left map fst]; [now left|].
    intros H. apply IH in H. destruct H as [H|H]; [|right; apply elem_of_cons; now right].
    destruct (getValue stdOut regex) as [reading|]; [|now left].
    destruct (ParseFloat reading) as [x|]; [|now left].
    destruct (decide (k = rType)) as [->|Hne]; [right; apply elem_of_cons; now left|].
    rewrite lookup_insert_ne in H by exact Hne. now left. }
  intros H. apply Hgen in H. destruct H as [H|H]; [|exact H].
  rewrite lookup_empty in H. now destruct H.
Qed.

Lemma getPowerReadings_types (c : impiCollector) (tool : option (list ascii))
    (readings : gmap string float64) (rType : string) :
  getPowerReadings c tool = Some readings ->
  is_Some (readings !! rType) -> rType ∈ reading_types.
Proof.
  unfold getPowerReadings. destruct (executeIPMICmd c tool) as [out|]; [|discriminate].
  apply parseIPMIOutput_types.
Qed.

(** The cache and the samples after [Update], whatever the readings
    used. *)
Lemma Update_from_readings (c : impiCollector) (tool : option (list ascii)) :
  let powerReadings :=
    match getPowerReadings c tool with
    | Some readings => readings
    | None => cachedMetric c
    end in
  (forall rType,
     cachedMetric (Update c tool).1 !! rType =
     match powerReadings !! rType with
     | Some v => if fgt v fzero then Some v else cachedMetric c !! rType
     | None => cachedMetric c !! rType
     end) /\
  (Update c tool).2 = samples_of c powerReadings /\
  hostname (Update c tool).1 = hostname c /\
  execMode (Update c tool).1 = execMode c.
Proof.
  intros powerReadings. unfold Update. fold powerReadings. rewrite Update_loop.
  cbn [fst snd app cachedMetric with_cached hostname execMode].
  split; [|now repeat split].
  intros rType. rewrite write_readings_lookup by apply NoDup_fst_map_to_list.
  rewrite <- (list_find_map_to_list powerReadings rType).
  now destruct (list_find _ _) as [[i [k1 v1]]|].
Qed.

(** X14: the cache only ever holds readings above zero of the three
    types, and never loses one: if that is so before a scrape it is so
    after it, every type cached before is still cached, and every
    sample of the scrape is one of the three power metrics of the host
    with a value above zero. *)
Theorem ipmi_Update_keeps_cache_positive (c : impiCollector)
    (tool : option (list ascii)) :
  (forall rType v, cachedMetric c !! rType = Some v ->
                   fgt v fzero = true /\ rType ∈ reading_types) ->
  (forall rType v, cachedMetric (Update c tool).1 !! rType = Some v ->
                   fgt v fzero = true /\ rType ∈ reading_types) /\
  (forall rType, is_Some (cachedMetric c !! rType) ->
                 is_Some (cachedMetric (Update c tool).1 !! rType)) /\
  (forall m, m ∈ (Update c tool).2 ->
             fgt (value m) fzero = true /\ labelValues m = [hostname c] /\
             exists rType, rType ∈ reading_types /\ fqName m = metricDesc rType).
Proof.
  intros Hinv.
  destruct (Update_from_readings c tool) as (Hcache & Hsent & _).
  set (powerReadings := match getPowerReadings c tool with
                        | Some readings => readings
                        | None => cachedMetric c
                        end) in *.
  assert (Htypes : forall rType, is_Some (powerReadings !! rType) -> rType ∈ reading_types).
  { intros rType H. unfold powerReadings in H.
    destruct (getPowerReadings c tool) as [readings|] eqn:E.
    - now apply (getPowerReadings_types c tool readings).
    - destruct H as [v Hv]. now apply (Hinv rType v). }
  split; [|split].
  - intros rType v. rewrite Hcache.
    destruct (powerReadings !! rType) as [x|] eqn:E; [|apply Hinv].
    destruct (fgt x fzero) eqn:Ex; [|apply Hinv].
    intros [= <-]. split; [exact Ex|]. apply Htypes. now rewrite E.
  - intros rType H. rewrite Hcache.
    destruct (powerReadings !! rType) as [x|]; [|exact H].
    now destruct (fgt x fzero).
  - intros m. rewrite Hsent. unfold samples_of. rewrite list_elem_of_fmap.
    intros ([rType v] & -> & Hin). apply list_elem_of_In, filter_In in Hin.
    destruct Hin as [Hin Hpos]. cbn [fst snd] in *.
    apply list_elem_of_In, elem_of_map_to_list in Hin.
    cbn [power_sample value labelValues fqName].
    split; [exact Hpos|]. split; [reflexivity|]. exists rType.
    split; [|reflexivity]. apply Htypes. now rewrite Hin.
Qed.

Lemma ipmi_Update_keeps_cache_positive_witness :
  Forall (fun m => fgt (value m) fzero = true) (Update ipmi_fresh (Some dcmi_active)).2.
Proof.
  apply Forall_forall. intros m Hin.
  apply (ipmi_Update_keeps_cache_positive ipmi_fresh (Some dcmi_active)); [|exact Hin].
  intros rType v H. vm_compute in H. discriminate.
Defined.

Lemma scrapes_dead (c : impiCollector) (tools : list (option (list ascii))) :
  (forall tool, executeIPMICmd c tool = None) ->
  cachedMetric c = ∅ ->
  (scrapes c tools).1 = c /\ Forall (fun ch => ch = []) (scrapes c tools).2.
Proof.
  intros Hexec Hcache. induction tools as [|tool tools IH]; cbn [scrapes].
  - split; [reflexivity | constructor].
  - assert (Hup : Update c tool = (c, [])).
    { unfold Update, getPowerReadings. rewrite Hexec, Hcache, map_to_list_empty.
      reflexivity. }
    rewrite Hup. destruct (scrapes c tools) as [c2 chs]. cbn [fst snd] in *.
    destruct IH as [-> Hall]. split; [reflexivity | now constructor].
Qed.

(** X15: a collector created when the command runs in none of the ways
    tried (natively, through [sudo] unless the command already starts
    with it, as root) has no execution mode: it never runs the command
    again, its cache stays empty and no scrape ever sends a sample. *)
Theorem NewIPMICollector_without_mode (ipmiDcmiCmd host : string) (e : Exec)
    (tools : list (option (list ascii))) :
  native_ok e = false ->
  cap_ok e = false ->
  sudo_ok e = false \/
  string_of (hd [] (split_on " "%char (bytes_of ipmiDcmiCmd))) = "sudo"%string ->
  let c := NewIPMICollector ipmiDcmiCmd host e in
  execMode c = ""%string /\
  (scrapes c tools).1 = c /\
  Forall (fun ch => ch = []) (scrapes c tools).2.
Proof.
  intros Hn Hc Hs c.
  assert (Hmode : execMode c = ""%string).
  { unfold c, NewIPMICollector. cbn [execMode]. rewrite Hn, Hc.
    destruct Hs as [-> | ->]; [now rewrite andb_false_r | reflexivity]. }
  split; [exact Hmode|].
  apply scrapes_dead; [|reflexivity].
  intros tool. unfold executeIPMICmd. now rewrite Hmode.
Qed.

Lemma NewIPMICollector_without_mode_witness :
  Forall (fun ch => ch = [])
    (scrapes
       (NewIPMICollector "sudo /usr/sbin/ipmi-dcmi --get-system-power-statistics" "node1"
          {| native_ok := false; sudo_ok := true; cap_ok := false |})
       [Some dcmi_active; Some dcmi_active]).2.
Proof.
  apply (NewIPMICollector_without_mode
           "sudo /usr/sbin/ipmi-dcmi --get-system-power-statistics" "node1"
           {| native_ok := false; sudo_ok := true; cap_ok := false |}
           [Some dcmi_active; Some dcmi_active]);
    [reflexivity | reflexivity | right; reflexivity].
Defined.

End IPMIMore.

(** ** The usage handlers *)

Section UsageFacts.
Import API Usage.
Local Open Scope string_scope.

Lemma agg_fold_lookup (b : Tables) (names : list string) (m : gmap string string)
    (col : string) :
  fold_left (fun m col => <[col := agg_col b col]> m) names m !! col
  = if decide (col ∈ names) then Some (agg_col b col) else m !! col.
Proof.
  revert m. induction names as [|a names IH]; intros m; cbn [fold_left].
  - rewrite decide_False by apply not_elem_of_nil. reflexivity.
  - rewrite IH. destruct (decide (col ∈ names)) as [Hin|Hin].
    + rewrite decide_True by (apply elem_of_cons; now right). reflexivity.
    + destruct (decide (col = a)) as [->|Hne].
      * rewrite decide_True by (apply elem_of_cons; now left).
        now rewrite lookup_insert_eq.
      * rewrite decide_False.
        -- now rewrite lookup_insert_ne by congruence.
        -- intros H. apply elem_of_cons in H. tauto.
Qed.

(** X17: after [init], [aggUsageDBCols] maps every column of the usage
    table to its aggregate expression (an [avg] column to its weighted
    mean, a [total] column to its sum, a [num] column to the count of
    units, any other to itself), also when the column is listed more
    than once; [id] is mapped to itself whether listed or not, and no
    other name has an entry. *)
Theorem aggUsageDBCols_lookup (b : Tables) (col : string) :
  aggUsageDBCols b !! col
  = if decide (col ∈ UsageDBTableColNames b) then Some (agg_col b col)
    else if decide (col = "id") then Some "id" else None.
Proof.
  unfold aggUsageDBCols. rewrite agg_fold_lookup.
  destruct (decide (col ∈ UsageDBTableColNames b)); [reflexivity|].
  destruct (decide (col = "id")) as [->|Hne].
  - now rewrite lookup_insert_eq.
  - rewrite lookup_insert_ne by congruence. apply lookup_empty.
Qed.

Lemma agg_col_of_valid (b : Tables) (fields : list string) :
  (forall f, In f fields -> In f (UsageDBTableColNames b)) ->
  map (fun field => default "" (aggUsageDBCols b !! field)) fields
  = map (agg_col b) fields.
Proof.
  intros Hall. apply map_ext_in. intros f Hin.
  unfold aggUsageDBCols. rewrite agg_fold_lookup.
  rewrite decide_True; [reflexivity|].
  apply list_elem_of_In. now apply Hall.
Qed.

(** X18: the texts of the query of [GET /usage/current].  Whatever the
    request, and whatever the querier, the handler answers a bad-data
    error or what the querier gives for one query, whose texts are the
    [SELECT] of the aggregate expressions of the requested valid columns
    ([last_updated_at] left out, no entry empty), the fixed pieces, and
    the [GROUP BY] text, which carries the [groupby] values of the URL
    as they are. *)
Theorem usage_current_query_texts {U : Type} (srv : CEEMSServer) (b : Tables)
    (invalid : string) (clock : Clock) (r : Request) :
  let mk := fun querier : UQuery -> string -> UsageResult U =>
    {| server := srv; tables := b; UsageQuerier := querier;
       errInvalidRequest := invalid |} in
  let fields :=
    List.filter (fun field => negb (String.eqb field "last_updated_at"))
      (getQueriedFields (query r) (UsageDBTableColNames b)) in
  (exists err, forall querier,
     usage (mk querier) clock (Some "current") r = Some (errorResponse errorBadData err)) \/
  exists q,
    (forall querier,
       usage (mk querier) clock (Some "current") r = Some (usage_response (mk querier) q)) /\
    (forall f, In f fields -> In f (UsageDBTableColNames b)) /\
    forall text, In (UText text) q ->
      In text [ "SELECT " +:+ String.concat "," (map (agg_col b) fields) +:+ " FROM "
                  +:+ UnitsDBTableName srv;
                " WHERE project IN "; " AND project IN "; " AND ended_at BETWEEN ";
                " AND ";
                " GROUP BY " +:+ String.concat "," (values_of (query r) "groupby") ].
Proof.
  intros mk fields.
  assert (Hvalid : forall f, In f fields -> In f (UsageDBTableColNames b)).
  { intros f Hin. apply filter_In in Hin. destruct Hin as [Hin _].
    now apply getQueriedFields_In in Hin. }
  destruct (getQueryWindow srv clock r) as [[from to]|err] eqn:Ew.
  - right. eexists. split; [|split; [exact Hvalid|]].
    + intros querier. unfold usage, usage_of, currentUsage, mk.
      cbn [String.eqb Ascii.eqb Bool.eqb server tables dashboardUser].
      rewrite Ew. fold fields. rewrite (agg_col_of_valid b fields Hvalid).
      reflexivity.
    + intros text Hin.
      destruct (values_of (query r) "project"), (values_of (query r) "groupby");
        cbn [app In] in Hin |- *;
        repeat (destruct Hin as [Hin|Hin]; [inversion Hin; tauto|]);
        destruct Hin.
  - left. exists err. intros querier. unfold usage, usage_of, currentUsage, mk.
    cbn [String.eqb Ascii.eqb Bool.eqb server tables dashboardUser].
    now rewrite Ew.
Qed.

(** X19: [GET /usage/{mode}] answers the same whatever [user]
    parameters the URL carries, in every mode: the projects are those
    of the user of the dashboard header only. *)
Theorem usage_ignores_user_param {U : Type} (s : UsageServer U) (clock : Clock)
    (mode : option string) (r : Request) (users : list string) :
  usage s clock mode (with_query r (<["user" := users]> (query r))) = usage s clock mode r /\
  usage s clock mode (with_query r (delete "user" (query r))) = usage s clock mode r.
Proof.
  unfold usage, usage_of, currentUsage, globalUsage, getQueriedFields, getQueryWindow,
    values_Get, values_of.
  cbn [query dashboardUser with_query].
  split.
  - now rewrite !lookup_insert_ne by discriminate.
  - now rewrite !lookup_delete_ne by discriminate.
Qed.

(** X20: [GET /usage/global] makes no use of a time window: its answer
    does not depend on the [from], [to] and [groupby] parameters of the
    URL, and it is never a bad-data error, however long the period the
    data cover and whatever [maxQueryPeriod] is. *)
Theorem usage_global_ignores_window {U : Type} (s : UsageServer U) (clock : Clock)
    (r : Request) (values : list string) :
  usage s clock (Some "global") (with_query r (<["from" := values]> (query r)))
  = usage s clock (Some "global") r /\
  usage s clock (Some "global") (with_query r (<["to" := values]> (query r)))
  = usage s clock (Some "global") r /\
  usage s clock (Some "global") (with_query r (<["groupby" := values]> (query r)))
  = usage s clock (Some "global") r /\
  exists resp : Response U,
    usage s clock (Some "global") r = Some resp /\
    ErrorType resp <> Some errorBadData.
Proof.
  assert (Hkey : forall key, key = "from" \/ key = "to" \/ key = "groupby" ->
            usage s clock (Some "global") (with_query r (<[key := values]> (query r)))
            = usage s clock (Some "global") r).
  { intros key Hkey.
    unfold usage, usage_of, globalUsage, getQueriedFields, values_of.
    cbn [String.eqb Ascii.eqb Bool.eqb query dashboardUser with_query].
    destruct Hkey as [-> | [-> | ->]]; now rewrite !lookup_insert_ne by discriminate. }
  split; [apply Hkey; tauto|]. split; [apply Hkey; tauto|]. split; [apply Hkey; tauto|].
  unfold usage, usage_of. cbn [String.eqb Ascii.eqb Bool.eqb].
  eexists. split; [reflexivity|].
  unfold globalUsage, usage_response.
  destruct (UsageQuerier s _ usageResourceName); cbn; discriminate.
Qed.

End UsageFacts.
